(** * Blog-writing assistant: orchestration workflow, scoring engine,
      retry executor and analyzer-response sanitization

    A shallow embedding of the Python back end
    ([backend/services/agent_service.py], [backend/services/scoring_service.py],
    [backend/services/llm_service.py], [backend/utils/retry.py],
    [backend/models.py]) together with the properties established about it.

    Conventions of the embedding.
    - Python [str] is [string]; [len] is [String.length].  Case folding
      ([str.lower]) is the ASCII one.
    - Python [int] is [Z].  Python [float] is modelled by exact rationals
      [Q] wherever the source only adds, multiplies, divides and compares;
      literals such as [0.2] or [1.3] stand for the decimal fractions they
      denote.
    - A raised exception is an explicit result ([inl]); the mutable objects
      the source updates in place are threaded through as values.
    - [datetime.utcnow()] is an explicit clock argument [now]. *)

From Stdlib Require Import ZArith QArith Qabs Qround Qpower List String Ascii Lia Lqa Bool.
From Stdlib Require Import Sorted Permutation.
From stdpp Require Import gmap strings pretty.
Import ListNotations.
Open Scope string_scope.
Open Scope list_scope.
Set Warnings "-register-all".

(* ================================================================== *)
(** * Part I: the embedding                                            *)
(* ================================================================== *)

(** ** Python string primitives used by the services *)
Module PyStr.

(** [c.lower()] for one ASCII character. *)
Definition lower_char (c : ascii) : ascii :=
  let n := nat_of_ascii c in
  if (65 <=? n)%nat && (n <=? 90)%nat then ascii_of_nat (n + 32) else c.

(** [s.lower()] *)
Fixpoint lower (s : string) : string :=
  match s with
  | EmptyString => EmptyString
  | String c s' => String (lower_char c) (lower s')
  end.

(** [t in s] for two strings: [t] occurs in [s] as a substring. *)
Fixpoint contains (t s : string) : bool :=
  String.prefix t s ||
  match s with
  | EmptyString => false
  | String _ s' => contains t s'
  end.

(** [s.find(t)], searching from offset [i] of the original string. *)
Fixpoint find_from (t s : string) (i : nat) : Z :=
  if String.prefix t s then Z.of_nat i
  else match s with
       | EmptyString => (-1)%Z
       | String _ s' => find_from t s' (S i)
       end.

(** [s.find(t)]: index of the first occurrence, [-1] when there is none. *)
Definition find (s t : string) : Z := find_from t s 0.

(** The scan of [s.split(sep)] for a non-empty separator: [cur] is the
    segment collected so far, [skip] counts the characters of a matched
    separator that are still to be passed over. *)
Fixpoint split_go (sep : string) (skip : nat) (cur s : string) : list string :=
  match s with
  | EmptyString => [cur]
  | String c s' =>
      match skip with
      | S k => split_go sep k cur s'
      | O =>
          if String.prefix sep s
          then cur :: split_go sep (String.length sep - 1) EmptyString s'
          else split_go sep 0 (cur +:+ String c EmptyString) s'
      end
  end.

(** [s.split(sep)] *)
Definition split (s sep : string) : list string := split_go sep 0 EmptyString s.

(** [sep.join(l)] *)
Fixpoint join (sep : string) (l : list string) : string :=
  match l with
  | [] => EmptyString
  | [x] => x
  | x :: l' => x +:+ sep +:+ join sep l'
  end.

(** [c.isspace()] on ASCII: tab, line feed, vertical tab, form feed,
    carriage return, the four separators 28-31 and the space. *)
Definition is_space (c : ascii) : bool :=
  let n := nat_of_ascii c in
  ((9 <=? n)%nat && (n <=? 13)%nat) || ((28 <=? n)%nat && (n <=? 32)%nat).

Definition is_empty (s : string) : bool :=
  match s with EmptyString => true | String _ _ => false end.

Fixpoint lstrip (s : string) : string :=
  match s with
  | EmptyString => EmptyString
  | String c s' => if is_space c then lstrip s' else s
  end.

Fixpoint rstrip (s : string) : string :=
  match s with
  | EmptyString => EmptyString
  | String c s' =>
      let r := rstrip s' in
      if is_space c && is_empty r then EmptyString else String c r
  end.

(** [s.strip()] *)
Definition strip (s : string) : string := rstrip (lstrip s).

(** The scan of [s.split()]: runs of whitespace separate the words and
    no empty word is produced. *)
Fixpoint split_ws_go (cur s : string) : list string :=
  match s with
  | EmptyString => if is_empty cur then [] else [cur]
  | String c s' =>
      if is_space c
      then (if is_empty cur then split_ws_go EmptyString s'
            else cur :: split_ws_go EmptyString s')
      else split_ws_go (cur +:+ String c EmptyString) s'
  end.

(** [s.split()] *)
Definition split_ws (s : string) : list string := split_ws_go EmptyString s.

(** The scan of [s.count(t)]: non-overlapping occurrences, left to right. *)
Fixpoint count_go (t : string) (skip : nat) (s : string) : nat :=
  match s with
  | EmptyString => 0
  | String _ s' =>
      match skip with
      | S k => count_go t k s'
      | O => if String.prefix t s
             then S (count_go t (String.length t - 1) s')
             else count_go t 0 s'
      end
  end.

(** [s.count(t)] for a non-empty [t] *)
Definition count (s t : string) : nat := count_go t 0 s.

(** [s.endswith(c)] for a single character *)
Fixpoint endswith_char (s : string) (c : ascii) : bool :=
  match s with
  | EmptyString => false
  | String c' EmptyString => Ascii.eqb c' c
  | String _ s' => endswith_char s' c
  end.

(** The line feed, and the paragraph separator of the scoring service *)
Definition LF : string := String (ascii_of_nat 10) EmptyString.
Definition LFLF : string := LF +:+ LF.

(** [s[start:end]] for [0 <= start]; a negative [end] counts from the
    end of the string. *)
Definition slice (s : string) (start stop : Z) : string :=
  let len := Z.of_nat (String.length s) in
  let stop := if (stop <? 0)%Z then Z.max 0 (stop + len) else Z.min stop len in
  String.substring (Z.to_nat start) (Z.to_nat (stop - start)) s.

End PyStr.

(** ** Python dictionaries with string keys and numeric values *)
Module PyDict.

Definition t := list (string * Q).

(** [d.get(k, default)] *)
Fixpoint get (d : t) (k : string) (default : Q) : Q :=
  match d with
  | [] => default
  | (k', v) :: d' => if String.eqb k k' then v else get d' k default
  end.

End PyDict.

(** ** Rounding: [round(x, 2)] *)
Module PyNum.
Local Open Scope Q_scope.

(** Nearest integer, ties to the even neighbour. *)
Definition round_half_even (x : Q) : Z :=
  let f := Qfloor x in
  let r := x - inject_Z f in
  match Qcompare r (1 # 2) with
  | Lt => f
  | Gt => (f + 1)%Z
  | Eq => if Z.even f then f else (f + 1)%Z
  end.

(** [round(x, 2)] *)
Definition round2 (x : Q) : Q := inject_Z (round_half_even (x * 100)) / 100.

(** [x > y] and [x < y] on numbers *)
Definition gtb (x y : Q) : bool := negb (Qle_bool x y).
Definition ltb (x y : Q) : bool := negb (Qle_bool y x).

(** [max(a, b)] and [min(a, b)]: the first argument wins ties. *)
Definition max (a b : Q) : Q := if gtb b a then b else a.
Definition min (a b : Q) : Q := if ltb b a then b else a.

(** A length or a count, as a number *)
Definition of_nat (n : nat) : Q := inject_Z (Z.of_nat n).

(** [sum(l)] *)
Definition sum (l : list Q) : Q := fold_left Qplus l 0.

(** [sum(1 for x in l if p(x))] *)
Definition count_if {A : Type} (p : A -> bool) (l : list A) : nat :=
  List.length (List.filter p l).

End PyNum.

(** ** [backend/utils/retry.py] *)
Module Retry.

(** [class RetryError(Exception)]: carries [last_exception], which is
    [None] until some attempt has failed. *)
Inductive result (V E : Type) : Type :=
| Returned (v : V)                          (* [return result] *)
| RetryError (last_exception : option E)    (* [raise RetryError(..., last_exception)] *)
| Propagated (e : E).                       (* the bare [raise] of the second handler *)
Arguments Returned {V E} v.
Arguments RetryError {V E} last_exception.
Arguments Propagated {V E} e.

(** What one [await func(...)] does. *)
Inductive outcome (V E : Type) : Type :=
| Success (v : V)
| Failure (e : E).
Arguments Success {V E} v.
Arguments Failure {V E} e.

(** The keyword arguments of [retry_with_exponential_backoff];
    [retry_exceptions e] stands for [isinstance(e, retry_exceptions)]. *)
Record options (E : Type) : Type := {
  max_retries : Z;
  base_delay : Q;
  max_delay : Q;
  exponential_base : Q;
  jitter : bool;
  retry_exceptions : E -> bool
}.
Arguments max_retries {E} _.
Arguments base_delay {E} _.
Arguments max_delay {E} _.
Arguments exponential_base {E} _.
Arguments jitter {E} _.
Arguments retry_exceptions {E} _.

(** The defaults of the signature: one retry, every [Exception] retried. *)
Definition default_options (E : Type) : options E :=
  {| max_retries := 1; base_delay := 1; max_delay := 60;
     exponential_base := 2; jitter := true;
     retry_exceptions := fun _ => true |}.

(** What an execution did to the outside world: how many times [func]
    was awaited and which delays were passed to [asyncio.sleep]. *)
Record effects : Type := { calls : nat; sleeps : list Q }.

Section Executor.
Context {V E : Type}.

(** [func k] is the outcome of the [k]-th invocation of the wrapped
    coroutine (counted from 0); [random k] is the [k]-th value
    returned by [random.random()]. *)
Variable func : nat -> outcome V E.
Variable random : nat -> Q.
Variable opts : options E.

(** [delay = min(base_delay * (exponential_base ** attempt), max_delay)],
    then the jitter factor. *)
Definition delay_for (attempt : nat) (draws : nat) : Q :=
  let delay :=
    PyNum.min (base_delay opts * (exponential_base opts ^ Z.of_nat attempt))%Q
              (max_delay opts) in
  if jitter opts then (delay * (0.5 + random draws * 0.5))%Q else delay.

(** The body of [for attempt in range(max_retries + 1)], with [fuel]
    iterations of the range left. *)
Fixpoint attempts (fuel attempt : nat) (last_exception : option E)
         (w : effects) : result V E * effects :=
  match fuel with
  | O => (RetryError last_exception, w)
  | S fuel' =>
      let w1 := {| calls := S (calls w); sleeps := sleeps w |} in
      match func (calls w) with
      | Success v => (Returned v, w1)
      | Failure e =>
          if retry_exceptions opts e then
            if (Z.of_nat attempt =? max_retries opts)%Z
            then (RetryError (Some e), w1)
            else
              let delay := delay_for attempt (List.length (sleeps w)) in
              attempts fuel' (S attempt) (Some e)
                       {| calls := calls w1; sleeps := sleeps w1 ++ [delay] |}
          else (Propagated e, w1)
      end
  end.

Definition retry_with_exponential_backoff : result V E * effects :=
  attempts (Z.to_nat (max_retries opts + 1)) 0 None
           {| calls := 0; sleeps := [] |}.

End Executor.

End Retry.

(** ** The part of Python's [re] module the scoring service calls.
    The regular-expression engine is an external library: its entry points
    are the fields of [engine], and every statement about the scoring
    service holds for all engines. *)
Module Re.

Inductive flag : Type := IGNORECASE | MULTILINE.

Record engine : Type := {
  findall : string -> string -> list flag -> list string;
    (* [re.findall(pattern, string, flags)] for a pattern without groups *)
  split : string -> string -> list string;
    (* [re.split(pattern, string)] *)
  is_match : string -> string -> bool;
    (* [bool(re.match(pattern, string))] *)
  search : string -> string -> list flag -> bool
    (* [bool(re.search(pattern, string, flags))] *)
}.

End Re.

(** ** [backend/models.py] *)
Module Models.

(** Exceptions raised by the services: the [ValueError] of the
    orchestrator, pydantic's [ValidationError], and any exception that
    escapes an external collaborator. *)
Inductive exn : Type :=
| ValueError (msg : string)
| ValidationError (model : string)
| ExternalError (msg : string).

Definition Time := Q.

(** [class UserProfile(BaseModel)]; [content_goals] is never read by the
    services and is left out. *)
Record UserProfile : Type := {
  user_id : string;
  preferred_topics : list string;
  reading_level : string;
  writing_style : string;
  target_audience : option string;
  expertise_areas : list string
}.

(** [class ScoreBreakdown(BaseModel)] *)
Record ScoreBreakdown : Type := {
  keyword_relevance : Q;
  readability : Q;
  user_profile_alignment : Q;
  content_structure : Q;
  seo_optimization : Q;
  engagement_potential : Q
}.

(** [Field(..., ge=0.0, le=100.0)] *)
Definition field_ok (x : Q) : bool := Qle_bool 0 x && Qle_bool x 100.

(** The constructor call [ScoreBreakdown(keyword_relevance=..., ...)]:
    pydantic validates every field and raises [ValidationError] when one
    of them is outside its declared bounds. *)
Definition ScoreBreakdown_new (kr rd upa cs seo ep : Q) : exn + ScoreBreakdown :=
  if field_ok kr && field_ok rd && field_ok upa
     && field_ok cs && field_ok seo && field_ok ep
  then inr {| keyword_relevance := kr; readability := rd;
              user_profile_alignment := upa; content_structure := cs;
              seo_optimization := seo; engagement_potential := ep |}
  else inl (ValidationError "ScoreBreakdown").

(** [breakdown.dict()] *)
Definition ScoreBreakdown_dict (b : ScoreBreakdown) : PyDict.t :=
  [ ("keyword_relevance", keyword_relevance b);
    ("readability", readability b);
    ("user_profile_alignment", user_profile_alignment b);
    ("content_structure", content_structure b);
    ("seo_optimization", seo_optimization b);
    ("engagement_potential", engagement_potential b) ].

(** [getattr(breakdown, field)] for the field names of the weights table *)
Definition getattr (b : ScoreBreakdown) (field : string) : Q :=
  PyDict.get (ScoreBreakdown_dict b) field 0.

(** [class RealtimeScore(BaseModel)] *)
Record RealtimeScore : Type := {
  overall_score : Q;
  readability_score : Q;
  relevance_score : Q;
  engagement_score : Q;
  seo_score : Q
}.

End Models.

(** ** [backend/services/scoring_service.py]: [class BlogScoringService] *)
Module Scoring.
Import Models.
Local Open Scope Q_scope.

Definition common_words : list string :=
  [ "the"; "a"; "an"; "and"; "or"; "but"; "in"; "on"; "at"; "to"; "for"; "of"; "with";
    "by"; "is"; "are"; "was"; "were"; "be"; "been"; "being"; "have"; "has"; "had";
    "do"; "does"; "did"; "will"; "would"; "could"; "should"; "may"; "might"; "must";
    "can"; "this"; "that"; "these"; "those"; "i"; "you"; "he"; "she"; "it"; "we"; "they" ].

(** [x in l] for a list or set of strings *)
Definition mem (x : string) (l : list string) : bool :=
  existsb (String.eqb x) l.

(** [sum(1 for w in words if w in text)] *)
Definition count_present (words : list string) (text : string) : nat :=
  PyNum.count_if (fun w => PyStr.contains w text) words.

(** [len(set(l))] *)
Definition distinct {A : Type} (eq_dec : forall x y : A, {x = y} + {x <> y})
           (l : list A) : nat :=
  List.length (nodup eq_dec l).

(** [max(0, min(100, x))] *)
Definition clamp100 (x : Q) : Q := PyNum.max 0 (PyNum.min 100 x).

(** *** Helpers that do not call [re] *)

Definition _count_syllables (word0 : string) : Z :=
  let word := PyStr.lower word0 in
  let vowels := "aeiouy" in
  let fix loop (s : string) (syllable_count : Z) (prev_char_was_vowel : bool) : Z :=
    match s with
    | EmptyString => syllable_count
    | String char s' =>
        let is_vowel := PyStr.contains (String char EmptyString) vowels in
        loop s'
             (if is_vowel && negb prev_char_was_vowel
              then (syllable_count + 1)%Z else syllable_count)
             is_vowel
    end in
  let syllable_count := loop word 0%Z false in
  let syllable_count :=
    if PyStr.endswith_char word "e"%char && (1 <? syllable_count)%Z
    then (syllable_count - 1)%Z else syllable_count in
  Z.max 1 syllable_count.

Definition _calculate_word_complexity_score (words : list string) : Q :=
  match words with
  | [] => 0
  | _ =>
      let avg_length :=
        PyNum.sum (map (fun w => PyNum.of_nat (String.length w)) words)
        / PyNum.of_nat (List.length words) in
      if Qle_bool 4 avg_length && Qle_bool avg_length 7 then 100
      else if PyNum.ltb avg_length 4 then (avg_length / 4) * 100
      else PyNum.max 0 (100 - (avg_length - 7) * 20)
  end.

Definition _calculate_style_alignment (content writing_style : string) : Q :=
  let content_lower := PyStr.lower content in
  if String.eqb writing_style "formal" then
    let formal_indicators := ["therefore"; "furthermore"; "however"; "moreover"; "consequently"] in
    let informal_indicators := ["don't"; "won't"; "can't"; "it's"; "we're"] in
    let formal_count := Z.of_nat (count_present formal_indicators content_lower) in
    let informal_count := Z.of_nat (count_present informal_indicators content_lower) in
    inject_Z (Z.max 0 (50 + formal_count * 10 - informal_count * 5))
  else if String.eqb writing_style "casual" then
    let casual_indicators := ["don't"; "won't"; "can't"; "it's"; "we're"; "you'll"; "i'll"] in
    let formal_indicators := ["therefore"; "furthermore"; "however"; "moreover"] in
    let casual_count := Z.of_nat (count_present casual_indicators content_lower) in
    let formal_count := Z.of_nat (count_present formal_indicators content_lower) in
    inject_Z (Z.max 0 (50 + casual_count * 8 - formal_count * 5))
  else if String.eqb writing_style "technical" then
    let tech_indicators := ["algorithm"; "implementation"; "methodology"; "analysis"; "optimization"] in
    let tech_count := Z.of_nat (count_present tech_indicators content_lower) in
    inject_Z (Z.min 100 (50 + tech_count * 15))
  else if String.eqb writing_style "creative" then
    let creative_indicators := ["imagine"; "picture"; "story"; "metaphor"; "analogy"] in
    let creative_count := Z.of_nat (count_present creative_indicators content_lower) in
    inject_Z (Z.min 100 (50 + creative_count * 12))
  else 50.

Definition audience_keywords : list (string * list string) :=
  [ ("beginner", ["learn"; "start"; "basic"; "simple"; "easy"; "introduction"]);
    ("professional", ["strategy"; "business"; "professional"; "industry"; "market"]);
    ("technical", ["technical"; "system"; "implementation"; "configuration"; "development"]);
    ("academic", ["research"; "study"; "analysis"; "theory"; "methodology"]);
    ("general", ["help"; "guide"; "tips"; "advice"; "useful"]) ].

Definition _calculate_audience_alignment (content target_audience : string) : Q :=
  let content_lower := PyStr.lower content in
  fold_left
    (fun best_match_score (item : string * list string) =>
       let (audience_type, keywords) := item in
       let matches := count_present keywords content_lower in
       let match_score := PyNum.min 100 (PyNum.of_nat matches * 20) in
       if PyStr.contains (PyStr.lower target_audience) audience_type
       then PyNum.max best_match_score match_score
       else if String.eqb audience_type "general"
            then PyNum.max best_match_score (match_score * 0.7)
            else best_match_score)
    audience_keywords 0.

(** [sum(1 for t in topics if t.lower() in content_lower)] *)
Definition topic_matches (topics : list string) (content_lower : string) : nat :=
  PyNum.count_if (fun topic => PyStr.contains (PyStr.lower topic) content_lower) topics.

Definition nonempty {A : Type} (l : list A) : bool :=
  match l with [] => false | _ :: _ => true end.

Definition _calculate_user_profile_alignment
           (content : string) (user_profile : option UserProfile) : Q :=
  match user_profile with
  | None => 50
  | Some user_profile =>
      let content_lower := PyStr.lower content in
      let alignment_scores : list Q := [] in
      let alignment_scores :=
        if nonempty (preferred_topics user_profile) then
          let topic_score :=
            PyNum.min 100
              ((PyNum.of_nat (topic_matches (preferred_topics user_profile) content_lower)
                / PyNum.of_nat (List.length (preferred_topics user_profile))) * 100) in
          alignment_scores ++ [topic_score]
        else alignment_scores in
      let style_score := _calculate_style_alignment content (writing_style user_profile) in
      let alignment_scores := alignment_scores ++ [style_score] in
      let alignment_scores :=
        if nonempty (expertise_areas user_profile) then
          let expertise_score :=
            PyNum.min 100
              ((PyNum.of_nat (topic_matches (expertise_areas user_profile) content_lower)
                / PyNum.of_nat (List.length (expertise_areas user_profile))) * 100) in
          alignment_scores ++ [expertise_score]
        else alignment_scores in
      let alignment_scores :=
        match target_audience user_profile with
        | Some audience =>
            if PyStr.is_empty audience then alignment_scores
            else alignment_scores ++ [_calculate_audience_alignment content audience]
        | None => alignment_scores
        end in
      if nonempty alignment_scores
      then PyNum.round2 (PyNum.sum alignment_scores
                         / PyNum.of_nat (List.length alignment_scores))
      else 50
  end.

(** *** The scorers that go through [re] *)
Section WithRe.
Variable re : Re.engine.

Definition _extract_words (text : string) : list string :=
  let words := Re.findall re "\b[a-zA-Z]+\b" (PyStr.lower text) [] in
  List.filter (fun word => negb (mem word common_words)) words.

Definition _extract_potential_keywords (text : string) : list string :=
  let words := _extract_words text in
  List.filter (fun word => (3 <? String.length word)%nat) words.

Definition _count_sentences (text : string) : nat :=
  let sentences := Re.split re "[.!?]+" text in
  List.length (List.filter (fun s => negb (PyStr.is_empty (PyStr.strip s))) sentences).

Definition _calculate_paragraph_structure_score (content : string) : Q :=
  let paragraphs :=
    map PyStr.strip
        (List.filter (fun p => negb (PyStr.is_empty (PyStr.strip p)))
                     (PyStr.split content PyStr.LFLF)) in
  match paragraphs with
  | [] => 0
  | _ =>
      let scores :=
        map (fun para =>
               let sentence_count := _count_sentences para in
               if (3 <=? sentence_count)%nat && (sentence_count <=? 8)%nat then 100
               else if (sentence_count <? 3)%nat then PyNum.of_nat sentence_count * 33.3
               else PyNum.max 0 (100 - (PyNum.of_nat sentence_count - 8) * 10))
            paragraphs in
      PyNum.sum scores / PyNum.of_nat (List.length scores)
  end.

Definition _calculate_punctuation_score (content : string) : Q :=
  let punctuation_marks := ["."; ","; ";"; ":"; "!"; "?"] in
  let word_count := List.length (_extract_words content) in
  if (word_count =? 0)%nat then 0
  else
    let punct_count :=
      fold_left Nat.add (map (fun mark => PyStr.count content mark) punctuation_marks) 0%nat in
    let punct_ratio := PyNum.of_nat punct_count / PyNum.of_nat word_count in
    if Qle_bool 0.1 punct_ratio && Qle_bool punct_ratio 0.3 then 100
    else if PyNum.ltb punct_ratio 0.1 then (punct_ratio / 0.1) * 100
    else PyNum.max 0 (100 - (punct_ratio - 0.3) * 200).

Definition _calculate_keyword_relevance
           (content : string) (user_profile : option UserProfile) : Q :=
  let words := _extract_words content in
  let total_words := List.length words in
  if (total_words =? 0)%nat then 0
  else
    let content_keywords := _extract_potential_keywords content in
    let keyword_density :=
      PyNum.of_nat (List.length content_keywords) / PyNum.of_nat total_words * 100 in
    let density_score := 100 * (1 - Qabs (keyword_density - 2) / 10) in
    let density_score := PyNum.max 0 (PyNum.min 100 density_score) in
    let unique_keywords := distinct string_dec content_keywords in
    let variety_score := PyNum.min 100 (PyNum.of_nat unique_keywords * 5) in
    let profile_relevance :=
      match user_profile with
      | Some user_profile =>
          if nonempty (preferred_topics user_profile) then
            PyNum.min 100
              (PyNum.of_nat (topic_matches (preferred_topics user_profile)
                                           (PyStr.lower content)) * 25)
          else 50
      | None => 50
      end in
    let keyword_score :=
      density_score * 0.4 + variety_score * 0.35 + profile_relevance * 0.25 in
    PyNum.round2 keyword_score.

Definition _calculate_readability_score
           (content : string) (user_profile : option UserProfile) : Q :=
  let sentences := _count_sentences content in
  let words := _extract_words content in
  let syllables := fold_left Z.add (map _count_syllables words) 0%Z in
  if (sentences =? 0)%nat || (List.length words =? 0)%nat then 0
  else
    let avg_sentence_length := PyNum.of_nat (List.length words) / PyNum.of_nat sentences in
    let avg_syllables_per_word := inject_Z syllables / PyNum.of_nat (List.length words) in
    let flesch_score :=
      206.835 - (1.015 * avg_sentence_length) - (84.6 * avg_syllables_per_word) in
    let flesch_score := PyNum.max 0 (PyNum.min 100 flesch_score) in
    let paragraph_score := _calculate_paragraph_structure_score content in
    let punctuation_score := _calculate_punctuation_score content in
    let word_complexity_score := _calculate_word_complexity_score words in
    let target_adjustment :=
      match user_profile with
      | Some user_profile =>
          if PyStr.is_empty (reading_level user_profile) then 0
          else if String.eqb (reading_level user_profile) "beginner"
                  && PyNum.ltb flesch_score 60
          then (60 - flesch_score) * 0.5
          else if String.eqb (reading_level user_profile) "advanced"
                  && PyNum.gtb flesch_score 40
          then (flesch_score - 40) * 0.3
          else 0
      | None => 0
      end in
    let readability_score :=
      flesch_score * 0.5 + paragraph_score * 0.2 + punctuation_score * 0.15
      + word_complexity_score * 0.15 + target_adjustment in
    PyNum.round2 (PyNum.max 0 (PyNum.min 100 readability_score)).

Definition _calculate_content_structure_score (content : string) : Q :=
  let structure_scores : list Q := [] in
  let paragraphs := PyStr.split content PyStr.LFLF in
  let paragraph_count :=
    List.length (List.filter (fun p => negb (PyStr.is_empty (PyStr.strip p))) paragraphs) in
  let para_score :=
    if (3 <=? paragraph_count)%nat && (paragraph_count <=? 8)%nat then 100
    else if (paragraph_count <? 3)%nat
         then PyNum.max 0 (PyNum.of_nat paragraph_count * 33.3)
         else PyNum.max 0 (100 - (PyNum.of_nat paragraph_count - 8) * 10) in
  let structure_scores := structure_scores ++ [para_score] in
  let sentences :=
    map PyStr.strip
        (List.filter (fun s => negb (PyStr.is_empty (PyStr.strip s)))
                     (Re.split re "[.!?]+" content)) in
  let structure_scores :=
    if nonempty sentences then
      let sentence_lengths := map (fun s => List.length (PyStr.split_ws s)) sentences in
      let avg_length :=
        PyNum.of_nat (fold_left Nat.add sentence_lengths 0%nat)
        / PyNum.of_nat (List.length sentence_lengths) in
      let length_variety :=
        PyNum.of_nat (distinct Nat.eq_dec sentence_lengths)
        / PyNum.of_nat (List.length sentence_lengths) in
      let length_score := 100 * (1 - Qabs (avg_length - 20) / 20) in
      let length_score := PyNum.max 0 (PyNum.min 100 length_score) in
      let variety_score := length_variety * 100 in
      structure_scores ++ [length_score; variety_score]
    else structure_scores in
  let heading_indicators := List.length (Re.findall re "\n[A-Z][^.\n]*\n" content []) in
  let heading_score := PyNum.min 100 (PyNum.of_nat heading_indicators * 25) in
  let structure_scores := structure_scores ++ [heading_score] in
  PyNum.round2 (PyNum.sum structure_scores / PyNum.of_nat (List.length structure_scores)).

(** [sum([b1, b2, ...])] for booleans *)
Definition count_true (l : list bool) : nat := PyNum.count_if (fun b => b) l.

Definition _calculate_seo_score (content : string) : Q :=
  let seo_factors : list Q := [] in
  let word_count := List.length (_extract_words content) in
  let length_score :=
    if (800 <=? word_count)%nat && (word_count <=? 2000)%nat then 100
    else if (word_count <? 800)%nat then (PyNum.of_nat word_count / 800) * 100
    else PyNum.max 0 (100 - (PyNum.of_nat word_count - 2000) / 100) in
  let seo_factors := seo_factors ++ [length_score] in
  let keywords := _extract_potential_keywords content in
  let keyword_density :=
    (PyNum.of_nat (List.length keywords) / PyNum.of_nat (Nat.max 1 word_count)) * 100 in
  let density_score :=
    if Qle_bool 1 keyword_density && Qle_bool keyword_density 3 then 100
    else PyNum.max 0 (100 - Qabs (keyword_density - 2) * 25) in
  let seo_factors := seo_factors ++ [density_score] in
  let has_title_like :=
    Re.is_match re "^.{10,60}$" (hd EmptyString (PyStr.split content PyStr.LF)) in
  let has_intro :=
    if PyStr.contains PyStr.LFLF content
    then (100 <? String.length (hd EmptyString (PyStr.split content PyStr.LFLF)))%nat
    else false in
  let has_conclusion :=
    PyStr.contains "conclusion" (PyStr.lower content)
    || PyStr.contains "summary" (PyStr.lower content) in
  let meta_score :=
    PyNum.of_nat (count_true [has_title_like; has_intro; has_conclusion]) * 33.3 in
  let seo_factors := seo_factors ++ [meta_score] in
  let has_lists := Re.search re "^\s*[\-\*\d+\.]\s+" content [Re.MULTILINE] in
  let has_emphasis := Re.search re "\*\*.*?\*\*|__.*?__|_.*?_|\*.*?\*" content [] in
  let structure_score := PyNum.of_nat (count_true [has_lists; has_emphasis]) * 50 in
  let seo_factors := seo_factors ++ [structure_score] in
  PyNum.round2 (PyNum.sum seo_factors / PyNum.of_nat (List.length seo_factors)).

(** [sum(len(re.findall(p, content, re.IGNORECASE)) for p in patterns)] *)
Definition count_matches (patterns : list string) (content : string) : nat :=
  fold_left Nat.add
            (map (fun pattern =>
                    List.length (Re.findall re pattern content [Re.IGNORECASE]))
                 patterns)
            0%nat.

Definition _calculate_engagement_score (content : string) : Q :=
  let engagement_factors : list Q := [] in
  let question_count := List.length (Re.findall re "\?" content []) in
  let word_count := List.length (_extract_words content) in
  let question_ratio :=
    PyNum.of_nat question_count / PyNum.max 1 (PyNum.of_nat word_count / 100) in
  let question_score := PyNum.min 100 (question_ratio * 50) in
  let engagement_factors := engagement_factors ++ [question_score] in
  let cta_patterns :=
    [ "\bshare\b"; "\bcomment\b"; "\bsubscribe\b"; "\bfollow\b";
      "\btry\b"; "\bstart\b"; "\blearn more\b"; "\bclick here\b" ] in
  let cta_count := count_matches cta_patterns content in
  let cta_score := PyNum.min 100 (PyNum.of_nat cta_count * 25) in
  let engagement_factors := engagement_factors ++ [cta_score] in
  let positive_words :=
    [ "amazing"; "excellent"; "fantastic"; "great"; "wonderful";
      "inspiring"; "motivating"; "exciting"; "incredible"; "outstanding" ] in
  let negative_words :=
    [ "problem"; "challenge"; "difficult"; "struggle"; "issue";
      "mistake"; "error"; "failure"; "wrong"; "bad" ] in
  let content_lower := PyStr.lower content in
  let positive_count := count_present positive_words content_lower in
  let negative_count := count_present negative_words content_lower in
  let emotional_score :=
    PyNum.min 100 (PyNum.of_nat (positive_count + negative_count) * 10) in
  let engagement_factors := engagement_factors ++ [emotional_score] in
  let personal_pronouns := ["you"; "your"; "we"; "our"; "us"; "i"; "my"] in
  let pronoun_count :=
    count_matches (map (fun pronoun => "\b" +:+ pronoun +:+ "\b") personal_pronouns)
                  content in
  let pronoun_score := PyNum.min 100 (PyNum.of_nat pronoun_count * 5) in
  let engagement_factors := engagement_factors ++ [pronoun_score] in
  PyNum.round2 (PyNum.sum engagement_factors
                / PyNum.of_nat (List.length engagement_factors)).

Definition _generate_recommendations
           (breakdown : ScoreBreakdown) (content : string)
           (user_profile : option UserProfile) : list string :=
  let has_topics :=
    match user_profile with
    | Some p => nonempty (preferred_topics p)
    | None => false
    end in
  let recommendations : list string := [] in
  let recommendations :=
    if PyNum.ltb (keyword_relevance breakdown) 60 then
      recommendations
      ++ ["Consider adding more relevant keywords related to your main topic"]
      ++ (match user_profile with
          | Some p =>
              if has_topics
              then ["Include keywords related to: "
                    +:+ PyStr.join ", " (firstn 3 (preferred_topics p))]
              else []
          | None => []
          end)
    else recommendations in
  let recommendations :=
    if PyNum.ltb (readability breakdown) 60 then
      recommendations
      ++ ["Improve readability by using shorter sentences and simpler words";
          "Break up long paragraphs into smaller, more digestible chunks"]
    else recommendations in
  let recommendations :=
    if PyNum.ltb (content_structure breakdown) 60 then
      recommendations
      ++ ["Improve content structure with clear headings and logical flow";
          "Ensure paragraphs are 3-8 sentences long for optimal readability"]
    else recommendations in
  let recommendations :=
    if PyNum.ltb (seo_optimization breakdown) 60 then
      let word_count := List.length (_extract_words content) in
      recommendations
      ++ (if (word_count <? 800)%nat
          then ["Consider expanding content to 800-2000 words for better SEO"]
          else [])
      ++ ["Add meta descriptions, headings, and optimize keyword density"]
    else recommendations in
  let recommendations :=
    if PyNum.ltb (engagement_potential breakdown) 60 then
      recommendations
      ++ ["Add questions to encourage reader engagement";
          "Include calls-to-action to drive user interaction";
          "Use more personal pronouns (you, we, us) to connect with readers"]
    else recommendations in
  let recommendations :=
    match user_profile with
    | Some p =>
        if PyNum.ltb (user_profile_alignment breakdown) 60 then
          recommendations
          ++ (if String.eqb (writing_style p) "formal"
              then ["Use more formal language and avoid contractions"]
              else if String.eqb (writing_style p) "casual"
              then ["Adopt a more conversational tone with contractions and informal language"]
              else [])
          ++ (if String.eqb (reading_level p) "beginner"
              then ["Simplify vocabulary and explain technical terms"]
              else if String.eqb (reading_level p) "advanced"
              then ["Include more sophisticated vocabulary and complex concepts"]
              else [])
        else recommendations
    | None => recommendations
    end in
  firstn 8 recommendations.

(** The weights table of [calculate_comprehensive_score] *)
Definition weights : list (string * Q) :=
  [ ("keyword_relevance", 0.25);
    ("readability", 0.20);
    ("user_profile_alignment", 0.15);
    ("content_structure", 0.15);
    ("seo_optimization", 0.15);
    ("engagement_potential", 0.10) ].

(** [sum(getattr(breakdown, field) * weight for field, weight in weights.items())] *)
Definition weighted_sum (breakdown : ScoreBreakdown) : Q :=
  PyNum.sum (map (fun fw : string * Q => getattr breakdown (fst fw) * snd fw) weights).

(** The dictionary returned by [calculate_comprehensive_score] *)
Record ScoreResult : Type := {
  result_overall_score : Q;
  result_breakdown : PyDict.t;
  result_recommendations : list string;
  result_analysis_timestamp : Time
}.

(** What [calculate_comprehensive_score] does once the breakdown exists. *)
Definition score_result (breakdown : ScoreBreakdown) (content : string)
           (user_profile : option UserProfile) (now : Time) : ScoreResult :=
  let overall_score := weighted_sum breakdown in
  let recommendations := _generate_recommendations breakdown content user_profile in
  {| result_overall_score := PyNum.round2 overall_score;
     result_breakdown := ScoreBreakdown_dict breakdown;
     result_recommendations := recommendations;
     result_analysis_timestamp := now |}.

Definition calculate_comprehensive_score
           (content : string) (user_profile : option UserProfile) (now : Time)
  : exn + ScoreResult :=
  let keyword_score := _calculate_keyword_relevance content user_profile in
  let readability_score := _calculate_readability_score content user_profile in
  let profile_score := _calculate_user_profile_alignment content user_profile in
  let structure_score := _calculate_content_structure_score content in
  let seo_score := _calculate_seo_score content in
  let engagement_score := _calculate_engagement_score content in
  match ScoreBreakdown_new keyword_score readability_score profile_score
                           structure_score seo_score engagement_score with
  | inl e => inl e
  | inr breakdown => inr (score_result breakdown content user_profile now)
  end.

End WithRe.

End Scoring.

(** ** [backend/services/llm_service.py]: response sanitization *)
Module LLM.

(** A Python [float]: every finite double is a rational, and the two
    infinities and NaN are kept apart because [json.loads] and
    [float(str)] can produce them. *)
Inductive pyfloat : Type :=
| FNaN
| FInf (negative : bool)
| FFin (q : Q).

(** What [json.loads] returns. A dictionary keeps its insertion order. *)
Inductive json : Type :=
| JNone
| JBool (b : bool)
| JInt (z : Z)
| JFloat (f : pyfloat)
| JStr (s : string)
| JList (l : list json)
| JDict (d : list (string * json)).

(** [a < b] on floats: false as soon as one side is NaN. *)
Definition flt (a b : pyfloat) : bool :=
  match a, b with
  | FNaN, _ | _, FNaN => false
  | FInf true, FInf true => false
  | FInf true, _ => true
  | FInf false, _ => false
  | FFin _, FInf negative => negb negative
  | FFin q, FFin r => PyNum.ltb q r
  end.

(** [min(a, b)] and [max(a, b)]: [b] replaces [a] only when it is
    strictly smaller (larger). *)
Definition fmin (a b : pyfloat) : pyfloat := if flt b a then b else a.
Definition fmax (a b : pyfloat) : pyfloat := if flt a b then b else a.

(** [max(0.0, min(1.0, x))] *)
Definition clamp01 (x : pyfloat) : pyfloat := fmax (FFin 0) (fmin (FFin 1) x).

(** [float(n)] for an integer raises [OverflowError] beyond the range of
    a double.  Below that it rounds to the nearest double; the rounding
    is monotone and exact on the integers up to [2^53], so it changes
    none of the clamped values computed from it and is not modelled. *)
Definition float_of_int (z : Z) : option pyfloat :=
  if (Z.abs z <? 2 ^ 1024 - 2 ^ 970)%Z then Some (FFin (inject_Z z)) else None.

(** [int(x)] for a float truncates toward zero and raises on NaN and on
    the infinities. *)
Definition int_of_float (f : pyfloat) : option Z :=
  match f with
  | FFin q => Some (Z.quot (Qnum q) (Z.pos (Qden q)))
  | _ => None
  end.

Definition Z_of_bool (b : bool) : Z := if b then 1%Z else 0%Z.

(** The outcome of a block of statements that updates an object in
    place: the object once the block has run to its end, or the object
    as it was left when an exception escaped. *)
Inductive upd (A : Type) : Type :=
| Done (a : A)
| Raised (a : A).
Arguments Done {A} a.
Arguments Raised {A} a.

Definition value_of {A : Type} (u : upd A) : A :=
  match u with Done a | Raised a => a end.

Definition upd_map {A B : Type} (f : A -> B) (u : upd A) : upd B :=
  match u with Done a => Done (f a) | Raised a => Raised (f a) end.

Definition upd_bind {A : Type} (u : upd A) (k : A -> upd A) : upd A :=
  match u with Done a => k a | Raised a => Raised a end.

(** Dictionaries as association lists: [d[k]] and [d[k] = v] for a key
    that is present. *)
Fixpoint lookup (d : list (string * json)) (k : string) : option json :=
  match d with
  | [] => None
  | (k', v) :: d' => if String.eqb k k' then Some v else lookup d' k
  end.

Fixpoint store (d : list (string * json)) (k : string) (v : json)
  : list (string * json) :=
  match d with
  | [] => [(k, v)]
  | (k', v') :: d' =>
      if String.eqb k k' then (k', v) :: d' else (k', v') :: store d' k v
  end.

(** [k in obj]: key test on a dictionary, substring test on a string,
    membership on a list, [TypeError] ([None]) on anything else. *)
Definition py_in (k : string) (obj : json) : option bool :=
  match obj with
  | JDict d => Some (match lookup d k with Some _ => true | None => false end)
  | JStr s => Some (PyStr.contains k s)
  | JList l =>
      Some (existsb (fun x => match x with JStr s => String.eqb s k | _ => false end) l)
  | _ => None
  end.

(** [obj[k]] for a string [k]: only a dictionary can be indexed so. *)
Definition getitem (obj : json) (k : string) : option json :=
  match obj with
  | JDict d => lookup d k
  | _ => None
  end.

(** [obj[k] = v] on a dictionary. *)
Definition setitem (obj : json) (k : string) (v : json) : json :=
  match obj with
  | JDict d => JDict (store d k v)
  | _ => obj
  end.

(** [if k in obj: <body on obj[k]>], where the body either assigns a new
    value to [obj[k]] or updates the object found there in place. *)
Definition update (k : string) (body : json -> upd json) (obj : json) : upd json :=
  match py_in k obj with
  | None => Raised obj
  | Some false => Done obj
  | Some true =>
      match getitem obj k with
      | None => Raised obj
      | Some sub => upd_map (setitem obj k) (body sub)
      end
  end.

(** Consecutive [if k in obj: ...] statements. *)
Fixpoint updates (steps : list (string * (json -> upd json))) (obj : json) : upd json :=
  match steps with
  | [] => Done obj
  | (k, body) :: steps' => upd_bind (update k body obj) (updates steps')
  end.

(** [obj[k] = conv(obj[k])]: nothing is assigned when [conv] raises. *)
Definition assign (conv : json -> option json) (v : json) : upd json :=
  match conv v with
  | Some v' => Done v'
  | None => Raised v
  end.

(** The loop body run over the items of a list, in place, left to right. *)
Fixpoint for_list (body : json -> upd json) (l : list json) : upd (list json) :=
  match l with
  | [] => Done []
  | x :: l' =>
      match body x with
      | Raised x' => Raised (x' :: l')
      | Done x' => upd_map (cons x') (for_list body l')
      end
  end.

Definition chars (s : string) : list json :=
  map (fun c => JStr (String c EmptyString)) (list_ascii_of_string s).

(** [for x in v: body]: a list yields its items, a string its
    characters, a dictionary its keys; the latter two are immutable
    strings, so only an exception of the body can be observed. *)
Definition for_each (body : json -> upd json) (v : json) : upd json :=
  match v with
  | JList l => upd_map JList (for_list body l)
  | JStr s =>
      match for_list body (chars s) with Done _ => Done v | Raised _ => Raised v end
  | JDict d =>
      match for_list body (map (fun kv => JStr (fst kv)) d) with
      | Done _ => Done v
      | Raised _ => Raised v
      end
  | _ => Raised v
  end.

(** [v[:n]] *)
Definition slice (n : nat) (v : json) : option json :=
  match v with
  | JList l => Some (JList (firstn n l))
  | JStr s => Some (JStr (String.substring 0 n s))
  | _ => None
  end.

(** [obj[k] = obj[k][:n]] followed by [for x in obj[k]: body] *)
Definition sliced (n : nat) (body : json -> upd json) (v : json) : upd json :=
  match slice n v with
  | None => Raised v
  | Some v' => for_each body v'
  end.

Section Conversions.
(** [float(s)] and [int(s)] for a string: Python's literal parsers. *)
Variable parse_float : string -> option pyfloat.
Variable parse_int : string -> option Z.

(** [float(v)] *)
Definition py_float (v : json) : option pyfloat :=
  match v with
  | JInt z => float_of_int z
  | JBool b => Some (FFin (inject_Z (Z_of_bool b)))
  | JFloat f => Some f
  | JStr s => parse_float s
  | _ => None
  end.

(** [int(v)] *)
Definition py_int (v : json) : option Z :=
  match v with
  | JInt z => Some z
  | JBool b => Some (Z_of_bool b)
  | JFloat f => int_of_float f
  | JStr s => parse_int s
  | _ => None
  end.

(** [max(0.0, min(1.0, float(v)))] *)
Definition unit_interval (v : json) : option json :=
  option_map (fun f => JFloat (clamp01 f)) (py_float v).

(** [max(0, min(100, int(float(v))))] *)
Definition percent (v : json) : option json :=
  match py_float v with
  | Some f => option_map (fun z => JInt (Z.max 0 (Z.min 100 z))) (int_of_float f)
  | None => None
  end.

(** [max(lo, int(v))] *)
Definition int_at_least (lo : Z) (v : json) : option json :=
  option_map (fun z => JInt (Z.max lo z)) (py_int v).

Definition sanitize_blog_analysis : json -> upd json :=
  updates
    [ ("sentiment",
       updates
         [ ("confidence", assign unit_interval);
           ("scores",
            updates [ ("positive", assign unit_interval);
                      ("negative", assign unit_interval);
                      ("neutral", assign unit_interval) ]) ]);
      ("topics",
       sliced 5 (updates [ ("relevance", assign unit_interval);
                           ("frequency", assign (int_at_least 1)) ]));
      ("keywords",
       sliced 10 (updates [ ("relevance", assign unit_interval);
                            ("similarity", assign unit_interval) ]));
      ("readability", assign percent) ].

Definition sanitize_keyword_recommendations : json -> upd json :=
  updates
    [ ("keywords",
       sliced 10 (updates [ ("relevance", assign unit_interval);
                            ("similarity", assign unit_interval);
                            ("position", assign (int_at_least 0)) ]));
      ("weak_sections",
       for_each (updates [ ("confidence", assign unit_interval);
                           ("start", assign (int_at_least 0));
                           ("end", assign (int_at_least 0)) ]));
      ("scores",
       updates [ ("overall", assign percent);
                 ("readability", assign percent);
                 ("relevance", assign percent);
                 ("engagement", assign percent);
                 ("seo", assign percent) ]) ].

Definition sanitize_content_scoring : json -> upd json :=
  updates
    [ ("overall_score", assign percent);
      ("breakdown",
       updates [ ("keyword_relevance", assign percent);
                 ("readability", assign percent);
                 ("user_alignment", assign percent);
                 ("structure", assign percent);
                 ("seo", assign percent);
                 ("engagement", assign percent) ]);
      ("recommendations", assign (slice 5)) ].

(** The [try] block returns [response_data] and so does the handler:
    either way the caller gets the object as the statements left it. *)
Definition _validate_and_sanitize_response
           (response_data : json) (schema_key : string) : json :=
  if String.eqb schema_key "blog_analysis"
  then value_of (sanitize_blog_analysis response_data)
  else if String.eqb schema_key "keyword_recommendations"
  then value_of (sanitize_keyword_recommendations response_data)
  else if String.eqb schema_key "content_scoring"
  then value_of (sanitize_content_scoring response_data)
  else response_data.

End Conversions.

End LLM.

(** ** [backend/services/agent_service.py]: [class AgentOrchestrator] *)
Module Agent.
Import Models.
Local Open Scope Q_scope.

(** A keyword suggestion as the workflow handles it: a dictionary read
    with [.get('keyword', '')] and [.get('relevance_score', 0.5)]. *)
Record Keyword : Type := {
  kw_keyword : option string;
  kw_relevance_score : option Q;
  kw_context : option string
}.

(** The dictionary built for a weak section. *)
Record WeakSection : Type := {
  start_position : Z;
  end_position : Z;
  issue_type : string;
  severity : string;
  suggestion : string;
  confidence : Q
}.

(** What [llm_service.recommend_keywords] returns; [{}] is the analysis
    with nothing in it. *)
Record Analysis : Type := {
  a_keywords : list Keyword;
  a_weak_sections : list WeakSection;
  a_realtime_score : PyDict.t;
  a_suggestions_context : string
}.

Definition empty_analysis : Analysis :=
  {| a_keywords := []; a_weak_sections := []; a_realtime_score := [];
     a_suggestions_context := "" |}.

(** One entry of [state['analysis_history']] *)
Record AnalysisEntry : Type := {
  timestamp : Time;
  analysis : Analysis;
  draft_length : option Z;
  weak_sections : option (list WeakSection)
}.

(** One entry of [state['previous_suggestions']] *)
Record SuggestionEntry : Type := {
  sg_timestamp : Time;
  sg_keywords : list Keyword;
  sg_context : string;
  sg_refined_keywords : option (list Keyword)
}.

(** [state['final_response']] *)
Record FinalResponse : Type := {
  fr_keywords : list Keyword;
  fr_realtime_score : PyDict.t;
  fr_weak_sections : list WeakSection;
  fr_suggestions_context : string;
  fr_timestamp : Time
}.

(** [class AgentState(TypedDict)], with the [final_response] key the
    last node adds.  [user_profile] is the dictionary obtained from
    [session.user_profile.dict()], so [UserProfile( **d )] rebuilds the
    profile it came from; [None] is the empty dictionary. *)
Record AgentState : Type := {
  session_id : string;
  user_profile : option UserProfile;
  current_draft : string;
  cursor_position : Z;
  previous_suggestions : list SuggestionEntry;
  analysis_history : list AnalysisEntry;
  current_score : PyDict.t;
  iteration_count : option Z;
  last_updated : Time;
  final_response : option FinalResponse
}.

Definition set_analysis_history (state : AgentState) (h : list AnalysisEntry) : AgentState :=
  {| session_id := session_id state; user_profile := user_profile state;
     current_draft := current_draft state; cursor_position := cursor_position state;
     previous_suggestions := previous_suggestions state; analysis_history := h;
     current_score := current_score state; iteration_count := iteration_count state;
     last_updated := last_updated state; final_response := final_response state |}.

Definition set_current_score (state : AgentState) (score : PyDict.t) : AgentState :=
  {| session_id := session_id state; user_profile := user_profile state;
     current_draft := current_draft state; cursor_position := cursor_position state;
     previous_suggestions := previous_suggestions state;
     analysis_history := analysis_history state;
     current_score := score; iteration_count := iteration_count state;
     last_updated := last_updated state; final_response := final_response state |}.

(** The edges declared by [_build_workflow]. *)
Definition edges : list (string * string) :=
  [ ("analyze_draft", "generate_keywords");
    ("generate_keywords", "score_content");
    ("score_content", "identify_weaknesses");
    ("identify_weaknesses", "refine_suggestions");
    ("refine_suggestions", "finalize_response");
    ("finalize_response", "END") ].

Definition conditional_edges : list (string * string) :=
  [ ("continue", "analyze_draft"); ("end", "END") ].

(** [l[-k]] for [1 <= k] *)
Definition from_end {A : Type} (l : list A) (k : nat) : option A :=
  nth_error (rev l) (k - 1).

(** [l[-1][field] = v] *)
Definition update_last {A : Type} (f : A -> A) (l : list A) : list A :=
  match rev l with
  | [] => []
  | x :: r => rev r ++ [f x]
  end.

Definition _get_cursor_context (content : string) (cursor_position : Z) : string :=
  let context_size := 100%Z in
  let start := Z.max 0 (cursor_position - context_size) in
  let stop := Z.min (Z.of_nat (String.length content)) (cursor_position + context_size) in
  PyStr.slice content start stop.

Definition _content_changed_significantly (state : AgentState) : bool :=
  if (List.length (analysis_history state) <? 2)%nat then false
  else
    let current_length := Z.of_nat (String.length (current_draft state)) in
    let previous_length :=
      match from_end (analysis_history state) 2 with
      | Some entry => match draft_length entry with Some n => n | None => 0%Z end
      | None => 0%Z
      end in
    let change_ratio :=
      inject_Z (Z.abs (current_length - previous_length))
      / inject_Z (Z.max previous_length 1) in
    PyNum.gtb change_ratio 0.2.

Definition _should_iterate (state : AgentState) : string :=
  let max_iterations := 2%Z in
  let current_iterations :=
    match iteration_count state with Some n => n | None => 0%Z end in
  if (current_iterations <? max_iterations)%Z
     && _content_changed_significantly state
  then "continue"
  else "end".

(** The weak sections computed by [_identify_weaknesses_node]. *)
Definition find_weak_sections (content : string) : list WeakSection :=
  let sentences := PyStr.split content ". " in
  map (fun sentence =>
         {| start_position := PyStr.find content sentence;
            end_position :=
              (PyStr.find content sentence + Z.of_nat (String.length sentence))%Z;
            issue_type := "sentence_too_short";
            severity := "medium";
            suggestion := "Consider expanding this sentence with more detail";
            confidence := 0.7 |})
      (List.filter (fun sentence => (String.length sentence <? 10)%nat) sentences).

Definition _identify_weaknesses_node (state : AgentState) : AgentState :=
  let weak_sections := find_weak_sections (current_draft state) in
  set_analysis_history state
    (update_last
       (fun entry =>
          {| timestamp := timestamp entry; analysis := analysis entry;
             draft_length := draft_length entry;
             weak_sections := Some weak_sections |})
       (analysis_history state)).

(** [any(term in text for term in terms)] *)
Definition any_term (terms : list string) (text : string) : bool :=
  existsb (fun term => PyStr.contains term text) terms.

(** One pass of the loop of [_contextual_refinement] over a keyword. *)
Definition refine_keyword (current_score : PyDict.t) (keyword : Keyword) : Keyword :=
  let relevance := match kw_relevance_score keyword with Some r => r | None => 0.5 end in
  let text :=
    PyStr.lower (match kw_keyword keyword with Some k => k | None => "" end) in
  let relevance :=
    if PyNum.ltb (PyDict.get current_score "readability" 70) 60
    then (if any_term ["simple"; "clear"; "easy"] text
          then relevance * 1.3 else relevance)
    else relevance in
  let relevance :=
    if PyNum.ltb (PyDict.get current_score "seo" 70) 60
    then (if any_term ["keyword"; "search"; "optimize"] text
          then relevance * 1.2 else relevance)
    else relevance in
  {| kw_keyword := kw_keyword keyword;
     kw_relevance_score := Some (PyNum.min 1 relevance);
     kw_context := kw_context keyword |}.

(** [x.get('relevance_score', 0)] *)
Definition sort_key (x : Keyword) : Q :=
  match kw_relevance_score x with Some r => r | None => 0 end.

(** [l.sort(key=..., reverse=True)]: descending and stable, equal keys
    keep the order they had. *)
Fixpoint insert_desc (x : Keyword) (l : list Keyword) : list Keyword :=
  match l with
  | [] => [x]
  | y :: l' =>
      if Qle_bool (sort_key y) (sort_key x) then x :: l else y :: insert_desc x l'
  end.

Fixpoint sort_desc (l : list Keyword) : list Keyword :=
  match l with
  | [] => []
  | x :: l' => insert_desc x (sort_desc l')
  end.

(** The list returned by [_contextual_refinement].  The keyword
    dictionaries are updated in place, so they are assumed to be
    distinct objects. *)
Definition _contextual_refinement (keywords : list Keyword) (content : string)
           (cursor_position : Z) (current_score : PyDict.t) : list Keyword :=
  let refined_keywords := map (refine_keyword current_score) keywords in
  firstn 10 (sort_desc refined_keywords).

Definition _calculate_average_score (score_history : list RealtimeScore) : Q :=
  match score_history with
  | [] => 0
  | _ =>
      let total := PyNum.sum (map overall_score score_history) in
      total / PyNum.of_nat (List.length score_history)
  end.

(** *** The nodes and entry points that call a collaborator *)
Section Collaborators.

(** [llm_service.recommend_keywords(draft, cursor_context, user_profile)]:
    the outcome of the call numbered [n] (from 0) that the language
    model service receives. *)
Variable recommend_keywords :
  nat -> string -> string -> option UserProfile -> exn + Analysis.

(** The regular-expression engine behind the scoring service. *)
Variable re : Re.engine.

(** [self.workflow.ainvoke(initial_state, config)]: the compiled
    LangGraph workflow, an external library. *)
Variable ainvoke : AgentState -> exn + AgentState.

(** [_analyze_draft_node]; the second component counts the calls the
    language model service has received so far. *)
Definition _analyze_draft_node (now : Time) (state : AgentState) (llm_calls : nat)
  : AgentState * nat :=
  match recommend_keywords llm_calls
                           (current_draft state)
                           (_get_cursor_context (current_draft state)
                                                (cursor_position state))
                           (user_profile state) with
  | inr analysis =>
      (set_analysis_history state
         (analysis_history state
          ++ [ {| timestamp := now; analysis := analysis;
                  draft_length := Some (Z.of_nat (String.length (current_draft state)));
                  weak_sections := None |} ]),
       S llm_calls)
  | inl _ => (state, S llm_calls)
  end.

Definition _score_content_node (now : Time) (state : AgentState) : AgentState :=
  match Scoring.calculate_comprehensive_score
          re (current_draft state) (user_profile state) now with
  | inr score_result =>
      set_current_score state (Scoring.result_breakdown score_result)
  | inl _ => state
  end.

(** [class AgentSession(BaseModel)]; an entry of [suggestion_history]
    is a final response, or [None] for the empty dictionary. *)
Record AgentSession : Type := {
  as_session_id : string;
  as_user_profile : UserProfile;
  as_current_draft : string;
  suggestion_history : list (option FinalResponse);
  score_history : list RealtimeScore;
  created_at : Time;
  as_last_updated : Time;
  is_active : bool
}.

(** The summary returned by [end_session] *)
Record Summary : Type := {
  session_duration : Q;
  total_suggestions : nat;
  final_draft_length : nat;
  average_score : Q
}.

(** [raise ValueError(f"Session {session_id} not found")] *)
Definition SessionNotFound (session_id : string) : exn :=
  ValueError ("Session " +:+ session_id +:+ " not found").

(** [start_session]; [fresh_id] is the value of [str(uuid.uuid4())]. *)
Definition start_session (now : Time) (fresh_id : string)
           (active_sessions : gmap string AgentSession) (user_profile : UserProfile)
  : string * gmap string AgentSession :=
  let session :=
    {| as_session_id := fresh_id; as_user_profile := user_profile;
       as_current_draft := ""; suggestion_history := []; score_history := [];
       created_at := now; as_last_updated := now; is_active := true |} in
  (fresh_id, <[fresh_id := session]> active_sessions).

Definition update_draft (now : Time) (active_sessions : gmap string AgentSession)
           (session_id : string) (draft_text : string) (cursor_position : option Z)
  : (exn + option FinalResponse) * gmap string AgentSession :=
  match active_sessions !! session_id with
  | None => (inl (SessionNotFound session_id), active_sessions)
  | Some session =>
      let session :=
        {| as_session_id := as_session_id session;
           as_user_profile := as_user_profile session;
           as_current_draft := draft_text;
           suggestion_history := suggestion_history session;
           score_history := score_history session;
           created_at := created_at session;
           as_last_updated := now;
           is_active := is_active session |} in
      let active_sessions := <[session_id := session]> active_sessions in
      let initial_state :=
        {| Agent.session_id := session_id;
           user_profile := Some (as_user_profile session);
           current_draft := draft_text;
           Agent.cursor_position :=
             match cursor_position with Some c => c | None => 0%Z end;
           previous_suggestions := [];
           analysis_history := [];
           current_score := [];
           iteration_count := Some 0%Z;
           last_updated := now;
           final_response := None |} in
      match ainvoke initial_state with
      | inl e => (inl e, active_sessions)
      | inr final_state =>
          let response := final_response final_state in
          let session :=
            {| as_session_id := as_session_id session;
               as_user_profile := as_user_profile session;
               as_current_draft := as_current_draft session;
               suggestion_history := suggestion_history session ++ [response];
               score_history := score_history session;
               created_at := created_at session;
               as_last_updated := as_last_updated session;
               is_active := is_active session |} in
          (inr response, <[session_id := session]> active_sessions)
      end
  end.

Definition end_session (now : Time) (active_sessions : gmap string AgentSession)
           (session_id : string)
  : (exn + Summary) * gmap string AgentSession :=
  match active_sessions !! session_id with
  | None => (inl (SessionNotFound session_id), active_sessions)
  | Some session =>
      let summary :=
        {| session_duration := now - created_at session;
           total_suggestions := List.length (suggestion_history session);
           final_draft_length := String.length (as_current_draft session);
           average_score := _calculate_average_score (score_history session) |} in
      (inr summary, delete session_id active_sessions)
  end.

End Collaborators.

End Agent.

(** ** [backend/services/agent_service.py]: historical patterns, the
    batch analysis and the last node of the workflow *)
Module Learning.
Import Models Agent.
Local Open Scope Q_scope.

(** [class KeywordSuggestion(BaseModel)] and [class KeyTopic(BaseModel)]
    of [models.py], as [llm_service] builds them. *)
Record KeywordSuggestion : Type := {
  ks_keyword : string;
  ks_relevance_score : Q;
  ks_context : string;
  ks_semantic_similarity : Q
}.

Record KeyTopic : Type := {
  kt_topic : string;
  kt_relevance_score : Q;
  kt_frequency : Z
}.

(** [class BlogPost(BaseModel)]: only [content] is read. *)
Record BlogPost : Type := {
  bp_title : option string;
  bp_content : string
}.

(** The dictionary returned by [llm_service.analyze_blog_post];
    [ba_sentiment] is the [sentiment] attribute of its sentiment object,
    [None] when the dictionary has no sentiment. *)
Record BlogAnalysis : Type := {
  ba_sentiment : option string;
  ba_key_topics : list KeyTopic;
  ba_keyword_suggestions : list KeywordSuggestion;
  ba_readability_score : Q;
  ba_word_count : nat
}.

(** One stored pattern *)
Record Pattern : Type := {
  pt_timestamp : Time;
  pt_content_length : nat;
  pt_successful_keywords : list string;
  pt_readability_score : Q;
  pt_topics : list string;
  pt_sentiment : string
}.

(** [l[-n:]] for a positive [n] *)
Definition last_n {A : Type} (n : nat) (l : list A) : list A :=
  skipn (List.length l - n) l.

Definition _get_historical_context
           (historical_patterns : gmap string (list Pattern))
           (user_profile : option UserProfile) : list Pattern :=
  let user_id :=
    match user_profile with Some profile => user_id profile | None => "default" end in
  match historical_patterns !! user_id with
  | Some patterns => patterns
  | None => []
  end.

(** The body of the inner loop of [_apply_historical_learning] for one
    keyword and one stored pattern. *)
Definition learn_from (keyword : Keyword) (historical : Pattern) : Keyword :=
  let listed :=
    match kw_keyword keyword with
    | Some k => Scoring.mem k (pt_successful_keywords historical)
    | None => false
    end in
  if listed then
    {| kw_keyword := kw_keyword keyword;
       kw_relevance_score :=
         Some (PyNum.min 1
                 ((match kw_relevance_score keyword with Some r => r | None => 0.5 end)
                  * 1.2));
       kw_context := kw_context keyword |}
  else keyword.

Definition _apply_historical_learning
           (keywords : list Keyword) (historical_context : list Pattern) : list Keyword :=
  match historical_context with
  | [] => keywords
  | _ => map (fun keyword => fold_left learn_from historical_context keyword) keywords
  end.

Definition _store_analysis_pattern
           (now : Time) (historical_patterns : gmap string (list Pattern))
           (blog_post : BlogPost) (analysis : BlogAnalysis)
  : gmap string (list Pattern) :=
  let successful_keywords :=
    map ks_keyword
        (List.filter (fun kw => PyNum.gtb (ks_relevance_score kw) 0.7)
                     (ba_keyword_suggestions analysis)) in
  let pattern :=
    {| pt_timestamp := now;
       pt_content_length := String.length (bp_content blog_post);
       pt_successful_keywords := successful_keywords;
       pt_readability_score := ba_readability_score analysis;
       pt_topics := map kt_topic (ba_key_topics analysis);
       pt_sentiment :=
         match ba_sentiment analysis with Some s => s | None => "neutral" end |} in
  let user_key := "general" in
  let historical_patterns :=
    match historical_patterns !! user_key with
    | Some _ => historical_patterns
    | None => <[user_key := []]> historical_patterns
    end in
  let stored :=
    match historical_patterns !! user_key with Some l => l | None => [] end
    ++ [pattern] in
  <[user_key := last_n 100 stored]> historical_patterns.

(** What a batch analysis touches: the stored patterns and the number of
    calls the language-model service has received. *)
Record World : Type := {
  historical_patterns : gmap string (list Pattern);
  llm_calls : nat
}.

(** [BlogAnalysisResult( **analysis )]: the nested objects were validated
    when they were built; of the scalar fields only [readability_score]
    is constrained ([ge=0.0, le=100.0]). *)
Definition BlogAnalysisResult_new (analysis : BlogAnalysis) : exn + BlogAnalysis :=
  if field_ok (ba_readability_score analysis) then inr analysis
  else inl (ValidationError "BlogAnalysisResult").

Section Batch.

(** [llm_service.analyze_blog_post(blog_post)]: the outcome of the call
    numbered [n] that the service receives. *)
Variable analyze_blog_post : nat -> BlogPost -> exn + BlogAnalysis.

(** The loop of [analyze_blog_posts] over the posts still to analyse;
    an exception leaves the loop with the patterns stored so far.
    [now n] is the time at which the pattern of call [n] is stamped. *)
Fixpoint analyze_loop (now : nat -> Time) (blog_posts : list BlogPost)
         (results : list BlogAnalysis) (w : World)
  : (exn + list BlogAnalysis) * World :=
  match blog_posts with
  | [] => (inr results, w)
  | blog_post :: rest =>
      let w1 := {| historical_patterns := historical_patterns w;
                   llm_calls := S (llm_calls w) |} in
      match analyze_blog_post (llm_calls w) blog_post with
      | inl e => (inl e, w1)
      | inr analysis =>
          match BlogAnalysisResult_new analysis with
          | inl e => (inl e, w1)
          | inr result =>
              analyze_loop now rest (results ++ [result])
                {| historical_patterns :=
                     _store_analysis_pattern (now (llm_calls w)) (historical_patterns w1)
                                             blog_post analysis;
                   llm_calls := llm_calls w1 |}
          end
      end
  end.

Definition analyze_blog_posts (now : nat -> Time) (blog_posts : list BlogPost) (w : World)
  : (exn + list BlogAnalysis) * World :=
  analyze_loop now blog_posts [] w.

End Batch.

(** [_finalize_response_node].  Reading [state['iteration_count']] for
    the context line raises [KeyError] when the key is missing, before
    anything is assigned, and the handler returns the state as it is. *)
Definition _finalize_response_node (now : Time) (state : AgentState) : AgentState :=
  match iteration_count state with
  | None => state
  | Some count =>
      let latest_analysis := from_end (analysis_history state) 1 in
      let latest_suggestions := from_end (previous_suggestions state) 1 in
      let response :=
        {| fr_keywords :=
             match latest_suggestions with
             | Some s => match sg_refined_keywords s with Some l => l | None => [] end
             | None => []
             end;
           fr_realtime_score := current_score state;
           fr_weak_sections :=
             match latest_analysis with
             | Some e => match weak_sections e with Some l => l | None => [] end
             | None => []
             end;
           fr_suggestions_context := "Analysis iteration " +:+ pretty count;
           fr_timestamp := now |} in
      {| session_id := session_id state; user_profile := user_profile state;
         current_draft := current_draft state; cursor_position := cursor_position state;
         previous_suggestions := previous_suggestions state;
         analysis_history := analysis_history state;
         current_score := current_score state;
         iteration_count := Some (count + 1)%Z;
         last_updated := now;
         final_response := Some response |}
  end.

(** The two counters of [get_status] *)
Definition active_session_count (active_sessions : gmap string AgentSession) : nat :=
  size active_sessions.

Definition total_patterns_stored (historical_patterns : gmap string (list Pattern)) : nat :=
  map_fold (fun _ patterns total => (total + List.length patterns)%nat) 0%nat
           historical_patterns.

End Learning.

(** ** [backend/services/llm_service.py]: repair of truncated output and
    the length budget of prompts *)
Module Repair.
Local Open Scope Q_scope.

(** [s * n] for a string [s] *)
Fixpoint repeat_string (s : string) (n : nat) : string :=
  match n with
  | O => EmptyString
  | S n' => s +:+ repeat_string s n'
  end.

(** [s.rstrip(',')]: without its trailing commas *)
Fixpoint rstrip_commas (s : string) : string :=
  match s with
  | EmptyString => EmptyString
  | String c s' =>
      let r := rstrip_commas s' in
      if Ascii.eqb c ","%char && PyStr.is_empty r then EmptyString else String c r
  end.

(** [s.rfind(t)] for a single character: the index of its last
    occurrence, [-1] when there is none. *)
Fixpoint rfind_char_from (c : ascii) (s : string) (i : nat) (found : Z) : Z :=
  match s with
  | EmptyString => found
  | String c' s' =>
      rfind_char_from c s' (S i) (if Ascii.eqb c' c then Z.of_nat i else found)
  end.

Definition rfind_char (s : string) (c : ascii) : Z := rfind_char_from c s 0 (-1)%Z.

Section WithJson.

(** [json.loads(text)] succeeds. *)
Variable json_loads_ok : string -> bool.

Definition _fix_truncated_json (text : string) : string :=
  if PyStr.is_empty (PyStr.strip text) then text
  else if json_loads_ok text then text
  else
    let open_braces := PyStr.count text "{" in
    let close_braces := PyStr.count text "}" in
    let open_brackets := PyStr.count text "[" in
    let close_brackets := PyStr.count text "]" in
    let fixed_text := text in
    let fixed_text :=
      if (close_braces <? open_braces)%nat
      then fixed_text +:+ repeat_string "}" (open_braces - close_braces)
      else fixed_text in
    let fixed_text :=
      if (close_brackets <? open_brackets)%nat
      then fixed_text +:+ repeat_string "]" (open_brackets - close_brackets)
      else fixed_text in
    rstrip_commas (PyStr.rstrip fixed_text).

End WithJson.

Section WithTokenizer.

(** [self.count_tokens(text)]: the tokenizer's count, or 1.3 times the
    number of words when no tokenizer is loaded. *)
Variable count_tokens : string -> Q.

(** [int(x)]: truncation toward zero *)
Definition int_of (x : Q) : Z := Z.quot (Qnum x) (Z.pos (Qden x)).

(** [None] is the [ZeroDivisionError] of [len(content) / current_tokens]
    for a count of 0 that exceeds a negative budget. *)
Definition _optimize_content_length (content : string) (max_tokens : Z)
  : option string :=
  if PyStr.is_empty content then Some content
  else
    let current_tokens := count_tokens content in
    if Qle_bool current_tokens (inject_Z max_tokens) then Some content
    else if Qeq_bool current_tokens 0 then None
    else
      let char_per_token := PyNum.of_nat (String.length content) / current_tokens in
      let target_chars := int_of (inject_Z max_tokens * char_per_token * 0.9) in
      if (target_chars <? Z.of_nat (String.length content))%Z then
        let truncated := PyStr.slice content 0 target_chars in
        let last_space := rfind_char truncated " "%char in
        if PyNum.gtb (inject_Z last_space) (inject_Z target_chars * 0.8)
        then Some (PyStr.slice truncated 0 last_space +:+ "...")
        else Some (truncated +:+ "...")
      else Some content.

End WithTokenizer.

(** [count_tokens] without a tokenizer: [len(text.split()) * 1.3] *)
Definition count_tokens_fallback (text : string) : Q :=
  PyNum.of_nat (List.length (PyStr.split_ws text)) * 1.3.

End Repair.

(** ** [backend/main.py]: the batch-analysis endpoint *)
Module Main.
Import Models Learning.
Local Open Scope Q_scope.

(** Where the exception caught by the endpoint's handler came from:
    [verify_token], the [RetryError] of the retry executor (with its
    [last_exception]), or an exception the executor let through. *)
Inductive caught : Type :=
| FromVerifyToken (e : exn)
| FromRetry (last_exception : option exn)
| FromAnalysis (e : exn).

(** [HTTPException(status_code=500, detail=f"Analysis failed: {str(e)}")] *)
Record HTTPException : Type := {
  status_code : Z;
  detail : caught
}.

(** [BlogAnalysisResponse(results=..., total_posts_analyzed=..., timestamp=...)] *)
Record BlogAnalysisResponse : Type := {
  results : list BlogAnalysis;
  total_posts_analyzed : nat
}.

(** The keyword arguments of the endpoint's call of the executor:
    [max_retries=3], the others at their defaults. *)
Definition retry_options : Retry.options exn :=
  {| Retry.max_retries := 3; Retry.base_delay := 1; Retry.max_delay := 60;
     Retry.exponential_base := 2; Retry.jitter := true;
     Retry.retry_exceptions := fun _ => true |}.

Section AnalyzeBlogs.

(** [utils.auth.verify_token(token)] *)
Variable verify_token : string -> exn + unit.
Variable analyze_blog_post : nat -> BlogPost -> exn + BlogAnalysis.
Variable now : nat -> Time.
Variable random : nat -> Q.

(** The orchestrator as the attempt numbered [attempt] finds it: every
    attempt awaits [analyze_blog_posts] on the same orchestrator. *)
Fixpoint world_before (blog_posts : list BlogPost) (w : World) (attempt : nat) : World :=
  match attempt with
  | O => w
  | S earlier =>
      snd (analyze_blog_posts analyze_blog_post now blog_posts
                              (world_before blog_posts w earlier))
  end.

(** What the attempt numbered [attempt] does *)
Definition attempt_outcome (blog_posts : list BlogPost) (w : World) (attempt : nat)
  : Retry.outcome (list BlogAnalysis) exn :=
  match fst (analyze_blog_posts analyze_blog_post now blog_posts
                                (world_before blog_posts w attempt)) with
  | inr results => Retry.Success results
  | inl e => Retry.Failure e
  end.

(** The endpoint [analyze_blogs] on a request that passed validation;
    with the response it gives what the executor did and the
    orchestrator it leaves. *)
Definition analyze_blogs (token : string) (blog_posts : list BlogPost) (w : World)
  : (HTTPException + BlogAnalysisResponse) * Retry.effects * World :=
  match verify_token token with
  | inl e =>
      (inl {| status_code := 500; detail := FromVerifyToken e |},
       {| Retry.calls := 0; Retry.sleeps := [] |}, w)
  | inr _ =>
      let run :=
        Retry.retry_with_exponential_backoff
          (attempt_outcome blog_posts w) random retry_options in
      let w' := world_before blog_posts w (Retry.calls (snd run)) in
      match fst run with
      | Retry.Returned analysis_results =>
          (inr {| results := analysis_results;
                  total_posts_analyzed := List.length blog_posts |},
           snd run, w')
      | Retry.RetryError last_exception =>
          (inl {| status_code := 500; detail := FromRetry last_exception |},
           snd run, w')
      | Retry.Propagated e =>
          (inl {| status_code := 500; detail := FromAnalysis e |}, snd run, w')
      end
  end.

End AnalyzeBlogs.

End Main.

(* ================================================================== *)
(** * Part II: properties                                              *)
(* ================================================================== *)

(** ** Facts about the numeric primitives *)
Module PyNumFacts.
Local Open Scope Q_scope.

Lemma gtb_true (x y : Q) : PyNum.gtb x y = true <-> y < x.
Proof.
  unfold PyNum.gtb. rewrite negb_true_iff.
  split; intros H.
  - apply Qnot_le_lt. intros Hle. apply Qle_bool_iff in Hle. congruence.
  - destruct (Qle_bool x y) eqn:E; [|reflexivity].
    apply Qle_bool_iff in E. exfalso. exact (Qlt_not_le _ _ H E).
Qed.

Lemma gtb_false (x y : Q) : PyNum.gtb x y = false <-> x <= y.
Proof.
  unfold PyNum.gtb. rewrite negb_false_iff. apply Qle_bool_iff.
Qed.

Lemma ltb_true (x y : Q) : PyNum.ltb x y = true <-> x < y.
Proof. unfold PyNum.ltb. apply (gtb_true y x). Qed.

Lemma ltb_false (x y : Q) : PyNum.ltb x y = false <-> y <= x.
Proof. unfold PyNum.ltb. apply (gtb_false y x). Qed.

(** A ratio of integers exceeds one fifth exactly when five times the
    numerator exceeds the denominator. *)
Lemma ratio_gt_fifth (a b : Z) :
  (1 <= b)%Z ->
  PyNum.gtb (inject_Z a / inject_Z b) 0.2 = true <-> (b < 5 * a)%Z.
Proof.
  intros Hb. rewrite gtb_true.
  destruct b as [|p|p]; try lia.
  unfold Qlt, Qdiv, Qmult, Qinv, inject_Z. cbn.
  lia.
Qed.

End PyNumFacts.

(** ** The loop decision of the workflow *)
Module LoopDecision.
Import Models Agent.

(** [state.get('iteration_count', 0)] *)
Definition iterations (state : AgentState) : Z :=
  match iteration_count state with Some n => n | None => 0%Z end.

(** [entry.get('draft_length', 0)] *)
Definition recorded_length (entry : AnalysisEntry) : Z :=
  match draft_length entry with Some n => n | None => 0%Z end.

Lemma from_end_second {A : Type} (older : list A) (x y : A) :
  from_end (older ++ [x; y]) 2 = Some x.
Proof.
  unfold from_end. rewrite rev_app_distr. reflexivity.
Qed.

Lemma two_last {A : Type} (l : list A) :
  (2 <= List.length l)%nat -> exists older x y, l = older ++ [x; y].
Proof.
  intros H.
  destruct (rev l) as [|y [|x r]] eqn:E.
  - apply (f_equal (@List.length A)) in E. rewrite length_rev in E. simpl in E. lia.
  - apply (f_equal (@List.length A)) in E. rewrite length_rev in E. simpl in E. lia.
  - exists (rev r), x, y.
    rewrite <- (rev_involutive l), E. simpl. rewrite <- app_assoc. reflexivity.
Qed.

Lemma changed_iff (state : AgentState) :
  _content_changed_significantly state = true <->
  exists older entry latest,
    analysis_history state = older ++ [entry; latest] /\
    (recorded_length entry
     < 5 * Z.abs (Z.of_nat (String.length (current_draft state)) - recorded_length entry))%Z.
Proof.
  unfold _content_changed_significantly.
  destruct (Nat.ltb_spec (List.length (analysis_history state)) 2) as [Hlt|Hge].
  - split; [discriminate|].
    intros (older & entry & latest & Heq & _).
    rewrite Heq, length_app in Hlt. simpl in Hlt. lia.
  - destruct (two_last _ Hge) as (older & entry & latest & Heq).
    rewrite Heq, from_end_second. fold (recorded_length entry).
    set (cur := Z.of_nat (String.length (current_draft state))).
    set (prev := recorded_length entry).
    assert (Hcore :
              PyNum.gtb (inject_Z (Z.abs (cur - prev)) / inject_Z (Z.max prev 1)) 0.2 = true
              <-> (prev < 5 * Z.abs (cur - prev))%Z).
    { rewrite PyNumFacts.ratio_gt_fifth by lia.
      assert (0 <= cur)%Z by (unfold cur; lia). lia. }
    rewrite Hcore. split.
    + intros H. exists older, entry, latest. split; [reflexivity | exact H].
    + intros (older' & entry' & latest' & Heq' & H).
      pose proof Heq' as E.
      change (older ++ [entry; latest]) with (older ++ [entry] ++ [latest]) in E.
      change (older' ++ [entry'; latest']) with (older' ++ [entry'] ++ [latest']) in E.
      rewrite !app_assoc in E.
      apply app_inj_tail in E. destruct E as [E _].
      apply app_inj_tail in E. destruct E as [_ E]. subst entry'. exact H.
Qed.

(** C2. The loop decision answers ["continue"] exactly when fewer than
    two iterations were counted and the analysis history ends with two
    entries whose first (the previous analysis) recorded a draft length
    from which the current draft's length differs by more than 20%
    (five times the difference exceeds the recorded length); in every
    other case, in particular with fewer than two history entries, it
    answers ["end"]. *)
Theorem should_iterate_spec (state : AgentState) :
  (_should_iterate state = "continue" <->
     (iterations state < 2)%Z /\
     exists older entry latest,
       analysis_history state = older ++ [entry; latest] /\
       (recorded_length entry
        < 5 * Z.abs (Z.of_nat (String.length (current_draft state))
                     - recorded_length entry))%Z)
  /\ (_should_iterate state = "continue" \/ _should_iterate state = "end")
  /\ ((List.length (analysis_history state) < 2)%nat -> _should_iterate state = "end").
Proof.
  unfold _should_iterate. fold (iterations state).
  pose proof (changed_iff state) as Hc.
  destruct (Z.ltb_spec (iterations state) 2) as [Hi|Hi];
    destruct (_content_changed_significantly state) eqn:Hch; simpl.
  - repeat split; auto.
    + apply Hc. reflexivity.
    + intros Hlen. apply proj1 in Hc. destruct (Hc eq_refl) as (o & e & l & Heq & _).
      rewrite Heq, length_app in Hlen. simpl in Hlen. lia.
  - repeat split; auto; try discriminate.
    intros [_ H]. apply Hc in H. discriminate.
  - repeat split; auto; try discriminate. intros [H _]. lia.
  - repeat split; auto; try discriminate. intros [H _]. lia.
Qed.

End LoopDecision.

(** ** Facts about the string primitives *)
Module PyStrFacts.
#[local] Arguments String.append _ _ : simpl nomatch.
#[local] Arguments String.prefix _ _ : simpl never.

(** [t] occurs in [s] at offset [k]. *)
Definition occurs_at (s t : string) (k : nat) : Prop :=
  exists pre post, s = pre +:+ t +:+ post /\ String.length pre = k.

(** [k] is the offset of the first occurrence of [t] in [s]. *)
Definition first_occurrence (s t : string) (k : nat) : Prop :=
  occurs_at s t k /\ forall j, (j < k)%nat -> ~ occurs_at s t j.

Lemma app_nil_r (s : string) : s +:+ "" = s.
Proof. induction s as [|c s IH]; simpl; [reflexivity | now rewrite IH]. Qed.

Lemma app_assoc (a b c : string) : (a +:+ b) +:+ c = a +:+ (b +:+ c).
Proof. induction a as [|x a IH]; simpl; [reflexivity | now rewrite IH]. Qed.

Lemma length_app (a b : string) :
  String.length (a +:+ b) = (String.length a + String.length b)%nat.
Proof. induction a as [|x a IH]; simpl; [reflexivity | now rewrite IH]. Qed.

Lemma prefix_nil (s : string) : String.prefix "" s = true.
Proof. destruct s; reflexivity. Qed.

Lemma prefix_cons_nil (c : ascii) (t : string) : String.prefix (String c t) "" = false.
Proof. reflexivity. Qed.

Lemma prefix_cons (c d : ascii) (t s : string) :
  String.prefix (String c t) (String d s)
  = if ascii_dec c d then String.prefix t s else false.
Proof. reflexivity. Qed.

Lemma prefix_iff (t s : string) :
  String.prefix t s = true <-> exists post, s = t +:+ post.
Proof.
  revert s. induction t as [|c t IH]; intros s.
  - rewrite prefix_nil. split; [intros _; exists s; reflexivity | reflexivity].
  - destruct s as [|d s].
    + rewrite prefix_cons_nil. split; [discriminate | intros [post H]; discriminate].
    + rewrite prefix_cons. destruct (ascii_dec c d) as [->|Hne].
      * rewrite IH. split; intros [post H]; exists post.
        -- simpl. now rewrite H.
        -- simpl in H. now injection H.
      * split; [discriminate | intros [post H]; simpl in H; injection H; intros; congruence].
Qed.

Lemma occurs_at_0 (s t : string) : occurs_at s t 0 <-> String.prefix t s = true.
Proof.
  rewrite prefix_iff. split.
  - intros (pre & post & Hs & Hlen). destruct pre; [|discriminate].
    exists post. exact Hs.
  - intros [post Hs]. exists "", post. split; [exact Hs | reflexivity].
Qed.

Lemma occurs_at_S (c : ascii) (s t : string) (k : nat) :
  occurs_at (String c s) t (S k) <-> occurs_at s t k.
Proof.
  split.
  - intros (pre & post & Hs & Hlen). destruct pre as [|d pre]; [discriminate|].
    simpl in Hs, Hlen. injection Hs as _ Hs. exists pre, post. split; [exact Hs | lia].
  - intros (pre & post & Hs & Hlen). exists (String c pre), post.
    simpl. split; [now rewrite Hs | lia].
Qed.

Lemma occurs_at_empty (t : string) (k : nat) : occurs_at "" t k -> k = 0%nat.
Proof.
  intros (pre & post & Hs & Hlen). destruct pre; [simpl in Hlen; lia | discriminate].
Qed.

(** [find_from] returns [-1] when there is no occurrence, and otherwise
    the offset of the first one, shifted by the starting index. *)
Lemma find_from_spec (t s : string) (i : nat) :
  (PyStr.find_from t s i = (-1)%Z /\ forall k, ~ occurs_at s t k)
  \/ (exists k, PyStr.find_from t s i = Z.of_nat (i + k) /\ first_occurrence s t k).
Proof.
  revert i. induction s as [|c s IH]; intros i.
  - cbn [PyStr.find_from]. destruct (String.prefix t "") eqn:Hp.
    + right. exists 0%nat. split; [f_equal; lia|].
      split; [now apply occurs_at_0 | intros j Hj; lia].
    + left. split; [reflexivity|].
      intros k Hk. pose proof (occurs_at_empty _ _ Hk) as ->.
      apply occurs_at_0 in Hk. congruence.
  - cbn [PyStr.find_from]. destruct (String.prefix t (String c s)) eqn:Hp.
    + right. exists 0%nat. split; [f_equal; lia|].
      split; [now apply occurs_at_0 | intros j Hj; lia].
    + destruct (IH (S i)) as [[Hf Hno] | (k & Hf & Hocc & Hmin)].
      * left. split; [exact Hf|].
        intros [|k] Hk.
        -- apply occurs_at_0 in Hk. congruence.
        -- apply occurs_at_S in Hk. exact (Hno k Hk).
      * right. exists (S k). split; [rewrite Hf; f_equal; lia|].
        split; [now apply occurs_at_S|].
        intros [|j] Hj Hk.
        -- apply occurs_at_0 in Hk. congruence.
        -- apply occurs_at_S in Hk. apply (Hmin j); [lia | exact Hk].
Qed.

(** A substring is found, at its first occurrence. *)
Lemma find_first (s t : string) (k : nat) :
  occurs_at s t k ->
  exists k0, PyStr.find s t = Z.of_nat k0 /\ first_occurrence s t k0.
Proof.
  intros Hocc. unfold PyStr.find.
  destruct (find_from_spec t s 0) as [[_ Hno] | (k0 & Hf & Hfirst)].
  - exfalso. exact (Hno k Hocc).
  - exists k0. split; [exact Hf | exact Hfirst].
Qed.

(** [drop n s]: [s] without its first [n] characters. *)
Fixpoint drop (n : nat) (s : string) : string :=
  match n, s with
  | O, _ => s
  | S n', String _ s' => drop n' s'
  | S _, EmptyString => EmptyString
  end.

Lemma drop_app (a b : string) : drop (String.length a) (a +:+ b) = b.
Proof. induction a as [|c a IH]; simpl; [reflexivity | exact IH]. Qed.

Lemma split_go_nonempty (sep : string) (skip : nat) (cur s : string) :
  PyStr.split_go sep skip cur s <> [].
Proof.
  revert skip cur. induction s as [|c s IH]; intros skip cur; simpl.
  - discriminate.
  - destruct skip; [|apply IH].
    destruct (String.prefix sep (String c s)); [discriminate | apply IH].
Qed.

Lemma join_cons (sep x : string) (l : list string) :
  l <> [] -> PyStr.join sep (x :: l) = x +:+ sep +:+ PyStr.join sep l.
Proof. destruct l; [congruence | reflexivity]. Qed.

(** Joining what the scan produced gives back the collected segment
    followed by what was left to scan. *)
Lemma join_split_go (sep : string) (s : string) :
  sep <> "" ->
  forall skip cur,
    (skip <= String.length s)%nat ->
    PyStr.join sep (PyStr.split_go sep skip cur s) = cur +:+ drop skip s.
Proof.
  intros Hsep. induction s as [|c s IH]; intros skip cur Hskip.
  - simpl in *. assert (skip = 0%nat) as -> by lia.
    simpl. now rewrite app_nil_r.
  - cbn [PyStr.split_go]. destruct skip as [|k].
    + destruct (String.prefix sep (String c s)) eqn:Hp.
      * apply prefix_iff in Hp. destruct Hp as [post Hpost].
        destruct sep as [|d sep']; [congruence|].
        simpl in Hpost. injection Hpost as -> Hs.
        rewrite join_cons by apply split_go_nonempty.
        rewrite IH.
        -- cbn [String.length]. rewrite Nat.sub_succ, Nat.sub_0_r.
           rewrite Hs, drop_app. reflexivity.
        -- cbn [String.length]. rewrite Hs, length_app. lia.
      * rewrite IH by lia. rewrite app_assoc. reflexivity.
    + simpl in Hskip. rewrite IH by lia. reflexivity.
Qed.

(** Splitting on a non-empty separator and joining with it is the
    identity. *)
Lemma join_split (s sep : string) :
  sep <> "" -> PyStr.join sep (PyStr.split s sep) = s.
Proof.
  intros Hsep. unfold PyStr.split.
  rewrite join_split_go by (auto; lia). reflexivity.
Qed.

(** Every element of a list occurs in the joined string. *)
Lemma in_join_occurs (sep x : string) (l : list string) :
  In x l -> exists k, occurs_at (PyStr.join sep l) x k.
Proof.
  induction l as [|y l IH]; intros Hin; [contradiction|].
  destruct l as [|z l].
  - destruct Hin as [->|[]]. exists 0%nat, "", "".
    simpl. rewrite app_nil_r. split; reflexivity.
  - rewrite join_cons by discriminate.
    destruct Hin as [->|Hin].
    + exists 0%nat, "", (sep +:+ PyStr.join sep (z :: l)). split; reflexivity.
    + destruct (IH Hin) as (k & pre & post & Hs & Hlen).
      exists (String.length (y +:+ sep +:+ pre)), (y +:+ sep +:+ pre), post.
      split; [|reflexivity].
      rewrite Hs. rewrite !app_assoc. reflexivity.
Qed.

(** Every segment produced by [split] occurs in the string. *)
Lemma split_segment_occurs (s sep x : string) :
  sep <> "" -> In x (PyStr.split s sep) -> exists k, occurs_at s x k.
Proof.
  intros Hsep Hin.
  destruct (in_join_occurs sep x _ Hin) as [k Hk].
  rewrite join_split in Hk by exact Hsep. exists k. exact Hk.
Qed.

End PyStrFacts.

(** ** The weak sections reported for a draft *)
Module Weaknesses.
Import Models Agent PyStrFacts.

(** The weak section [w] reports the segment [segment] of [content]:
    the fixed issue type, severity and confidence, the offset of the
    first occurrence of the segment as start and the start plus the
    length of the segment as end. *)
Definition reports (content segment : string) (w : WeakSection) : Prop :=
  issue_type w = "sentence_too_short"
  /\ severity w = "medium"
  /\ confidence w = 0.7%Q
  /\ (exists k, start_position w = Z.of_nat k /\ first_occurrence content segment k)
  /\ end_position w = (start_position w + Z.of_nat (String.length segment))%Z.

(** "Shorter than 10 characters" *)
Definition short (segment : string) : bool := (String.length segment <? 10)%nat.

Lemma Forall2_map_r {A B : Type} (R : A -> B -> Prop) (f : A -> B) (l : list A) :
  List.Forall (fun x => R x (f x)) l -> List.Forall2 R l (map f l).
Proof.
  induction 1; simpl; constructor; assumption.
Qed.

Lemma update_last_snoc {A : Type} (f : A -> A) (l : list A) (x : A) :
  update_last f (l ++ [x]) = l ++ [f x].
Proof.
  unfold update_last. rewrite rev_app_distr. simpl. now rewrite rev_involutive.
Qed.

(** C7. The segments are those of the draft split on [". "] (joining
    them with [". "] gives the draft back); the weak sections are, in
    order, one per segment shorter than 10 characters and none for the
    others, each of type [sentence_too_short], severity [medium],
    confidence 0.7, starting at the first occurrence of its segment in the
    draft and ending at the start plus the segment's length; the stage
    stores them in the latest analysis-history entry. *)
Theorem identify_weaknesses_spec (content : string) :
  let segments := PyStr.split content ". " in
  PyStr.join ". " segments = content
  /\ List.Forall2 (reports content) (List.filter short segments) (find_weak_sections content)
  /\ forall state older latest,
       current_draft state = content ->
       analysis_history state = older ++ [latest] ->
       exists latest',
         analysis_history (_identify_weaknesses_node state) = older ++ [latest']
         /\ weak_sections latest' = Some (find_weak_sections content)
         /\ analysis latest' = analysis latest.
Proof.
  intros segments. split; [|split].
  - apply join_split. discriminate.
  - unfold find_weak_sections. fold segments. fold short.
    apply Forall2_map_r. apply List.Forall_forall. intros segment Hin.
    apply List.filter_In in Hin. destruct Hin as [Hin _].
    destruct (split_segment_occurs content ". " segment) as [k Hk];
      [discriminate | exact Hin |].
    destruct (find_first _ _ _ Hk) as (k0 & Hfind & Hfirst).
    unfold reports. cbn [issue_type severity confidence start_position end_position].
    repeat split; try reflexivity.
    exists k0. split; [exact Hfind | exact Hfirst].
  - intros state older latest Hdraft Hhist.
    unfold _identify_weaknesses_node. cbn [analysis_history set_analysis_history].
    rewrite Hhist, update_last_snoc, Hdraft.
    eexists. split; [reflexivity|]. split; reflexivity.
Qed.

(** The example of the specification: only ["Ok"] is flagged, at [0, 2). *)
Example identify_weaknesses_example :
  map (fun w => (start_position w, end_position w, issue_type w))
      (find_weak_sections
         "Ok. This is a much longer sentence that exceeds ten characters easily.")
  = [(0%Z, 2%Z, "sentence_too_short")].
Proof. vm_compute. reflexivity. Qed.

End Weaknesses.

(** ** The retry executor *)
Module RetryFacts.
Import Retry.

Section Executor.
Context {V E : Type}.
Variable func : nat -> outcome V E.
Variable random : nat -> Q.
Variable opts : options E.

(** Attempt [k] fails with an exception of the retryable set. *)
Definition retryable_failure (k : nat) : Prop :=
  exists e, func k = Failure e /\ retry_exceptions opts e = true.

(** How a run of the loop that starts at [attempt] with [fuel] iterations
    left can end. *)
Inductive ending (attempt fuel : nat) (last : option E) (w : effects)
  : result V E * effects -> Prop :=
| ends_returned (k : nat) (v : V) (w' : effects) :
    (attempt <= k < attempt + fuel)%nat ->
    (forall j, (attempt <= j < k)%nat -> retryable_failure j) ->
    func k = Success v ->
    calls w' = S k ->
    List.length (sleeps w') = (List.length (sleeps w) + (k - attempt))%nat ->
    ending attempt fuel last w (Returned v, w')
| ends_propagated (k : nat) (e : E) (w' : effects) :
    (attempt <= k < attempt + fuel)%nat ->
    (forall j, (attempt <= j < k)%nat -> retryable_failure j) ->
    func k = Failure e ->
    retry_exceptions opts e = false ->
    calls w' = S k ->
    ending attempt fuel last w (Propagated e, w')
| ends_exhausted (e : E) (w' : effects) :
    (0 < fuel)%nat ->
    (forall j, (attempt <= j < attempt + fuel)%nat -> retryable_failure j) ->
    func (attempt + fuel - 1) = Failure e ->
    calls w' = (attempt + fuel)%nat ->
    List.length (sleeps w') = (List.length (sleeps w) + (fuel - 1))%nat ->
    ending attempt fuel last w (RetryError (Some e), w')
| ends_empty :
    fuel = 0%nat ->
    ending attempt fuel last w (RetryError last, w).

Lemma attempts_ending (fuel : nat) :
  forall attempt last w,
    calls w = attempt ->
    Z.of_nat (attempt + fuel) = (max_retries opts + 1)%Z ->
    ending attempt fuel last w (attempts func random opts fuel attempt last w).
Proof.
  induction fuel as [|fuel IH]; intros attempt last w Hcalls Hfuel.
  - apply ends_empty. reflexivity.
  - cbn [attempts]. rewrite Hcalls.
    assert (Hnone : forall j, (attempt <= j < attempt)%nat -> retryable_failure j)
      by (intros j Hj; lia).
    destruct (func attempt) as [v|e] eqn:Hf.
    + apply (ends_returned _ _ _ _ attempt v);
        [lia | exact Hnone | exact Hf | reflexivity | cbn; lia].
    + destruct (retry_exceptions opts e) eqn:Hr.
      * assert (Hstep : forall j, (attempt <= j < S attempt)%nat -> retryable_failure j).
        { intros j Hj. assert (j = attempt) as -> by lia. exists e. auto. }
        destruct (Z.eqb_spec (Z.of_nat attempt) (max_retries opts)) as [Hlast|Hmore].
        -- assert (fuel = 0%nat) as -> by lia.
           apply ends_exhausted; [lia | | | cbn; lia | cbn; lia].
           ++ intros j Hj. apply Hstep. lia.
           ++ replace (attempt + 1 - 1)%nat with attempt by lia. exact Hf.
        -- specialize (IH (S attempt) (Some e)
                           {| calls := S attempt;
                              sleeps := sleeps w
                                        ++ [delay_for random opts attempt
                                                      (List.length (sleeps w))] |}
                           eq_refl ltac:(lia)).
           cbn [calls sleeps].
           assert (Hjoin : forall k, (forall j, (S attempt <= j < k)%nat -> retryable_failure j) ->
                                     forall j, (attempt <= j < k)%nat -> retryable_failure j).
           { intros k Hfail j Hj. destruct (Nat.eq_dec j attempt) as [->|Hne].
             - apply Hstep. lia.
             - apply Hfail. lia. }
           destruct IH as [k v w' Hk Hfail Hs Hc Hl
                          |k e' w' Hk Hfail Hs Hne Hc
                          |e' w' Hpos Hfail Hs Hc Hl
                          |Hzero].
           ++ apply (ends_returned _ _ _ _ k v);
                [lia | apply Hjoin; exact Hfail | exact Hs | exact Hc |].
              rewrite Hl. cbn [sleeps]. rewrite List.length_app. simpl. lia.
           ++ apply (ends_propagated _ _ _ _ k e');
                [lia | apply Hjoin; exact Hfail | exact Hs | exact Hne | exact Hc].
           ++ apply ends_exhausted; [lia | | | lia |].
              ** apply Hjoin. intros j Hj. apply Hfail. lia.
              ** replace (attempt + S fuel - 1)%nat with (S attempt + fuel - 1)%nat by lia.
                 exact Hs.
              ** rewrite Hl. cbn [sleeps]. rewrite List.length_app. simpl. lia.
           ++ lia.
      * apply (ends_propagated _ _ _ _ attempt e);
          [lia | exact Hnone | exact Hf | exact Hr | reflexivity].
Qed.

(** C6. With a non-negative [max_retries] the executor awaits the
    operation at most [max_retries + 1] times; when attempt [k] is the
    first that succeeds (the earlier ones failing with retryable
    exceptions) it returns that result after [k + 1] calls and exactly [k]
    waits; and it raises [RetryError] exactly when all [max_retries + 1]
    attempts fail with retryable exceptions, the error then wrapping the
    exception of the last attempt. *)
Theorem retry_spec :
  (0 <= max_retries opts)%Z ->
  let n := Z.to_nat (max_retries opts) in
  let run := retry_with_exponential_backoff func random opts in
  (calls (snd run) <= n + 1)%nat
  /\ (forall k v,
        (k <= n)%nat ->
        (forall j, (j < k)%nat -> retryable_failure j) ->
        func k = Success v ->
        fst run = Returned v
        /\ calls (snd run) = S k
        /\ List.length (sleeps (snd run)) = k)
  /\ ((exists last, fst run = RetryError last)
      <-> (forall j, (j <= n)%nat -> retryable_failure j))
  /\ (forall last,
        fst run = RetryError last ->
        exists e, last = Some e /\ func n = Failure e
                  /\ calls (snd run) = S n
                  /\ List.length (sleeps (snd run)) = n).
Proof.
  intros Hmax n run.
  assert (Hfuel : Z.to_nat (max_retries opts + 1) = S n) by (unfold n; lia).
  pose proof (attempts_ending (S n) 0 None {| calls := 0; sleeps := [] |} eq_refl) as Hend.
  assert (Hrun : run = attempts func random opts (S n) 0 None {| calls := 0; sleeps := [] |}).
  { unfold run, retry_with_exponential_backoff. rewrite Hfuel. reflexivity. }
  rewrite <- Hrun in Hend.
  specialize (Hend ltac:(unfold n; lia)).
  assert (Hexcl : forall k, retryable_failure k ->
                            (forall v, func k <> Success v)
                            /\ (forall e, func k = Failure e -> retry_exceptions opts e = true)).
  { intros k (e & Hk & Hr). split.
    - intros v Hv. congruence.
    - intros e' He'. congruence. }
  assert (Hsucc : forall k v, retryable_failure k -> func k = Success v -> False).
  { intros k v Hk Hv. destruct (Hexcl k Hk) as [Hno _]. exact (Hno v Hv). }
  assert (Hfatal : forall k e, retryable_failure k -> func k = Failure e ->
                               retry_exceptions opts e = false -> False).
  { intros k e Hk He Hr. destruct (Hexcl k Hk) as [_ Hyes]. rewrite (Hyes e He) in Hr.
    discriminate. }
  destruct Hend as [k v w' Hk Hfail Hs Hc Hl
                   |k e w' Hk Hfail Hs Hne Hc
                   |e w' Hpos Hfail Hs Hc Hl
                   |Hzero]; cbn [fst snd] in *; [simpl in Hl| |simpl in Hl|lia].
  - (* the run returned at attempt k *)
    split; [lia|]. split; [|split].
    + intros k' v' Hk' Hfail' Hs'.
      destruct (Nat.lt_trichotomy k' k) as [Hlt|[->|Hgt]].
      * exfalso. apply (Hsucc k' v'); [apply Hfail; lia | exact Hs'].
      * assert (v' = v) as -> by congruence.
        split; [reflexivity|]. split; [exact Hc | lia].
      * exfalso. apply (Hsucc k v); [apply Hfail'; lia | exact Hs].
    + split.
      * intros [last Hlast]. discriminate.
      * intros Hall. exfalso. apply (Hsucc k v); [apply Hall; lia | exact Hs].
    + intros last Hlast. discriminate.
  - (* a non-retryable exception escaped at attempt k *)
    split; [lia|]. split; [|split].
    + intros k' v' Hk' Hfail' Hs'. exfalso.
      destruct (Nat.lt_trichotomy k' k) as [Hlt|[->|Hgt]].
      * apply (Hsucc k' v'); [apply Hfail; lia | exact Hs'].
      * congruence.
      * apply (Hfatal k e); [apply Hfail'; lia | exact Hs | exact Hne].
    + split.
      * intros [last Hlast]. discriminate.
      * intros Hall. exfalso.
        apply (Hfatal k e); [apply Hall; lia | exact Hs | exact Hne].
    + intros last Hlast. discriminate.
  - (* every attempt failed with a retryable exception *)
    split; [lia|]. split; [|split].
    + intros k' v' Hk' Hfail' Hs'. exfalso.
      apply (Hsucc k' v'); [apply Hfail; lia | exact Hs'].
    + split.
      * intros _ j Hj. apply Hfail. lia.
      * intros _. exists (Some e). reflexivity.
    + intros last Hlast. injection Hlast as <-.
      exists e. split; [reflexivity|]. split; [|split; lia].
      replace n with (0 + S n - 1)%nat by lia. exact Hs.
Qed.

End Executor.

(** The example of the specification: the operation fails on its first
    two attempts and succeeds on the third, with [max_retries = 3]. *)
Definition flaky (k : nat) : outcome Z string :=
  match k with
  | 0%nat | 1%nat => Failure "connection reset"
  | _ => Success 42%Z
  end.

Definition three_retries : options string :=
  {| max_retries := 3; base_delay := 1; max_delay := 60;
     exponential_base := 2; jitter := true;
     retry_exceptions := fun _ => true |}.

Lemma retry_spec_witness :
  (0 <= max_retries three_retries)%Z
  /\ fst (retry_with_exponential_backoff flaky (fun _ => 0%Q) three_retries) = Returned 42%Z
  /\ calls (snd (retry_with_exponential_backoff flaky (fun _ => 0%Q) three_retries)) = 3%nat
  /\ List.length
       (sleeps (snd (retry_with_exponential_backoff flaky (fun _ => 0%Q) three_retries)))
     = 2%nat.
Proof.
  assert (Hmax : (0 <= max_retries three_retries)%Z) by (cbn; lia).
  split; [exact Hmax|].
  destruct (retry_spec flaky (fun _ => 0%Q) three_retries Hmax) as (_ & Hfirst & _).
  apply (Hfirst 2%nat 42%Z).
  - cbn. lia.
  - intros [|[|j]] Hj; [| |lia]; exists "connection reset"; split; reflexivity.
  - reflexivity.
Defined.

End RetryFacts.

(** ** The AnalyzeDraft stage *)
Module AnalyzeStage.
Import Models Agent.

(** The entry the stage appends for a successful analysis. *)
Definition recorded (now : Time) (state : AgentState) (a : Analysis) : AnalysisEntry :=
  {| timestamp := now; analysis := a;
     draft_length := Some (Z.of_nat (String.length (current_draft state)));
     weak_sections := None |}.

(** C3, as amended. The stage calls [recommend_keywords] exactly once and
    directly, without the retry executor.  When the call raises, the stage
    does not raise: it returns the run state unchanged, with no entry
    added to the analysis history, and the edge to [generate_keywords] is
    followed.  When the call returns an analysis, one entry holding the
    timestamp, the analysis and the draft length is appended. *)
Theorem analyze_draft_spec
        (recommend_keywords : nat -> string -> string -> option UserProfile -> exn + Analysis)
        (now : Time) (state : AgentState) (llm_calls : nat) :
  let answer :=
    recommend_keywords llm_calls (current_draft state)
      (_get_cursor_context (current_draft state) (cursor_position state))
      (user_profile state) in
  let after := _analyze_draft_node recommend_keywords now state llm_calls in
  snd after = S llm_calls
  /\ match answer with
     | inl _ => fst after = state
     | inr a =>
         fst after
         = set_analysis_history state (analysis_history state ++ [recorded now state a])
     end
  /\ In ("analyze_draft", "generate_keywords") edges.
Proof.
  intros answer after. unfold after, _analyze_draft_node. fold answer.
  destruct answer as [e|a]; cbn [fst snd].
  - split; [reflexivity|]. split; [reflexivity|]. left. reflexivity.
  - split; [reflexivity|]. split; [reflexivity|]. left. reflexivity.
Qed.

(** A language-model service that fails on every call, and a run state
    as [update_draft] builds it. *)
Definition unavailable
  : nat -> string -> string -> option UserProfile -> exn + Analysis :=
  fun _ _ _ _ => inl (ExternalError "service unavailable").

Definition fresh_state : AgentState :=
  {| session_id := "s1"; user_profile := None; current_draft := "Short.";
     cursor_position := 0; previous_suggestions := []; analysis_history := [];
     current_score := []; iteration_count := Some 0%Z; last_updated := 0%Q;
     final_response := None |}.

(** Against C3 as stated: with a service that always fails, retrying up
    to three times would make four calls and the stage would append an
    entry with an empty analysis; the stage makes one call and appends
    nothing. *)
Lemma analyze_draft_no_retry_no_entry :
  let after := _analyze_draft_node unavailable 0%Q fresh_state 0 in
  (forall n d c p, exists e, unavailable n d c p = inl e)
  /\ snd after <> 4%nat
  /\ ~ (exists entry,
          analysis_history (fst after) = analysis_history fresh_state ++ [entry]
          /\ analysis entry = empty_analysis).
Proof.
  cbn. split; [|split].
  - intros. eexists. reflexivity.
  - discriminate.
  - intros (entry & H & _). discriminate.
Qed.

End AnalyzeStage.

(** ** The RefineSuggestions stage *)
Module RefineStage.
Import Models Agent.

(** No breakdown stored by [_score_content_node] has a key ["seo"]: the
    SEO sub-score is stored under ["seo_optimization"]. *)
Lemma breakdown_has_no_seo_key (b : ScoreBreakdown) :
  PyDict.get (ScoreBreakdown_dict b) "seo" 70 = 70%Q.
Proof. reflexivity. Qed.

(** What [_score_content_node] leaves in [current_score]. *)
Lemma score_content_node_current_score (re : Re.engine) (now : Time) (state : AgentState) :
  current_score (_score_content_node re now state) = current_score state
  \/ exists b, current_score (_score_content_node re now state) = ScoreBreakdown_dict b.
Proof.
  unfold _score_content_node, Scoring.calculate_comprehensive_score.
  destruct (ScoreBreakdown_new _ _ _ _ _ _) as [e|b].
  - left. reflexivity.
  - right. exists b. reflexivity.
Qed.

(** A breakdown whose SEO sub-score is 10 and whose other sub-scores are 70. *)
Definition low_seo : ScoreBreakdown :=
  {| keyword_relevance := 70; readability := 70; user_profile_alignment := 70;
     content_structure := 70; seo_optimization := 10; engagement_potential := 70 |}.

Definition search_keyword : Keyword :=
  {| kw_keyword := Some "search ranking"; kw_relevance_score := Some 0.5%Q;
     kw_context := None |}.

(** C4, the code at the failing input. With the breakdown the scoring
    stage stores (SEO sub-score 10, below 60) a keyword containing
    "search" keeps its relevance 0.5 instead of receiving the factor 1.2:
    the refinement reads the key ["seo"], which the stored breakdown does
    not have, and falls back to 70. *)
Theorem seo_boost_not_applied :
  PyNum.ltb (seo_optimization low_seo) 60 = true
  /\ PyDict.get (ScoreBreakdown_dict low_seo) "seo" 70 = 70%Q
  /\ _contextual_refinement [search_keyword] "" 0 (ScoreBreakdown_dict low_seo)
     = [search_keyword].
Proof. repeat split. Qed.

End RefineStage.

(** ** The session store *)
Module Sessions.
Import Models Agent.

(** C8. Ending the session whose identifier [start_session] returned
    succeeds and removes the session from the store; ending it a second
    time fails with [SessionNotFound] and leaves the store as it was; and
    [update_draft] on an identifier that is not in the store fails with
    [SessionNotFound] without touching the store. *)
Theorem end_session_once
        (ainvoke : AgentState -> exn + AgentState)
        (now0 now1 now2 : Time) (fresh_id : string)
        (sessions : gmap string AgentSession) (profile : UserProfile) :
  let started := start_session now0 fresh_id sessions profile in
  let first := end_session now1 (snd started) (fst started) in
  let second := end_session now2 (snd first) (fst started) in
  fst started = fresh_id
  /\ (exists summary, fst first = inr summary)
  /\ snd first !! fst started = None
  /\ fst second = inl (SessionNotFound (fst started))
  /\ snd second = snd first
  /\ (forall now (others : gmap string AgentSession) unknown draft cursor,
        others !! unknown = None ->
        update_draft ainvoke now others unknown draft cursor
        = (inl (SessionNotFound unknown), others)).
Proof.
  intros started first second.
  assert (Hfirst : exists summary,
             first = (inr summary, delete fresh_id (snd started))).
  { unfold first, started, start_session, end_session. cbn [fst snd].
    rewrite lookup_insert_eq. eexists. reflexivity. }
  destruct Hfirst as [summary Hfirst].
  assert (Hgone : snd first !! fresh_id = None).
  { rewrite Hfirst. cbn [snd]. apply lookup_delete_eq. }
  split; [reflexivity|].
  split; [exists summary; rewrite Hfirst; reflexivity|].
  split; [exact Hgone|].
  unfold second, end_session. cbn [fst started start_session].
  rewrite Hgone. cbn [fst snd].
  split; [reflexivity|]. split; [reflexivity|].
  intros now others unknown draft cursor Hunknown.
  unfold update_draft. rewrite Hunknown. reflexivity.
Qed.

(** The stores the orchestrator can reach from the empty one through its
    three session operations. *)
Inductive reachable (ainvoke : AgentState -> exn + AgentState)
  : gmap string AgentSession -> Prop :=
| reach_init : reachable ainvoke ∅
| reach_start now fresh_id sessions profile :
    reachable ainvoke sessions ->
    reachable ainvoke (snd (start_session now fresh_id sessions profile))
| reach_update now sessions session_id draft cursor :
    reachable ainvoke sessions ->
    reachable ainvoke (snd (update_draft ainvoke now sessions session_id draft cursor))
| reach_end now sessions session_id :
    reachable ainvoke sessions ->
    reachable ainvoke (snd (end_session now sessions session_id)).

(** No operation appends to [score_history]. *)
Lemma score_history_stays_empty
      (ainvoke : AgentState -> exn + AgentState) (sessions : gmap string AgentSession) :
  reachable ainvoke sessions ->
  forall session_id session,
    sessions !! session_id = Some session -> score_history session = [].
Proof.
  induction 1 as [|now fresh_id sessions profile _ IH
                  |now sessions id draft cursor _ IH
                  |now sessions id _ IH]; intros sid session Hlook.
  - rewrite lookup_empty in Hlook. discriminate.
  - cbn [snd start_session] in Hlook.
    destruct (decide (fresh_id = sid)) as [->|Hne].
    + rewrite lookup_insert_eq in Hlook. injection Hlook as <-. reflexivity.
    + rewrite lookup_insert_ne in Hlook by exact Hne. exact (IH _ _ Hlook).
  - unfold update_draft in Hlook.
    destruct (sessions !! id) as [current|] eqn:Hcur; [|exact (IH _ _ Hlook)].
    pose proof (IH _ _ Hcur) as Hempty.
    destruct (ainvoke _) as [e|final_state]; cbn [snd] in Hlook.
    + destruct (decide (id = sid)) as [->|Hne].
      * rewrite lookup_insert_eq in Hlook. injection Hlook as <-. exact Hempty.
      * rewrite lookup_insert_ne in Hlook by exact Hne. exact (IH _ _ Hlook).
    + destruct (decide (id = sid)) as [->|Hne].
      * rewrite lookup_insert_eq in Hlook. injection Hlook as <-. exact Hempty.
      * rewrite !lookup_insert_ne in Hlook by exact Hne. exact (IH _ _ Hlook).
  - unfold end_session in Hlook.
    destruct (sessions !! id) as [current|] eqn:Hcur; cbn [snd] in Hlook.
    + destruct (decide (id = sid)) as [->|Hne].
      * rewrite lookup_delete_eq in Hlook. discriminate.
      * rewrite lookup_delete_ne in Hlook by exact Hne. exact (IH _ _ Hlook).
    + exact (IH _ _ Hlook).
Qed.

(** C10. Whatever sequence of [start_session], [update_draft] and
    [end_session] calls produced the store, the summary returned by a
    successful [end_session] has [average_score] equal to 0: the
    session's [score_history] is still empty. *)
Theorem average_score_is_zero
        (ainvoke : AgentState -> exn + AgentState)
        (sessions : gmap string AgentSession) (now : Time)
        (session_id : string) (summary : Summary) :
  reachable ainvoke sessions ->
  fst (end_session now sessions session_id) = inr summary ->
  average_score summary = 0%Q.
Proof.
  intros Hreach Hend. unfold end_session in Hend.
  destruct (sessions !! session_id) as [session|] eqn:Hlook; [|discriminate].
  cbn [fst] in Hend. injection Hend as <-. cbn [average_score].
  rewrite (score_history_stays_empty ainvoke sessions Hreach _ _ Hlook).
  reflexivity.
Qed.

(** A workflow that hands back the state it was given, and a writer. *)
Definition echo_workflow : AgentState -> exn + AgentState := fun state => inr state.

Definition writer : UserProfile :=
  {| user_id := "u1"; preferred_topics := []; reading_level := "intermediate";
     writing_style := "formal"; target_audience := None; expertise_areas := [] |}.

(** The store after one session was started and its draft updated twice. *)
Definition two_updates : gmap string AgentSession :=
  let s1 := snd (start_session 0%Q "id-1" ∅ writer) in
  let s2 := snd (update_draft echo_workflow 1%Q s1 "id-1" "Short." (Some 0%Z)) in
  snd (update_draft echo_workflow 2%Q s2 "id-1" "Short. Longer now." None).

Lemma average_score_is_zero_witness :
  reachable echo_workflow two_updates
  /\ fst (end_session 3%Q two_updates "id-1")
     = inr {| session_duration := 3 - 0; total_suggestions := 2;
              final_draft_length := 18; average_score := 0 |}
  /\ average_score {| session_duration := 3 - 0; total_suggestions := 2;
                      final_draft_length := 18; average_score := 0 |} = 0%Q.
Proof.
  assert (Hreach : reachable echo_workflow two_updates).
  { unfold two_updates. repeat apply reach_update. apply reach_start. apply reach_init. }
  assert (Hend : fst (end_session 3%Q two_updates "id-1")
                 = inr {| session_duration := 3 - 0; total_suggestions := 2;
                          final_draft_length := 18; average_score := 0 |}).
  { vm_compute. reflexivity. }
  split; [exact Hreach|]. split; [exact Hend|].
  exact (average_score_is_zero echo_workflow two_updates 3%Q "id-1" _ Hreach Hend).
Defined.

End Sessions.

(** ** The scoring engine *)
Module ScoringFacts.
Import Models Scoring.
Local Open Scope Q_scope.

Lemma round_half_even_close (y : Q) :
  Qabs (inject_Z (PyNum.round_half_even y) - y) <= 1 # 2.
Proof.
  unfold PyNum.round_half_even.
  pose proof (Qfloor_le y) as Hlo.
  pose proof (Qlt_floor y) as Hhi.
  rewrite inject_Z_plus in Hhi. change (inject_Z 1) with 1 in Hhi.
  set (f := Qfloor y) in *.
  assert (Hup : Qabs (inject_Z (f + 1) - y) <= 1 # 2 <-> 1 # 2 <= y - inject_Z f).
  { rewrite inject_Z_plus. change (inject_Z 1) with 1.
    split; intros H.
    - apply Qabs_Qle_condition in H. lra.
    - apply Qabs_Qle_condition. lra. }
  assert (Hdown : Qabs (inject_Z f - y) <= 1 # 2 <-> y - inject_Z f <= 1 # 2).
  { split; intros H.
    - apply Qabs_Qle_condition in H. lra.
    - apply Qabs_Qle_condition. lra. }
  destruct (Qcompare_spec (y - inject_Z f) (1 # 2)) as [Heq|Hlt|Hgt].
  - destruct (Z.even f); [apply Hdown | apply Hup]; rewrite Heq; apply Qle_refl.
  - apply Hdown. lra.
  - apply Hup. lra.
Qed.

(** [round(x, 2)] moves [x] by at most half a hundredth. *)
Lemma round2_close (x : Q) : Qabs (PyNum.round2 x - x) <= 1 # 200.
Proof.
  unfold PyNum.round2.
  pose proof (round_half_even_close (x * 100)) as H.
  set (z := inject_Z (PyNum.round_half_even (x * 100))) in *.
  apply Qabs_Qle_condition in H. apply Qabs_Qle_condition.
  unfold Qdiv. change (/ 100) with (1 # 100). lra.
Qed.

(** The weighted sum, written out. *)
Lemma weighted_sum_unfold (b : ScoreBreakdown) :
  weighted_sum b
  == 0.25 * keyword_relevance b + 0.20 * readability b
     + 0.15 * user_profile_alignment b + 0.15 * content_structure b
     + 0.15 * seo_optimization b + 0.10 * engagement_potential b.
Proof.
  unfold weighted_sum, weights, PyNum.sum. cbn [map fold_left fst snd].
  unfold getattr. cbn. lra.
Qed.

(** C5. For every breakdown the result reports that breakdown and an
    overall score within half a hundredth (the rounding to two decimals)
    of the weighted sum of its six sub-scores with the weights 0.25,
    0.20, 0.15, 0.15, 0.15 and 0.10, which add up to 1; and whenever
    [calculate_comprehensive_score] returns, it returns such a result. *)
Theorem overall_score_is_weighted_sum
        (re : Re.engine) (b : ScoreBreakdown)
        (content : string) (user_profile : option UserProfile) (now : Time) :
  let r := score_result re b content user_profile now in
  result_breakdown r = ScoreBreakdown_dict b
  /\ Qabs (result_overall_score r
           - (0.25 * keyword_relevance b + 0.20 * readability b
              + 0.15 * user_profile_alignment b + 0.15 * content_structure b
              + 0.15 * seo_optimization b + 0.10 * engagement_potential b))
     <= 0.005
  /\ PyNum.sum (map snd weights) == 1
  /\ match calculate_comprehensive_score re content user_profile now with
     | inr r' => exists b', r' = score_result re b' content user_profile now
     | inl _ => True
     end.
Proof.
  intros r. split; [reflexivity|]. split; [|split].
  - cbn [r score_result result_overall_score].
    rewrite <- (weighted_sum_unfold b).
    apply (Qle_trans _ (1 # 200)); [apply round2_close | discriminate].
  - reflexivity.
  - unfold calculate_comprehensive_score.
    destruct (ScoreBreakdown_new _ _ _ _ _ _) as [e|b']; [exact I|].
    exists b'. reflexivity.
Qed.

(** A draft written with contractions, and a writer whose profile asks
    for the casual style and sets nothing else. *)
Definition casual_draft : string := "Don't won't can't it's we're you'll i'll".

Definition casual_writer : UserProfile :=
  {| user_id := "u1"; preferred_topics := []; reading_level := "intermediate";
     writing_style := "casual"; target_audience := None; expertise_areas := [] |}.

(** C1, the code at the failing input. All seven casual indicators occur
    in the draft, so the style score is 50 + 7 * 8 = 106; it is the only
    alignment score, the profile-alignment sub-score is 106, and the
    construction of the [ScoreBreakdown] is refused: the comprehensive
    score raises instead of returning sub-scores in [0, 100]. *)
Theorem casual_alignment_exceeds_100 (re : Re.engine) (now : Time) :
  _calculate_style_alignment casual_draft "casual" == 106
  /\ _calculate_user_profile_alignment casual_draft (Some casual_writer) == 106
  /\ calculate_comprehensive_score re casual_draft (Some casual_writer) now
     = inl (ValidationError "ScoreBreakdown").
Proof.
  split; [reflexivity|]. split; [reflexivity|].
  unfold calculate_comprehensive_score, ScoreBreakdown_new.
  assert (H : field_ok (_calculate_user_profile_alignment casual_draft (Some casual_writer))
              = false) by (vm_compute; reflexivity).
  rewrite H. rewrite andb_false_r. reflexivity.
Qed.

End ScoringFacts.

(** ** Sanitization of analyzer responses *)
Module SanitizeFacts.
Import LLM.

(** *** Dictionaries *)

Lemma lookup_store_same (d : list (string * json)) (k : string) (v : json) :
  lookup (store d k v) k = Some v.
Proof.
  induction d as [|[k' v'] d IH]; simpl.
  - now rewrite String.eqb_refl.
  - destruct (String.eqb k k') eqn:E; simpl; rewrite E; [reflexivity | exact IH].
Qed.

Lemma lookup_store_other (d : list (string * json)) (k k' : string) (v : json) :
  k <> k' -> lookup (store d k' v) k = lookup d k.
Proof.
  intros Hne. induction d as [|[k0 v0] d IH]; simpl.
  - destruct (String.eqb_spec k k'); [congruence | reflexivity].
  - destruct (String.eqb_spec k' k0) as [->|Hne0]; simpl.
    + destruct (String.eqb_spec k k0); [congruence | reflexivity].
    + destruct (String.eqb_spec k k0); [reflexivity | exact IH].
Qed.

Lemma store_store (d : list (string * json)) (k : string) (v v' : json) :
  store (store d k v) k v' = store d k v'.
Proof.
  induction d as [|[k0 v0] d IH]; simpl.
  - now rewrite String.eqb_refl.
  - destruct (String.eqb k k0) eqn:E; simpl; rewrite E; [reflexivity | now rewrite IH].
Qed.

Lemma store_lookup_id (d : list (string * json)) (k : string) (v : json) :
  lookup d k = Some v -> store d k v = d.
Proof.
  induction d as [|[k0 v0] d IH]; simpl; [discriminate|].
  destruct (String.eqb k k0) eqn:E.
  - intros H. injection H as ->. reflexivity.
  - intros H. now rewrite IH.
Qed.

(** *** Blocks whose second run changes nothing *)

(** Running the block again on the object it left behind ends the same
    way and leaves the same object. *)
Definition stable (body : json -> upd json) : Prop :=
  forall x, body (value_of (body x)) = body x.

(** The block runs to its end on [x] without changing it. *)
Definition settled (body : json -> upd json) (x : json) : Prop :=
  body x = Done x.

Lemma stable_settled (body : json -> upd json) (x x' : json) :
  stable body -> body x = Done x' -> settled body x'.
Proof.
  intros Hst Hx. unfold settled. specialize (Hst x). rewrite Hx in Hst. exact Hst.
Qed.

Lemma stable_assign (conv : json -> option json) :
  (forall v v', conv v = Some v' -> conv v' = Some v') -> stable (assign conv).
Proof.
  intros Hconv x. unfold assign.
  destruct (conv x) as [v'|] eqn:E; simpl.
  - now rewrite (Hconv _ _ E).
  - now rewrite E.
Qed.

Lemma stable_update (k : string) (body : json -> upd json) :
  stable body -> stable (update k body).
Proof.
  intros Hst x. unfold update at 2.
  destruct (py_in k x) as [[|]|] eqn:Hin; simpl.
  - destruct (getitem x k) as [sub|] eqn:Hget; simpl.
    + destruct x; try discriminate. simpl in Hget.
      assert (Hval : value_of (upd_map (setitem (JDict d) k) (body sub))
                     = JDict (store d k (value_of (body sub)))).
      { destruct (body sub); reflexivity. }
      rewrite Hval. unfold update. simpl.
      rewrite lookup_store_same, Hget, (Hst sub).
      destruct (body sub); simpl; now rewrite store_store.
    + unfold update. now rewrite Hin, Hget.
  - unfold update. now rewrite Hin.
  - unfold update. now rewrite Hin.
Qed.

(** A block on the key [k'] leaves a settled block on another key [k]
    settled. *)
Lemma update_frame (k k' : string) (body body' : json -> upd json) (x : json) :
  k <> k' ->
  settled (update k body) x ->
  settled (update k body) (value_of (update k' body' x)).
Proof.
  intros Hne Hset.
  destruct x; try (unfold update; simpl;
                   repeat match goal with |- context [if ?b then _ else _] => destruct b end;
                   exact Hset).
  unfold update at 2. simpl.
  destruct (lookup d k') as [sub'|] eqn:Hk'; simpl; [|exact Hset].
  assert (Hval : value_of (upd_map (setitem (JDict d) k') (body' sub'))
                 = JDict (store d k' (value_of (body' sub')))).
  { destruct (body' sub'); reflexivity. }
  rewrite Hval. clear Hval.
  unfold settled, update in *. simpl in *.
  rewrite lookup_store_other by exact Hne.
  destruct (lookup d k) as [sub|] eqn:Hk; [|reflexivity].
  destruct (body sub) as [sub2|sub2] eqn:Hb; simpl in *; [|discriminate].
  injection Hset as Hset.
  assert (sub2 = sub) as ->.
  { pose proof (lookup_store_same d k sub2) as H. rewrite Hset, Hk in H. congruence. }
  f_equal. f_equal. apply store_lookup_id.
  rewrite lookup_store_other by exact Hne. exact Hk.
Qed.

Lemma updates_frame (k : string) (body : json -> upd json)
      (steps : list (string * (json -> upd json))) :
  ~ In k (map fst steps) ->
  forall x, settled (update k body) x ->
            settled (update k body) (value_of (updates steps x)).
Proof.
  induction steps as [|[k' body'] steps IH]; intros Hnotin x Hset; simpl.
  - exact Hset.
  - simpl in Hnotin.
    assert (Hne : k <> k') by (intros ->; apply Hnotin; now left).
    pose proof (update_frame k k' body body' x Hne Hset) as Hframe.
    destruct (update k' body' x) as [a|a]; simpl in *.
    + apply IH; [intros Hin; apply Hnotin; now right | exact Hframe].
    + exact Hframe.
Qed.

Lemma stable_updates (steps : list (string * (json -> upd json))) :
  List.NoDup (map fst steps) ->
  List.Forall (fun step => stable (snd step)) steps ->
  stable (updates steps).
Proof.
  induction steps as [|[k body] steps IH]; intros Hnodup Hall x.
  - reflexivity.
  - apply List.NoDup_cons_iff in Hnodup. destruct Hnodup as [Hnotin Hnodup].
    apply List.Forall_cons_iff in Hall. destruct Hall as [Hbody Hall]. simpl in Hbody.
    specialize (IH Hnodup Hall).
    pose proof (stable_update k body Hbody) as Hupd.
    cbn [updates].
    destruct (update k body x) as [a|a] eqn:Hx; cbn [upd_bind].
    + assert (Hset : settled (update k body) a)
        by (apply (stable_settled _ x); assumption).
      pose proof (updates_frame k body steps Hnotin a Hset) as Hc.
      unfold settled in Hc. rewrite Hc. cbn [upd_bind]. apply IH.
    + cbn [value_of]. specialize (Hupd x). rewrite Hx in Hupd. cbn [value_of] in Hupd.
      now rewrite Hupd.
Qed.

(** *** Loops *)

Lemma for_list_length (body : json -> upd json) (l : list json) :
  List.length (value_of (for_list body l)) = List.length l.
Proof.
  induction l as [|x l IH]; simpl; [reflexivity|].
  destruct (body x) as [x'|x']; simpl; [|reflexivity].
  destruct (for_list body l); simpl in *; now rewrite IH.
Qed.

Lemma stable_for_list (body : json -> upd json) (l : list json) :
  stable body -> for_list body (value_of (for_list body l)) = for_list body l.
Proof.
  intros Hst. induction l as [|x l IH]; simpl; [reflexivity|].
  pose proof (Hst x) as Hx.
  destruct (body x) as [x'|x'] eqn:E; simpl in *.
  - destruct (for_list body l) as [l'|l'] eqn:El; simpl in *; rewrite Hx, IH; reflexivity.
  - now rewrite Hx.
Qed.

Lemma stable_for_each (body : json -> upd json) :
  stable body -> stable (for_each body).
Proof.
  intros Hst x. destruct x; simpl; try reflexivity.
  - destruct (for_list body (chars s)) eqn:E; simpl; now rewrite E.
  - assert (Hval : value_of (upd_map JList (for_list body l))
                   = JList (value_of (for_list body l))).
    { destruct (for_list body l); reflexivity. }
    rewrite Hval. simpl. now rewrite stable_for_list.
  - destruct (for_list body (map (fun kv => JStr (fst kv)) d)) eqn:E; simpl; now rewrite E.
Qed.

Lemma firstn_id {A : Type} (n : nat) (l : list A) :
  (List.length l <= n)%nat -> firstn n l = l.
Proof. intros H. apply List.firstn_all2. exact H. Qed.

Lemma substring_prefix_length (n : nat) (s : string) :
  (String.length (String.substring 0 n s) <= n)%nat.
Proof.
  revert s. induction n as [|n IH]; intros [|c s]; simpl; try lia.
  specialize (IH s). lia.
Qed.

Lemma substring_prefix_id (n : nat) (s : string) :
  (String.length s <= n)%nat -> String.substring 0 n s = s.
Proof.
  revert s. induction n as [|n IH]; intros [|c s]; simpl; intros H; try reflexivity; try lia.
  rewrite IH by lia. reflexivity.
Qed.

Lemma slice_idempotent (n : nat) (v v' : json) :
  slice n v = Some v' -> slice n v' = Some v'.
Proof.
  destruct v; simpl; try discriminate; intros H; injection H as <-; simpl.
  - now rewrite substring_prefix_id by apply substring_prefix_length.
  - rewrite firstn_id; [reflexivity|]. apply List.firstn_le_length.
Qed.

Lemma stable_sliced (n : nat) (body : json -> upd json) :
  stable body -> stable (sliced n body).
Proof.
  intros Hst x. unfold sliced.
  destruct (slice n x) as [v'|] eqn:Hs; simpl.
  - pose proof (slice_idempotent n x v' Hs) as Hv'.
    assert (Hkeep : slice n (value_of (for_each body v')) = Some (value_of (for_each body v'))).
    { destruct v'; simpl in *; try discriminate.
      - destruct (for_list body (chars s)); simpl; exact Hv'.
      - assert (Hval : value_of (upd_map JList (for_list body l))
                       = JList (value_of (for_list body l)))
          by (destruct (for_list body l); reflexivity).
        rewrite Hval. simpl. rewrite firstn_id; [reflexivity|].
        rewrite for_list_length. injection Hv' as Hv'.
        rewrite <- Hv'. apply List.firstn_le_length. }
    rewrite Hkeep. apply stable_for_each. exact Hst.
  - now rewrite Hs.
Qed.

(** *** Conversions *)

Lemma clamp01_idempotent (f : pyfloat) : clamp01 (clamp01 f) = clamp01 f.
Proof.
  unfold clamp01, fmin, fmax.
  destruct f as [ |[|]|q]; try reflexivity.
  cbn [flt].
  destruct (PyNum.ltb q 1) eqn:E1; cbn [flt].
  - destruct (PyNum.ltb 0 q) eqn:E2; cbn [flt].
    + now rewrite E1, E2.
    + reflexivity.
  - reflexivity.
Qed.

Section Conversions.
Variable parse_float : string -> option pyfloat.
Variable parse_int : string -> option Z.

Lemma unit_interval_idempotent (v v' : json) :
  unit_interval parse_float v = Some v' -> unit_interval parse_float v' = Some v'.
Proof.
  unfold unit_interval. destruct (py_float parse_float v) as [f|]; simpl; [|discriminate].
  intros H. injection H as <-. simpl. now rewrite clamp01_idempotent.
Qed.

Lemma percent_idempotent (v v' : json) :
  percent parse_float v = Some v' -> percent parse_float v' = Some v'.
Proof.
  unfold percent. destruct (py_float parse_float v) as [f|]; [|discriminate].
  destruct (int_of_float f) as [z|]; simpl; [|discriminate].
  intros H. injection H as <-. simpl.
  set (c := Z.max 0 (Z.min 100 z)).
  assert (Hc : (0 <= c <= 100)%Z) by (unfold c; lia).
  unfold float_of_int.
  assert (Hsmall : (Z.abs c <? 2 ^ 1024 - 2 ^ 970)%Z = true).
  { apply Z.ltb_lt. apply Z.le_lt_trans with 100%Z; [lia|]. reflexivity. }
  rewrite Hsmall. simpl. rewrite Z.quot_1_r.
  do 2 f_equal. lia.
Qed.

Lemma int_at_least_idempotent (lo : Z) (v v' : json) :
  int_at_least parse_int lo v = Some v' -> int_at_least parse_int lo v' = Some v'.
Proof.
  unfold int_at_least. destruct (py_int parse_int v) as [z|]; simpl; [|discriminate].
  intros H. injection H as <-. simpl. do 2 f_equal. lia.
Qed.

(** A fixed list of [if k in obj] statements on distinct keys is stable
    as soon as each of its bodies is. *)
Ltac stable_steps :=
  apply stable_updates;
  [ repeat (apply List.NoDup_cons; [simpl; intuition discriminate|]); apply List.NoDup_nil
  | repeat (apply List.Forall_cons; [cbn [snd]|]); try apply List.Forall_nil ].

Lemma stable_blog_analysis : stable (sanitize_blog_analysis parse_float parse_int).
Proof.
  unfold sanitize_blog_analysis.
  stable_steps.
  - stable_steps.
    + apply stable_assign. apply unit_interval_idempotent.
    + stable_steps; apply stable_assign; apply unit_interval_idempotent.
  - apply stable_sliced. stable_steps; apply stable_assign;
      [apply unit_interval_idempotent | apply int_at_least_idempotent].
  - apply stable_sliced. stable_steps; apply stable_assign; apply unit_interval_idempotent.
  - apply stable_assign. apply percent_idempotent.
Qed.

Lemma stable_keyword_recommendations :
  stable (sanitize_keyword_recommendations parse_float parse_int).
Proof.
  unfold sanitize_keyword_recommendations.
  stable_steps.
  - apply stable_sliced. stable_steps; apply stable_assign;
      [apply unit_interval_idempotent | apply unit_interval_idempotent
       | apply int_at_least_idempotent].
  - apply stable_for_each. stable_steps; apply stable_assign;
      [apply unit_interval_idempotent | apply int_at_least_idempotent
       | apply int_at_least_idempotent].
  - stable_steps; apply stable_assign; apply percent_idempotent.
Qed.

Lemma stable_content_scoring : stable (sanitize_content_scoring parse_float).
Proof.
  unfold sanitize_content_scoring.
  stable_steps.
  - apply stable_assign. apply percent_idempotent.
  - stable_steps; apply stable_assign; apply percent_idempotent.
  - apply stable_assign. apply slice_idempotent.
Qed.

(** C9. Sanitizing an already sanitized response returns it unchanged,
    for every response value and every schema key: each clamp, integer
    coercion and truncation is a fixed point on its own output, also when
    an exception cut the first pass short. *)
Theorem sanitize_idempotent (response_data : json) (schema_key : string) :
  _validate_and_sanitize_response parse_float parse_int
    (_validate_and_sanitize_response parse_float parse_int response_data schema_key)
    schema_key
  = _validate_and_sanitize_response parse_float parse_int response_data schema_key.
Proof.
  unfold _validate_and_sanitize_response.
  destruct (String.eqb schema_key "blog_analysis").
  { now rewrite stable_blog_analysis. }
  destruct (String.eqb schema_key "keyword_recommendations").
  { now rewrite stable_keyword_recommendations. }
  destruct (String.eqb schema_key "content_scoring").
  { now rewrite stable_content_scoring. }
  reflexivity.
Qed.

End Conversions.

(** Two responses run through the sanitizer (no string is a number
    here). Out-of-range numbers are clamped and the topic list is cut to
    five items. *)
Definition no_number {A : Type} : string -> option A := fun _ => None.

Example sanitize_clamps :
  _validate_and_sanitize_response no_number no_number
    (JDict [ ("sentiment", JDict [("confidence", JFloat (FFin 1.7))]);
             ("topics", JList [JNone; JNone; JNone; JNone; JNone; JNone]);
             ("readability", JInt 250) ])
    "blog_analysis"
  = JDict [ ("sentiment", JDict [("confidence", JFloat (FFin 1))]);
            ("topics", JList [JNone; JNone; JNone; JNone; JNone]);
            ("readability", JInt 250) ].
Proof. reflexivity. Qed.

(** In [sanitize_clamps] the loop over the topics raised on [None], so
    the readability was never reached.  Below, [int("often")] raises in
    the first topic: its relevance is already clamped, the second topic
    and the readability are left as they were. *)
Example sanitize_stops_at_exception :
  _validate_and_sanitize_response no_number no_number
    (JDict [ ("topics", JList [ JDict [("relevance", JInt 2); ("frequency", JStr "often")];
                                JDict [("relevance", JInt 3)] ]);
             ("readability", JInt 250) ])
    "blog_analysis"
  = JDict [ ("topics", JList [ JDict [("relevance", JFloat (FFin 1));
                                      ("frequency", JStr "often")];
                               JDict [("relevance", JInt 3)] ]);
            ("readability", JInt 250) ].
Proof. reflexivity. Qed.

Example sanitize_scores :
  _validate_and_sanitize_response no_number no_number
    (JDict [ ("keywords", JList [ JDict [("keyword", JStr "seo"); ("relevance", JFloat (FFin (-0.2)));
                                         ("similarity", JBool true); ("position", JInt (-4))] ]);
             ("weak_sections", JList []);
             ("scores", JDict [("overall", JFloat (FFin 87.9)); ("seo", JInt 140)]) ])
    "keyword_recommendations"
  = JDict [ ("keywords", JList [ JDict [("keyword", JStr "seo"); ("relevance", JFloat (FFin 0));
                                        ("similarity", JFloat (FFin 1)); ("position", JInt 0)] ]);
            ("weak_sections", JList []);
            ("scores", JDict [("overall", JInt 87); ("seo", JInt 100)]) ].
Proof. reflexivity. Qed.

End SanitizeFacts.

(** ** The range of the sub-scores *)
Module RangeFacts.
Import Models Scoring.
Local Open Scope Q_scope.

(** A score between 0 and [hi]; the scale of the engine is [0, 100]. *)
Definition bounded (hi x : Q) : Prop := 0 <= x <= hi.
Definition in_range (x : Q) : Prop := bounded 100 x.

Lemma min_le_l (a b : Q) : PyNum.min a b <= a.
Proof.
  unfold PyNum.min. destruct (PyNum.ltb b a) eqn:E.
  - apply PyNumFacts.ltb_true in E. lra.
  - lra.
Qed.

Lemma min_le_r (a b : Q) : PyNum.min a b <= b.
Proof.
  unfold PyNum.min. destruct (PyNum.ltb b a) eqn:E.
  - lra.
  - apply PyNumFacts.ltb_false in E. lra.
Qed.

Lemma min_ge (a b c : Q) : c <= a -> c <= b -> c <= PyNum.min a b.
Proof. intros Ha Hb. unfold PyNum.min. destruct (PyNum.ltb b a); assumption. Qed.

Lemma max_ge_l (a b : Q) : a <= PyNum.max a b.
Proof.
  unfold PyNum.max. destruct (PyNum.gtb b a) eqn:E.
  - apply PyNumFacts.gtb_true in E. lra.
  - lra.
Qed.

Lemma max_ge_r (a b : Q) : b <= PyNum.max a b.
Proof.
  unfold PyNum.max. destruct (PyNum.gtb b a) eqn:E.
  - lra.
  - apply PyNumFacts.gtb_false in E. lra.
Qed.

Lemma max_le (a b c : Q) : a <= c -> b <= c -> PyNum.max a b <= c.
Proof. intros Ha Hb. unfold PyNum.max. destruct (PyNum.gtb b a); assumption. Qed.

(** [max(0, min(100, x))], [min(100, x)] for a non-negative [x] and
    [max(0, x)] for an [x] of at most 100 are scores. *)
Lemma clamp_in_range (x : Q) : in_range (PyNum.max 0 (PyNum.min 100 x)).
Proof.
  split; [apply max_ge_l|]. apply max_le; [lra | apply min_le_l].
Qed.

Lemma min100_in_range (x : Q) : 0 <= x -> in_range (PyNum.min 100 x).
Proof. intros H. split; [apply min_ge; lra | apply min_le_l]. Qed.

Lemma max0_in_range (x : Q) : x <= 100 -> in_range (PyNum.max 0 x).
Proof. intros H. split; [apply max_ge_l | apply max_le; lra]. Qed.

Lemma of_nat_nonneg (n : nat) : 0 <= PyNum.of_nat n.
Proof. unfold PyNum.of_nat. rewrite <- (Zle_Qle 0). lia. Qed.

Lemma of_nat_le (n m : nat) : (n <= m)%nat -> PyNum.of_nat n <= PyNum.of_nat m.
Proof. intros H. unfold PyNum.of_nat. rewrite <- Zle_Qle. lia. Qed.

Lemma of_nat_pos (n : nat) : (0 < n)%nat -> 0 < PyNum.of_nat n.
Proof. intros H. unfold PyNum.of_nat. rewrite <- (Zlt_Qlt 0). lia. Qed.

Lemma of_nat_S (n : nat) : PyNum.of_nat (S n) == PyNum.of_nat n + 1.
Proof.
  unfold PyNum.of_nat. rewrite Nat2Z.inj_succ, <- Z.add_1_r, inject_Z_plus. reflexivity.
Qed.

Lemma of_nat_const (n : nat) (z : Z) : Z.of_nat n = z -> PyNum.of_nat n = inject_Z z.
Proof. intros <-. reflexivity. Qed.

(** A ratio of a part to a positive whole lies between 0 and 1. *)
Lemma ratio_bounds (a b : Q) : 0 <= a -> a <= b -> 0 < b -> 0 <= a / b <= 1.
Proof.
  intros Ha Hab Hb. split.
  - apply Qle_shift_div_l; [exact Hb | lra].
  - apply Qle_shift_div_r; [exact Hb | lra].
Qed.

Lemma ratio_nonneg (a b : Q) : 0 <= a -> 0 < b -> 0 <= a / b.
Proof. intros Ha Hb. apply Qle_shift_div_l; [exact Hb | lra]. Qed.

Lemma round_half_even_range (y : Q) (lo hi : Z) :
  inject_Z lo <= y -> y <= inject_Z hi ->
  (lo <= PyNum.round_half_even y <= hi)%Z.
Proof.
  intros Hlo Hhi. unfold PyNum.round_half_even.
  pose proof (Qfloor_le y) as Hfl.
  pose proof (Qlt_floor y) as Hfu.
  assert (Hf1 : (lo <= Qfloor y)%Z).
  { rewrite <- (Qfloor_Z lo). apply Qfloor_resp_le. exact Hlo. }
  assert (Hf2 : (Qfloor y <= hi)%Z).
  { rewrite <- (Qfloor_Z hi). apply Qfloor_resp_le. exact Hhi. }
  set (f := Qfloor y) in *.
  assert (Hstep : 0 < y - inject_Z f -> (f + 1 <= hi)%Z).
  { intros Hpos. destruct (Z.eq_dec f hi) as [->|Hne]; [lra | lia]. }
  destruct (Qcompare_spec (y - inject_Z f) (1 # 2)) as [Heq|Hlt|Hgt].
  - destruct (Z.even f); [lia|]. split; [lia|]. apply Hstep. rewrite Heq. reflexivity.
  - lia.
  - split; [lia|]. apply Hstep. lra.
Qed.

(** Rounding to two decimals keeps a score below a bound that is itself a
    whole number. *)
Lemma round2_bounded (hi : Z) (x : Q) :
  bounded (inject_Z hi) x -> bounded (inject_Z hi) (PyNum.round2 x).
Proof.
  intros [Hlo Hhi]. unfold PyNum.round2.
  destruct (round_half_even_range (x * 100) 0 (hi * 100)) as [H0 H1].
  - change (inject_Z 0) with 0. lra.
  - rewrite inject_Z_mult. change (inject_Z 100) with 100. lra.
  - rewrite Zle_Qle in H0, H1. rewrite inject_Z_mult in H1.
    change (inject_Z 0) with 0 in H0. change (inject_Z 100) with 100 in H1.
    unfold bounded, Qdiv. change (/ 100) with (1 # 100). lra.
Qed.

Lemma round2_in_range (x : Q) : in_range x -> in_range (PyNum.round2 x).
Proof. exact (round2_bounded 100 x). Qed.

Lemma sum_bounds (hi : Q) (l : list Q) (a : Q) :
  List.Forall (bounded hi) l ->
  a <= fold_left Qplus l a <= a + hi * PyNum.of_nat (List.length l).
Proof.
  intros Hall. revert a. induction Hall as [|x l [Hx0 Hx1] _ IH]; intros a.
  - simpl. change (PyNum.of_nat 0) with 0. lra.
  - cbn [fold_left List.length]. specialize (IH (a + x)).
    rewrite of_nat_S. lra.
Qed.

(** The mean of a non-empty list of bounded scores is bounded. *)
Lemma mean_bounded (hi : Q) (l : list Q) :
  l <> [] -> List.Forall (bounded hi) l ->
  bounded hi (PyNum.sum l / PyNum.of_nat (List.length l)).
Proof.
  intros Hne Hall. unfold PyNum.sum.
  pose proof (sum_bounds hi l 0 Hall) as [Hlo Hhi].
  assert (Hpos : 0 < PyNum.of_nat (List.length l)).
  { apply of_nat_pos. destruct l; [congruence | simpl; lia]. }
  split.
  - apply Qle_shift_div_l; [exact Hpos | lra].
  - apply Qle_shift_div_r; [exact Hpos | lra].
Qed.

Lemma bounded_weaken (lo hi x : Q) : lo <= hi -> bounded lo x -> bounded hi x.
Proof. intros H [H0 H1]. split; lra. Qed.

Lemma count_if_le {A : Type} (p : A -> bool) (l : list A) :
  (PyNum.count_if p l <= List.length l)%nat.
Proof. unfold PyNum.count_if. apply List.filter_length_le. Qed.

Lemma distinct_le {A : Type} (eq_dec : forall x y : A, {x = y} + {x <> y}) (l : list A) :
  (distinct eq_dec l <= List.length l)%nat.
Proof.
  unfold distinct. induction l as [|x l IH]; simpl; [lia|].
  destruct (in_dec eq_dec x l); simpl; lia.
Qed.

(** *** The helpers of the readability score *)

Lemma word_complexity_in_range (words : list string) :
  in_range (_calculate_word_complexity_score words).
Proof.
  unfold _calculate_word_complexity_score.
  destruct words as [|w words]; [split; lra|].
  set (l := w :: words).
  set (avg := PyNum.sum (map (fun w0 => PyNum.of_nat (String.length w0)) l)
              / PyNum.of_nat (List.length l)).
  assert (Havg : 0 <= avg).
  { apply ratio_nonneg.
    - unfold PyNum.sum.
      assert (H : forall (m : list string) a,
                 a <= fold_left Qplus (map (fun w0 => PyNum.of_nat (String.length w0)) m) a).
      { induction m as [|x m IH]; intros a; simpl; [lra|].
        specialize (IH (a + PyNum.of_nat (String.length x))).
        pose proof (of_nat_nonneg (String.length x)). lra. }
      apply H.
    - apply of_nat_pos. simpl. lia. }
  destruct (Qle_bool 4 avg && Qle_bool avg 7) eqn:E1; [split; lra|].
  destruct (PyNum.ltb avg 4) eqn:E2.
  - apply PyNumFacts.ltb_true in E2. unfold in_range, bounded, Qdiv.
    change (/ 4) with (1 # 4). lra.
  - apply PyNumFacts.ltb_false in E2. apply max0_in_range.
    apply andb_false_iff in E1. destruct E1 as [E1|E1].
    + exfalso. apply Qle_bool_iff in E2. congruence.
    + assert (7 < avg) by (apply Qnot_le_lt; intros H; apply Qle_bool_iff in H; congruence).
      lra.
Qed.

Lemma count_present_le (words : list string) (text : string) :
  (count_present words text <= List.length words)%nat.
Proof. apply count_if_le. Qed.

Lemma inject_Z_bounded (z hi : Z) :
  (0 <= z <= hi)%Z -> bounded (inject_Z hi) (inject_Z z).
Proof.
  intros [H0 H1]. split.
  - change 0 with (inject_Z 0). rewrite <- Zle_Qle. exact H0.
  - rewrite <- Zle_Qle. exact H1.
Qed.

(** The style score lies in [0, 106]; it exceeds 100 only for the casual
    style, whose branch is the one without an upper clamp that can pass
    100 (seven indicators worth 8 points each on top of 50). *)
Lemma style_alignment_bounds (content writing_style : string) :
  bounded 106 (_calculate_style_alignment content writing_style)
  /\ (writing_style <> "casual" ->
      in_range (_calculate_style_alignment content writing_style)).
Proof.
  unfold _calculate_style_alignment.
  destruct (String.eqb_spec writing_style "formal") as [->|Hf].
  { match goal with |- context [Z.max 0 (50 + Z.of_nat (count_present ?a ?t) * 10
                                          - Z.of_nat (count_present ?b ?t) * 5)] =>
      pose proof (count_present_le a t) as Ha; pose proof (count_present_le b t) as Hb
    end.
    cbn [List.length] in Ha, Hb.
    split; [|intros _]; [apply (bounded_weaken 100); [lra|] | ];
      apply (inject_Z_bounded _ 100); lia. }
  destruct (String.eqb_spec writing_style "casual") as [->|Hc].
  { match goal with |- context [Z.max 0 (50 + Z.of_nat (count_present ?a ?t) * 8
                                          - Z.of_nat (count_present ?b ?t) * 5)] =>
      pose proof (count_present_le a t) as Ha; pose proof (count_present_le b t) as Hb
    end.
    cbn [List.length] in Ha, Hb.
    split; [|congruence]. apply (inject_Z_bounded _ 106). lia. }
  destruct (String.eqb_spec writing_style "technical") as [->|Ht].
  { split; [|intros _]; [apply (bounded_weaken 100); [lra|] | ];
      apply (inject_Z_bounded _ 100); lia. }
  destruct (String.eqb_spec writing_style "creative") as [->|Hcr].
  { split; [|intros _]; [apply (bounded_weaken 100); [lra|] | ];
      apply (inject_Z_bounded _ 100); lia. }
  split; [|intros _]; split; lra.
Qed.

Lemma fold_left_invariant {A B : Type} (P : A -> Prop) (f : A -> B -> A)
      (l : list B) (a : A) :
  P a -> (forall a b, P a -> P (f a b)) -> P (fold_left f l a).
Proof.
  intros Ha Hstep. revert a Ha. induction l as [|b l IH]; intros a Ha; simpl.
  - exact Ha.
  - apply IH. apply Hstep. exact Ha.
Qed.

Lemma max_in_range (a b : Q) : in_range a -> in_range b -> in_range (PyNum.max a b).
Proof.
  intros [Ha0 Ha1] [Hb0 Hb1]. split.
  - apply Qle_trans with a; [exact Ha0 | apply max_ge_l].
  - apply max_le; assumption.
Qed.

Lemma audience_alignment_in_range (content target_audience : string) :
  in_range (_calculate_audience_alignment content target_audience).
Proof.
  unfold _calculate_audience_alignment.
  apply (fold_left_invariant in_range); [split; lra|].
  intros best [audience_type keywords] Hbest.
  assert (Hm : in_range (PyNum.min 100 (PyNum.of_nat
                 (count_present keywords (PyStr.lower content)) * 20))).
  { apply min100_in_range.
    pose proof (of_nat_nonneg (count_present keywords (PyStr.lower content))). lra. }
  destruct (PyStr.contains _ _); [apply max_in_range; assumption|].
  destruct (String.eqb _ _); [|exact Hbest].
  apply max_in_range; [exact Hbest|]. destruct Hm. split; lra.
Qed.

Lemma topic_score_in_range (topics : list string) (content_lower : string) :
  nonempty topics = true ->
  in_range (PyNum.min 100
              (PyNum.of_nat (topic_matches topics content_lower)
               / PyNum.of_nat (List.length topics) * 100)).
Proof.
  intros Hne. apply min100_in_range.
  assert (0 <= PyNum.of_nat (topic_matches topics content_lower)
               / PyNum.of_nat (List.length topics)).
  { apply ratio_nonneg; [apply of_nat_nonneg|].
    apply of_nat_pos. destruct topics; [discriminate | simpl; lia]. }
  lra.
Qed.

(** The profile-alignment sub-score is the mean of scores that are all
    at most 100 except possibly the style score. *)
Lemma profile_alignment_bounded_by (hi : Z) (content : string) (profile : UserProfile) :
  (100 <= hi)%Z ->
  bounded (inject_Z hi) (_calculate_style_alignment content (writing_style profile)) ->
  bounded (inject_Z hi) (_calculate_user_profile_alignment content (Some profile)).
Proof.
  intros Hhi Hstyle.
  assert (Hle : 100 <= inject_Z hi).
  { change 100 with (inject_Z 100). rewrite <- Zle_Qle. exact Hhi. }
  assert (Hw : forall x, in_range x -> bounded (inject_Z hi) x).
  { intros x Hx. apply (bounded_weaken 100); assumption. }
  unfold _calculate_user_profile_alignment.
  set (scores0 := if nonempty (preferred_topics profile) then _ else _).
  set (scores1 := scores0 ++ [_]).
  set (scores2 := if nonempty (expertise_areas profile) then _ else _).
  set (scores3 := match target_audience profile with Some _ => _ | None => _ end).
  assert (H0 : List.Forall (bounded (inject_Z hi)) scores0).
  { unfold scores0. destruct (nonempty (preferred_topics profile)) eqn:E.
    - cbn [app]. apply List.Forall_cons; [|apply List.Forall_nil]. apply Hw. apply topic_score_in_range. exact E.
    - constructor. }
  assert (H1 : List.Forall (bounded (inject_Z hi)) scores1).
  { unfold scores1. apply List.Forall_app. split; [exact H0|]. apply List.Forall_cons; [|apply List.Forall_nil].
    exact Hstyle. }
  assert (H2 : List.Forall (bounded (inject_Z hi)) scores2).
  { unfold scores2. destruct (nonempty (expertise_areas profile)) eqn:E; [|exact H1].
    apply List.Forall_app. split; [exact H1|]. apply List.Forall_cons; [|apply List.Forall_nil].
    apply Hw. apply topic_score_in_range. exact E. }
  assert (H3 : List.Forall (bounded (inject_Z hi)) scores3).
  { unfold scores3. destruct (target_audience profile) as [audience|]; [|exact H2].
    destruct (PyStr.is_empty audience); [exact H2|].
    apply List.Forall_app. split; [exact H2|]. apply List.Forall_cons; [|apply List.Forall_nil].
    apply Hw. apply audience_alignment_in_range. }
  destruct (nonempty scores3) eqn:E3.
  - apply round2_bounded. apply mean_bounded; [|exact H3].
    destruct scores3; [discriminate | discriminate].
  - split; lra.
Qed.

Section WithRe.
Variable re : Re.engine.

Lemma punctuation_in_range (content : string) :
  in_range (_calculate_punctuation_score re content).
Proof.
  unfold _calculate_punctuation_score.
  destruct (List.length (_extract_words re content) =? 0)%nat eqn:E0; [split; lra|].
  apply Nat.eqb_neq in E0.
  match goal with |- context [PyNum.of_nat ?n / PyNum.of_nat ?m] =>
    set (ratio := PyNum.of_nat n / PyNum.of_nat m);
    assert (Hr : 0 <= ratio)
      by (apply ratio_nonneg; [apply of_nat_nonneg | apply of_nat_pos; lia])
  end.
  destruct (Qle_bool 0.1 ratio && Qle_bool ratio 0.3) eqn:E1; [split; lra|].
  destruct (PyNum.ltb ratio 0.1) eqn:E2.
  - apply PyNumFacts.ltb_true in E2. unfold in_range, bounded, Qdiv.
    change (/ 0.1) with 10. lra.
  - apply PyNumFacts.ltb_false in E2. apply max0_in_range.
    apply andb_false_iff in E1. destruct E1 as [E1|E1].
    + exfalso. apply Qle_bool_iff in E2. congruence.
    + assert (0.3 < ratio) by (apply Qnot_le_lt; intros H; apply Qle_bool_iff in H; congruence).
      lra.
Qed.

Lemma paragraph_structure_in_range (content : string) :
  in_range (_calculate_paragraph_structure_score re content).
Proof.
  unfold _calculate_paragraph_structure_score.
  generalize (map PyStr.strip
                  (List.filter (fun p => negb (PyStr.is_empty (PyStr.strip p)))
                               (PyStr.split content PyStr.LFLF))).
  intros [|p rest]; [split; lra|].
  cbv zeta. apply mean_bounded.
  - discriminate.
  - apply List.Forall_map. apply List.Forall_forall. intros para _. cbv zeta.
    set (n := _count_sentences re para).
    destruct ((3 <=? n)%nat && (n <=? 8)%nat) eqn:E1; [split; lra|].
    destruct (n <? 3)%nat eqn:E2.
    + apply Nat.ltb_lt in E2.
      pose proof (of_nat_nonneg n). pose proof (of_nat_le n 2 ltac:(lia)) as H2.
      change (PyNum.of_nat 2) with 2 in H2. split; lra.
    + apply Nat.ltb_ge in E2. apply max0_in_range.
      apply andb_false_iff in E1.
      assert (9 <= n)%nat by (destruct E1 as [E1|E1];
                              [apply Nat.leb_gt in E1 | apply Nat.leb_gt in E1]; lia).
      pose proof (of_nat_le 9 n ltac:(lia)) as H9.
      change (PyNum.of_nat 9) with 9 in H9. lra.
Qed.

Lemma readability_in_range (content : string) (user_profile : option UserProfile) :
  in_range (_calculate_readability_score re content user_profile).
Proof.
  unfold _calculate_readability_score.
  destruct (_ || _); [split; lra|].
  apply round2_in_range. apply clamp_in_range.
Qed.

Lemma keyword_relevance_in_range (content : string) (user_profile : option UserProfile) :
  in_range (_calculate_keyword_relevance re content user_profile).
Proof.
  unfold _calculate_keyword_relevance.
  destruct (_ =? 0)%nat; [split; lra|].
  apply round2_in_range.
  match goal with
  | |- _ (?d * 0.4 + ?v * 0.35 + ?p * 0.25) =>
      assert (Hd : in_range d) by apply clamp_in_range;
      assert (Hv : in_range v)
        by (apply min100_in_range;
            match goal with |- 0 <= PyNum.of_nat ?n * 5 =>
              pose proof (of_nat_nonneg n); lra end);
      assert (Hp : in_range p)
  end.
  { destruct user_profile as [profile|]; [|split; lra].
    destruct (nonempty (preferred_topics profile)); [|split; lra].
    apply min100_in_range.
    match goal with |- 0 <= PyNum.of_nat ?n * 25 => pose proof (of_nat_nonneg n); lra end. }
  destruct Hd, Hv, Hp. split; lra.
Qed.

Lemma content_structure_in_range (content : string) :
  in_range (_calculate_content_structure_score re content).
Proof.
  unfold _calculate_content_structure_score. cbv zeta.
  apply round2_in_range. apply mean_bounded.
  - rewrite app_nil_l. destruct (nonempty _); discriminate.
  - rewrite app_nil_l.
    assert (Hpara : forall n : nat,
               in_range
                 (if (3 <=? n)%nat && (n <=? 8)%nat then 100
                  else if (n <? 3)%nat then PyNum.max 0 (PyNum.of_nat n * 33.3)
                       else PyNum.max 0 (100 - (PyNum.of_nat n - 8) * 10))).
    { intros n.
      destruct ((3 <=? n)%nat && (n <=? 8)%nat) eqn:E1; [split; lra|].
      destruct (n <? 3)%nat eqn:E2; apply max0_in_range.
      - apply Nat.ltb_lt in E2. pose proof (of_nat_le n 2 ltac:(lia)) as H2.
        change (PyNum.of_nat 2) with 2 in H2. lra.
      - apply Nat.ltb_ge in E2. apply andb_false_iff in E1.
        assert (9 <= n)%nat by (destruct E1 as [E1|E1];
                                [apply Nat.leb_gt in E1 | apply Nat.leb_gt in E1]; lia).
        pose proof (of_nat_le 9 n ltac:(lia)) as H9.
        change (PyNum.of_nat 9) with 9 in H9. lra. }
    assert (Hhead : forall n : nat, in_range (PyNum.min 100 (PyNum.of_nat n * 25))).
    { intros n. apply min100_in_range. pose proof (of_nat_nonneg n). lra. }
    set (sentences := map PyStr.strip _).
    destruct (nonempty sentences) eqn:Hs.
    + cbn [app]; repeat apply List.Forall_cons;
        try apply List.Forall_nil;
        [apply Hpara | apply clamp_in_range | | apply Hhead].
      set (lens := map (fun s => List.length (PyStr.split_ws s)) sentences).
      assert (Hpos : (0 < List.length lens)%nat).
      { unfold lens. rewrite List.length_map. destruct sentences; [discriminate | simpl; lia]. }
      destruct (ratio_bounds (PyNum.of_nat (distinct Nat.eq_dec lens))
                             (PyNum.of_nat (List.length lens))) as [H0 H1].
      * apply of_nat_nonneg.
      * apply of_nat_le. apply distinct_le.
      * apply of_nat_pos. exact Hpos.
      * split; lra.
    + cbn [app]; repeat apply List.Forall_cons;
        try apply List.Forall_nil; [apply Hpara | apply Hhead].
Qed.

Lemma count_true_le (l : list bool) : (count_true l <= List.length l)%nat.
Proof. apply count_if_le. Qed.

Lemma seo_in_range (content : string) :
  in_range (_calculate_seo_score re content).
Proof.
  unfold _calculate_seo_score. cbv zeta.
  apply round2_in_range. apply mean_bounded; [discriminate|].
  rewrite !app_nil_l.
  cbn [app]; repeat apply List.Forall_cons; try apply List.Forall_nil.
  - set (n := List.length (_extract_words re content)).
    destruct ((800 <=? n)%nat && (n <=? 2000)%nat) eqn:E1; [split; lra|].
    destruct (n <? 800)%nat eqn:E2.
    + apply Nat.ltb_lt in E2. pose proof (of_nat_nonneg n).
      pose proof (of_nat_le n 800 ltac:(lia)) as H8.
      change (PyNum.of_nat 800) with 800 in H8.
      unfold in_range, bounded, Qdiv. change (/ 800) with (1 # 800). lra.
    + apply Nat.ltb_ge in E2. apply max0_in_range. apply andb_false_iff in E1.
      assert (2000 <= n)%nat by (destruct E1 as [E1|E1];
                                 [apply Nat.leb_gt in E1 | apply Nat.leb_gt in E1]; lia).
      pose proof (of_nat_le 2000 n ltac:(lia)) as H2.
      change (PyNum.of_nat 2000) with 2000 in H2.
      unfold Qdiv. change (/ 100) with (1 # 100). lra.
  - destruct (_ && _); [split; lra|]. apply max0_in_range.
    match goal with |- 100 - Qabs ?x * 25 <= 100 => pose proof (Qabs_nonneg x); lra end.
  - match goal with |- context [count_true ?l] =>
      pose proof (of_nat_nonneg (count_true l));
      pose proof (of_nat_le _ _ (count_true_le l)) as H3
    end.
    change (PyNum.of_nat (List.length _)) with 3 in H3. split; lra.
  - match goal with |- context [count_true ?l] =>
      pose proof (of_nat_nonneg (count_true l));
      pose proof (of_nat_le _ _ (count_true_le l)) as H2
    end.
    change (PyNum.of_nat (List.length _)) with 2 in H2. split; lra.
Qed.

Lemma engagement_in_range (content : string) :
  in_range (_calculate_engagement_score re content).
Proof.
  unfold _calculate_engagement_score. cbv zeta.
  apply round2_in_range. apply mean_bounded; [discriminate|].
  rewrite !app_nil_l.
  cbn [app]; repeat apply List.Forall_cons; try apply List.Forall_nil;
    apply min100_in_range.
  - match goal with |- 0 <= (PyNum.of_nat ?n / ?d) * 50 =>
      assert (0 <= PyNum.of_nat n / d)
        by (apply ratio_nonneg; [apply of_nat_nonneg|];
            apply Qlt_le_trans with 1; [reflexivity | apply max_ge_l]);
      lra
    end.
  - match goal with |- 0 <= PyNum.of_nat ?n * _ => pose proof (of_nat_nonneg n); lra end.
  - match goal with |- 0 <= PyNum.of_nat ?n * _ => pose proof (of_nat_nonneg n); lra end.
  - match goal with |- 0 <= PyNum.of_nat ?n * _ => pose proof (of_nat_nonneg n); lra end.
Qed.

(** Five of the six sub-scores are scores whatever the text, the profile
    and the answers of the regular-expression engine. *)
Theorem five_sub_scores_in_range (content : string) (user_profile : option UserProfile) :
  in_range (_calculate_keyword_relevance re content user_profile)
  /\ in_range (_calculate_readability_score re content user_profile)
  /\ in_range (_calculate_content_structure_score re content)
  /\ in_range (_calculate_seo_score re content)
  /\ in_range (_calculate_engagement_score re content).
Proof.
  split; [apply keyword_relevance_in_range|].
  split; [apply readability_in_range|].
  split; [apply content_structure_in_range|].
  split; [apply seo_in_range | apply engagement_in_range].
Qed.

End WithRe.

(** The profile is absent or does not ask for the casual style. *)
Definition not_casual (user_profile : option UserProfile) : Prop :=
  match user_profile with
  | Some profile => writing_style profile <> "casual"
  | None => True
  end.

Lemma profile_alignment_not_casual (content : string) (user_profile : option UserProfile) :
  not_casual user_profile ->
  in_range (_calculate_user_profile_alignment content user_profile).
Proof.
  intros Hstyle. destruct user_profile as [profile|]; [|split; simpl; lra].
  apply (profile_alignment_bounded_by 100); [lia|].
  apply style_alignment_bounds. exact Hstyle.
Qed.

(** The profile-alignment sub-score never exceeds 106; it is the neutral
    50 without a profile, and a score in [0, 100] for every profile that
    does not ask for the casual style. *)
Theorem profile_alignment_bounds (content : string) (user_profile : option UserProfile) :
  bounded 106 (_calculate_user_profile_alignment content user_profile)
  /\ _calculate_user_profile_alignment content None = 50
  /\ (not_casual user_profile ->
      in_range (_calculate_user_profile_alignment content user_profile)).
Proof.
  split; [|split; [reflexivity|]].
  - destruct user_profile as [profile|]; [|split; simpl; lra].
    apply (profile_alignment_bounded_by 106); [lia|].
    apply style_alignment_bounds.
  - apply profile_alignment_not_casual.
Qed.

Lemma field_ok_in_range (x : Q) : in_range x -> field_ok x = true.
Proof.
  intros [H0 H1]. unfold field_ok.
  apply andb_true_iff. split; apply Qle_bool_iff; assumption.
Qed.

Lemma weighted_sum_in_range (b : ScoreBreakdown) :
  in_range (keyword_relevance b) -> in_range (readability b) ->
  in_range (user_profile_alignment b) -> in_range (content_structure b) ->
  in_range (seo_optimization b) -> in_range (engagement_potential b) ->
  in_range (weighted_sum b).
Proof.
  intros [? ?] [? ?] [? ?] [? ?] [? ?] [? ?].
  unfold in_range, bounded. rewrite (ScoringFacts.weighted_sum_unfold b). split; lra.
Qed.

(** For an absent profile and for every profile that does not ask for the
    casual style, [calculate_comprehensive_score] returns: the breakdown
    is accepted, it holds the six sub-scores under their six names, each
    in [0, 100], and the overall score is in [0, 100] too. *)
Theorem comprehensive_score_returns
        (re : Re.engine) (content : string) (user_profile : option UserProfile)
        (now : Time) :
  not_casual user_profile ->
  exists r,
    calculate_comprehensive_score re content user_profile now = inr r
    /\ in_range (result_overall_score r)
    /\ map fst (result_breakdown r)
       = [ "keyword_relevance"; "readability"; "user_profile_alignment";
           "content_structure"; "seo_optimization"; "engagement_potential" ]
    /\ List.Forall in_range (map snd (result_breakdown r))
    /\ result_analysis_timestamp r = now.
Proof.
  intros Hstyle.
  pose proof (keyword_relevance_in_range re content user_profile) as Hk.
  pose proof (readability_in_range re content user_profile) as Hr.
  pose proof (content_structure_in_range re content) as Hs.
  pose proof (seo_in_range re content) as Hseo.
  pose proof (engagement_in_range re content) as He.
  pose proof (profile_alignment_not_casual content user_profile Hstyle) as Hp.
  unfold calculate_comprehensive_score, ScoreBreakdown_new.
  rewrite !field_ok_in_range by assumption. cbn [andb].
  eexists. split; [reflexivity|].
  cbn [score_result result_overall_score result_breakdown result_analysis_timestamp].
  split; [|split; [reflexivity|split; [|reflexivity]]].
  - apply round2_in_range. apply weighted_sum_in_range; assumption.
  - cbn. repeat (apply List.Forall_cons; [assumption|]). apply List.Forall_nil.
Qed.

(** An engine that finds no match at all, and a writer of formal prose. *)
Definition silent_engine : Re.engine :=
  {| Re.findall := fun _ _ _ => [];
     Re.split := fun _ text => [text];
     Re.is_match := fun _ _ => false;
     Re.search := fun _ _ _ => false |}.

Definition formal_writer : UserProfile :=
  {| user_id := "u2"; preferred_topics := ["testing"]; reading_level := "advanced";
     writing_style := "formal"; target_audience := Some "technical";
     expertise_areas := [] |}.

Lemma comprehensive_score_returns_witness :
  not_casual (Some formal_writer)
  /\ exists r,
       calculate_comprehensive_score silent_engine "However, testing matters."
                                     (Some formal_writer) 0
       = inr r
       /\ in_range (result_overall_score r).
Proof.
  assert (H : not_casual (Some formal_writer)) by (cbn; discriminate).
  split; [exact H|].
  destruct (comprehensive_score_returns silent_engine "However, testing matters."
                                        (Some formal_writer) 0 H)
    as (r & Hr & Ho & _).
  exists r. split; [exact Hr | exact Ho].
Defined.

Lemma profile_alignment_bounds_witness :
  not_casual (Some formal_writer)
  /\ in_range (_calculate_user_profile_alignment "However, testing matters."
                                                 (Some formal_writer)).
Proof.
  assert (H : not_casual (Some formal_writer)) by (cbn; discriminate).
  split; [exact H|].
  exact (proj2 (proj2 (profile_alignment_bounds "However, testing matters."
                                                (Some formal_writer))) H).
Defined.

End RangeFacts.

(** ** The retry executor: waits and non-retryable failures *)
Module RetryMore.
Import Retry.
Local Open Scope Q_scope.

Section Executor.
Context {V E : Type}.
Variable func : nat -> outcome V E.
Variable random : nat -> Q.
Variable opts : options E.

(** The wait that follows the failed attempt [j]: it uses the [j]-th
    random draw. *)
Definition wait_after (j : nat) : Q := delay_for random opts j j.

Lemma attempts_schedule (fuel : nat) :
  forall attempt last w,
    calls w = attempt ->
    sleeps w = map wait_after (seq 0 attempt) ->
    (0 < fuel)%nat ->
    Z.of_nat (attempt + fuel) = (max_retries opts + 1)%Z ->
    let r := attempts func random opts fuel attempt last w in
    sleeps (snd r) = map wait_after (seq 0 (calls (snd r) - 1))
    /\ (attempt < calls (snd r))%nat.
Proof.
  induction fuel as [|fuel IH]; intros attempt last w Hcalls Hsleeps Hpos Hfuel; [lia|].
  cbn [attempts]. rewrite Hcalls.
  assert (Hstop : forall res : result V E,
             let r := (res, {| calls := S attempt; sleeps := sleeps w |}) in
             sleeps (snd r) = map wait_after (seq 0 (calls (snd r) - 1))
             /\ (attempt < calls (snd r))%nat).
  { intros res. cbn. rewrite Nat.sub_0_r. split; [exact Hsleeps | lia]. }
  destruct (func attempt) as [v|e]; [apply Hstop|].
  destruct (retry_exceptions opts e); [|apply Hstop].
  destruct (Z.eqb_spec (Z.of_nat attempt) (max_retries opts)) as [Hlast|Hmore];
    [apply Hstop|].
  cbn [calls sleeps].
  destruct (IH (S attempt) (Some e)
               {| calls := S attempt;
                  sleeps := sleeps w
                            ++ [delay_for random opts attempt (List.length (sleeps w))] |})
    as [H1 H2]; try reflexivity; try lia.
  - cbn [sleeps]. rewrite Hsleeps, List.length_map, List.length_seq.
    rewrite List.seq_S, List.map_app. reflexivity.
  - split; [exact H1 | lia].
Qed.

(** With a non-negative [max_retries] the operation is awaited at least
    once, and the waits of a run are exactly the waits after the attempts
    that were followed by another attempt, in order: one wait fewer than
    there were calls. *)
Theorem backoff_schedule :
  (0 <= max_retries opts)%Z ->
  let run := retry_with_exponential_backoff func random opts in
  (1 <= calls (snd run))%nat
  /\ sleeps (snd run) = map wait_after (seq 0 (calls (snd run) - 1)).
Proof.
  intros Hmax run. unfold run, retry_with_exponential_backoff.
  destruct (attempts_schedule (Z.to_nat (max_retries opts + 1)) 0 None
                              {| calls := 0; sleeps := [] |})
    as [H1 H2]; try reflexivity; try lia.
  split; [lia | exact H1].
Qed.

Lemma attempts_sleeps_forall (P : Q -> Prop) :
  (forall attempt draws, P (delay_for random opts attempt draws)) ->
  forall fuel attempt last w,
    List.Forall P (sleeps w) ->
    List.Forall P (sleeps (snd (attempts func random opts fuel attempt last w))).
Proof.
  intros Hdelay. induction fuel as [|fuel IH]; intros attempt last w Hw; cbn [attempts].
  - exact Hw.
  - destruct (func (calls w)) as [v|e]; [exact Hw|].
    destruct (retry_exceptions opts e); [|exact Hw].
    destruct (Z.of_nat attempt =? max_retries opts)%Z; [exact Hw|].
    apply IH. cbn [sleeps]. apply List.Forall_app. split; [exact Hw|].
    apply List.Forall_cons; [apply Hdelay | apply List.Forall_nil].
Qed.

(** One wait lies between 0 and [max_delay] when the two delays and the
    base are non-negative and the random draw is in [0, 1). *)
Lemma delay_for_bounds (attempt draws : nat) :
  0 <= base_delay opts -> 0 <= exponential_base opts -> 0 <= max_delay opts ->
  (forall k, 0 <= random k < 1) ->
  0 <= delay_for random opts attempt draws <= max_delay opts.
Proof.
  intros Hbase Hexp Hmax Hrand. unfold delay_for.
  set (nominal := PyNum.min (base_delay opts * exponential_base opts ^ Z.of_nat attempt)
                            (max_delay opts)).
  assert (Hn0 : 0 <= nominal).
  { apply RangeFacts.min_ge; [|exact Hmax].
    apply Qmult_le_0_compat; [exact Hbase | apply Qpower_0_le; exact Hexp]. }
  assert (Hn1 : nominal <= max_delay opts) by apply RangeFacts.min_le_r.
  destruct (jitter opts); [|split; assumption].
  destruct (Hrand draws) as [Hr0 Hr1].
  split.
  - apply Qmult_le_0_compat; [exact Hn0 | lra].
  - pose proof (Qmult_le_0_compat nominal (1 - (0.5 + random draws * 0.5)) Hn0
                                  ltac:(lra)) as Hprod.
    lra.
Qed.

(** Every wait of a run lies between 0 and [max_delay]. *)
Theorem waits_bounded :
  0 <= base_delay opts -> 0 <= exponential_base opts -> 0 <= max_delay opts ->
  (forall k, 0 <= random k < 1) ->
  List.Forall (fun d => 0 <= d <= max_delay opts)
              (sleeps (snd (retry_with_exponential_backoff func random opts))).
Proof.
  intros Hbase Hexp Hmax Hrand. unfold retry_with_exponential_backoff.
  apply attempts_sleeps_forall; [|apply List.Forall_nil].
  intros attempt draws. apply delay_for_bounds; assumption.
Qed.

(** The first failure outside the retryable set ends the run at once:
    its exception is raised as it is (not wrapped in [RetryError]), no
    further attempt is made and no wait follows it. *)
Theorem non_retryable_propagates (k : nat) (e : E) :
  (0 <= max_retries opts)%Z ->
  (k <= Z.to_nat (max_retries opts))%nat ->
  (forall j, (j < k)%nat -> RetryFacts.retryable_failure func opts j) ->
  func k = Failure e ->
  retry_exceptions opts e = false ->
  let run := retry_with_exponential_backoff func random opts in
  fst run = Propagated e
  /\ calls (snd run) = S k
  /\ List.length (sleeps (snd run)) = k.
Proof.
  intros Hmax Hk Hbefore Hfail Hfatal run.
  set (n := Z.to_nat (max_retries opts)) in *.
  assert (Hfuel : Z.to_nat (max_retries opts + 1) = S n) by (unfold n; lia).
  pose proof (RetryFacts.attempts_ending func random opts (S n) 0 None
                {| calls := 0; sleeps := [] |} eq_refl ltac:(unfold n; lia)) as Hend.
  destruct (attempts_schedule (S n) 0 None {| calls := 0; sleeps := [] |})
    as [Hsched _]; try reflexivity; try lia.
  assert (Hrun : run = attempts func random opts (S n) 0 None {| calls := 0; sleeps := [] |}).
  { unfold run, retry_with_exponential_backoff. rewrite Hfuel. reflexivity. }
  rewrite <- Hrun in Hend, Hsched.
  assert (Hlen : List.length (sleeps (snd run)) = (calls (snd run) - 1)%nat).
  { rewrite Hsched, List.length_map, List.length_seq. reflexivity. }
  assert (Hnot : forall j, RetryFacts.retryable_failure func opts j -> j <> k).
  { intros j (e' & Hj & Hr) ->. rewrite Hfail in Hj. injection Hj as <-. congruence. }
  destruct Hend as [k' v w' Hk' Hfail' Hs Hc Hl
                   |k' e' w' Hk' Hfail' Hs Hne Hc
                   |e' w' Hpos Hfail' Hs Hc Hl
                   |Hzero]; cbn [fst snd] in *; [| | |lia].
  - exfalso. destruct (Nat.lt_trichotomy k' k) as [Hlt|[->|Hgt]].
    + destruct (Hbefore k' Hlt) as (e' & He' & _). congruence.
    + congruence.
    + apply (Hnot k (Hfail' k ltac:(lia))). reflexivity.
  - destruct (Nat.lt_trichotomy k' k) as [Hlt|[->|Hgt]].
    + exfalso. destruct (Hbefore k' Hlt) as (e'' & He'' & Hr). congruence.
    + assert (e' = e) as -> by congruence.
      split; [reflexivity|]. split; [exact Hc | lia].
    + exfalso. apply (Hnot k (Hfail' k ltac:(lia))). reflexivity.
  - exfalso. apply (Hnot k (Hfail' k ltac:(lia))). reflexivity.
Qed.

(** A negative [max_retries] leaves the range of attempts empty: the
    operation is never awaited and [RetryError] wraps no exception. *)
Theorem negative_max_retries_never_calls :
  (max_retries opts < 0)%Z ->
  retry_with_exponential_backoff func random opts
  = (RetryError None, {| calls := 0; sleeps := [] |}).
Proof.
  intros Hneg. unfold retry_with_exponential_backoff.
  replace (Z.to_nat (max_retries opts + 1)) with 0%nat by lia. reflexivity.
Qed.

End Executor.

(** An operation that is rejected on its second attempt with an exception
    outside the retryable set. *)
Definition rejected (k : nat) : outcome Z string :=
  match k with
  | 0%nat => Failure "timeout"
  | _ => Failure "bad request"
  end.

Definition retry_timeouts_only (max : Z) : options string :=
  {| max_retries := max; base_delay := 1; max_delay := 60;
     exponential_base := 2; jitter := true;
     retry_exceptions := fun e => String.eqb e "timeout" |}.

Definition half : nat -> Q := fun _ => 1 # 2.

Lemma backoff_schedule_witness :
  (0 <= max_retries (retry_timeouts_only 3))%Z
  /\ sleeps (snd (retry_with_exponential_backoff rejected half (retry_timeouts_only 3)))
     = map (wait_after half (retry_timeouts_only 3))
           (seq 0 (calls (snd (retry_with_exponential_backoff
                                 rejected half (retry_timeouts_only 3))) - 1)).
Proof.
  assert (H : (0 <= max_retries (retry_timeouts_only 3))%Z) by (cbn; lia).
  split; [exact H|].
  exact (proj2 (backoff_schedule rejected half (retry_timeouts_only 3) H)).
Defined.

Lemma waits_bounded_witness :
  (0 <= base_delay (retry_timeouts_only 3)
   /\ 0 <= exponential_base (retry_timeouts_only 3)
   /\ 0 <= max_delay (retry_timeouts_only 3)
   /\ forall k, 0 <= half k < 1)
  /\ List.Forall (fun d => 0 <= d <= max_delay (retry_timeouts_only 3))
                 (sleeps (snd (retry_with_exponential_backoff
                                 RetryFacts.flaky half (retry_timeouts_only 3)))).
Proof.
  assert (H1 : 0 <= base_delay (retry_timeouts_only 3)) by (cbn; lra).
  assert (H2 : 0 <= exponential_base (retry_timeouts_only 3)) by (cbn; lra).
  assert (H3 : 0 <= max_delay (retry_timeouts_only 3)) by (cbn; lra).
  assert (H4 : forall k, 0 <= half k < 1) by (intros k; unfold half; lra).
  split; [repeat split; try assumption; apply H4|].
  exact (waits_bounded RetryFacts.flaky half (retry_timeouts_only 3) H1 H2 H3 H4).
Defined.

Lemma non_retryable_propagates_witness :
  ((0 <= max_retries (retry_timeouts_only 3))%Z
   /\ (1 <= Z.to_nat (max_retries (retry_timeouts_only 3)))%nat
   /\ rejected 1 = Failure "bad request"
   /\ retry_exceptions (retry_timeouts_only 3) "bad request" = false)
  /\ fst (retry_with_exponential_backoff rejected half (retry_timeouts_only 3))
     = Propagated "bad request"
  /\ calls (snd (retry_with_exponential_backoff rejected half (retry_timeouts_only 3)))
     = 2%nat.
Proof.
  assert (H1 : (0 <= max_retries (retry_timeouts_only 3))%Z) by (cbn; lia).
  assert (H2 : (1 <= Z.to_nat (max_retries (retry_timeouts_only 3)))%nat) by (cbn; lia).
  assert (H3 : forall j, (j < 1)%nat ->
                         RetryFacts.retryable_failure rejected (retry_timeouts_only 3) j).
  { intros j Hj. assert (j = 0%nat) as -> by lia. exists "timeout". split; reflexivity. }
  split; [repeat split; try assumption; reflexivity|].
  destruct (non_retryable_propagates rejected half (retry_timeouts_only 3)
                                     1 "bad request" H1 H2 H3 eq_refl eq_refl)
    as (Ha & Hb & _).
  split; [exact Ha | exact Hb].
Defined.

Lemma negative_max_retries_never_calls_witness :
  (max_retries (retry_timeouts_only (-1)) < 0)%Z
  /\ retry_with_exponential_backoff rejected half (retry_timeouts_only (-1))
     = (RetryError None, {| calls := 0; sleeps := [] |}).
Proof.
  assert (H : (max_retries (retry_timeouts_only (-1)) < 0)%Z) by (cbn; lia).
  split; [exact H|].
  exact (negative_max_retries_never_calls rejected half (retry_timeouts_only (-1)) H).
Defined.

End RetryMore.

(** ** The cursor window, the weak sections and the refinement of
    keywords *)
Module AgentMore.
Import Models Agent PyStrFacts.
#[local] Arguments String.append _ _ : simpl nomatch.
Local Open Scope Q_scope.

Lemma substring_length (s : string) :
  forall n m,
    String.length (String.substring n m s) = Nat.min m (String.length s - n).
Proof.
  induction s as [|c s IH]; intros [|n] [|m];
    cbn [String.substring String.length]; rewrite ?IH; lia.
Qed.

Lemma substring_occurs (s : string) :
  forall n m,
    occurs_at s (String.substring n m s) (Nat.min n (String.length s)).
Proof.
  induction s as [|c s IH]; intros n m.
  - exists "", "". destruct n, m; cbn; split; (reflexivity || lia).
  - destruct n as [|n].
    + destruct m as [|m].
      * exists "", (String c s). split; reflexivity.
      * destruct (IH 0%nat m) as (pre & post & Hs & Hlen).
        destruct pre; [|cbn in Hlen; lia].
        exists "", post. split; [|reflexivity].
        cbn. cbn in Hs. rewrite <- Hs. reflexivity.
    + destruct (IH n m) as (pre & post & Hs & Hlen).
      exists (String c pre), post. split.
      * cbn. rewrite <- Hs. reflexivity.
      * cbn. rewrite Hlen. reflexivity.
Qed.

Lemma occurs_substring (s t : string) (k : nat) :
  occurs_at s t k -> String.substring k (String.length t) s = t.
Proof.
  intros (pre & post & -> & <-).
  induction pre as [|c pre IH]; cbn.
  - clear. induction t as [|c t IH]; cbn.
    + destruct post; reflexivity.
    + rewrite IH. reflexivity.
  - exact IH.
Qed.

Lemma occurs_at_inside (s t : string) (k : nat) :
  occurs_at s t k -> (k + String.length t <= String.length s)%nat.
Proof.
  intros (pre & post & -> & <-). rewrite !length_app. lia.
Qed.

(** For a cursor position of at least -100 the context is the part of
    the draft between [max(0, cursor - 100)] and
    [min(len, cursor + 100)]: it has that many characters, at most 200,
    and occurs in the draft at that offset. *)
Theorem cursor_context_window (content : string) (cursor : Z) :
  (-100 <= cursor)%Z ->
  let ctx := _get_cursor_context content cursor in
  let len := Z.of_nat (String.length content) in
  Z.of_nat (String.length ctx)
  = Z.max 0 (Z.min len (cursor + 100) - Z.max 0 (cursor - 100))
  /\ (String.length ctx <= 200)%nat
  /\ occurs_at content ctx (Z.to_nat (Z.min len (Z.max 0 (cursor - 100)))).
Proof.
  intros Hcur ctx len.
  assert (Hctx : ctx = String.substring
                         (Z.to_nat (Z.max 0 (cursor - 100)))
                         (Z.to_nat (Z.min len (cursor + 100) - Z.max 0 (cursor - 100)))
                         content).
  { unfold ctx, _get_cursor_context, PyStr.slice. fold len.
    destruct (Z.ltb_spec (Z.min len (cursor + 100)) 0) as [Hneg|Hpos]; [lia|].
    replace (Z.min (Z.min len (cursor + 100)) len) with (Z.min len (cursor + 100)) by lia.
    reflexivity. }
  assert (Hlen : Z.of_nat (String.length ctx)
                 = Z.max 0 (Z.min len (cursor + 100) - Z.max 0 (cursor - 100))).
  { rewrite Hctx, substring_length. unfold len. lia. }
  split; [exact Hlen|]. split; [lia|].
  rewrite Hctx.
  replace (Z.to_nat (Z.min len (Z.max 0 (cursor - 100))))
    with (Nat.min (Z.to_nat (Z.max 0 (cursor - 100))) (String.length content))
    by (unfold len; lia).
  apply substring_occurs.
Qed.

(** For a cursor position below -100 the end of the window is negative
    and counts from the end of the draft: the context is the draft
    without its last [-(cursor + 100)] characters, however long that
    is. *)
Theorem cursor_context_far_left (content : string) (cursor : Z) :
  (cursor < -100)%Z ->
  let ctx := _get_cursor_context content cursor in
  let len := Z.of_nat (String.length content) in
  Z.of_nat (String.length ctx) = Z.max 0 (len + cursor + 100)
  /\ String.prefix ctx content = true.
Proof.
  intros Hcur ctx len.
  assert (Hctx : ctx = String.substring 0 (Z.to_nat (len + cursor + 100)) content).
  { unfold ctx, _get_cursor_context, PyStr.slice. fold len.
    destruct (Z.ltb_spec (Z.min len (cursor + 100)) 0) as [Hneg|Hpos]; [|lia].
    replace (Z.max 0 (cursor - 100)) with 0%Z by lia.
    replace (Z.min len (cursor + 100)) with (cursor + 100)%Z by lia.
    f_equal. lia. }
  split.
  - rewrite Hctx, substring_length. unfold len. lia.
  - apply occurs_at_0. rewrite Hctx.
    apply (substring_occurs content 0).
Qed.

(** A draft of 300 characters *)
Definition long_draft : string := Repair.repeat_string "word " 60.

Lemma cursor_context_window_witness :
  (-100 <= 150)%Z
  /\ (String.length (_get_cursor_context long_draft 150) <= 200)%nat.
Proof.
  assert (H : (-100 <= 150)%Z) by lia.
  split; [exact H|].
  exact (proj1 (proj2 (cursor_context_window long_draft 150 H))).
Defined.

Lemma cursor_context_far_left_witness :
  (-120 < -100)%Z
  /\ String.prefix (_get_cursor_context long_draft (-120)) long_draft = true.
Proof.
  assert (H : (-120 < -100)%Z) by lia.
  split; [exact H|].
  exact (proj2 (cursor_context_far_left long_draft (-120) H)).
Defined.

(** Every weak section lies inside the draft: its start is a real
    offset (never the -1 of a failed search), its end is not past the
    end of the draft, it spans fewer than 10 characters, and the text
    between the two positions is one of the segments of the draft. *)
Theorem weak_sections_inside (content : string) :
  List.Forall
    (fun w =>
       (0 <= start_position w <= end_position w)%Z
       /\ (end_position w <= Z.of_nat (String.length content))%Z
       /\ (end_position w - start_position w < 10)%Z
       /\ In (PyStr.slice content (start_position w) (end_position w))
             (PyStr.split content ". "))
    (find_weak_sections content).
Proof.
  apply List.Forall_forall. intros w Hw. unfold find_weak_sections in Hw.
  apply List.in_map_iff in Hw. destruct Hw as (segment & <- & Hin).
  apply List.filter_In in Hin. destruct Hin as [Hin Hshort].
  apply Nat.ltb_lt in Hshort.
  destruct (split_segment_occurs content ". " segment) as [k Hk];
    [discriminate | exact Hin |].
  destruct (find_first _ _ _ Hk) as (k0 & Hfind & Hocc & _).
  cbn [start_position end_position]. rewrite Hfind.
  pose proof (occurs_at_inside _ _ _ Hocc) as Hinside.
  split; [lia|]. split; [lia|]. split; [lia|].
  unfold PyStr.slice.
  destruct (Z.ltb_spec (Z.of_nat k0 + Z.of_nat (String.length segment)) 0); [lia|].
  replace (Z.to_nat (Z.min (Z.of_nat k0 + Z.of_nat (String.length segment))
                           (Z.of_nat (String.length content)) - Z.of_nat k0))
    with (String.length segment) by lia.
  rewrite Nat2Z.id, (occurs_substring _ _ _ Hocc). exact Hin.
Qed.


(** *** The refinement of keywords *)











(** The refinement reads the stored breakdown through its readability
    sub-score alone: two breakdowns with the same readability give the
    same result, whatever their SEO and other sub-scores, and the draft
    and the cursor position do not matter either. *)
Theorem contextual_refinement_reads_readability_only
        (keywords : list Keyword) (content content' : string) (cursor cursor' : Z)
        (b b' : ScoreBreakdown) :
  readability b = readability b' ->
  _contextual_refinement keywords content cursor (ScoreBreakdown_dict b)
  = _contextual_refinement keywords content' cursor' (ScoreBreakdown_dict b').
Proof.
  intros Hread. unfold _contextual_refinement. do 2 f_equal.
  apply List.map_ext. intros keyword. unfold refine_keyword.
  replace (PyDict.get (ScoreBreakdown_dict b) "seo" 70) with 70 by reflexivity.
  replace (PyDict.get (ScoreBreakdown_dict b') "seo" 70) with 70 by reflexivity.
  replace (PyDict.get (ScoreBreakdown_dict b) "readability" 70)
    with (readability b) by reflexivity.
  replace (PyDict.get (ScoreBreakdown_dict b') "readability" 70)
    with (readability b') by reflexivity.
  rewrite Hread. reflexivity.
Qed.

Definition breakdown_of (readable seo : Q) : ScoreBreakdown :=
  {| keyword_relevance := 70; readability := readable; user_profile_alignment := 70;
     content_structure := 70; seo_optimization := seo; engagement_potential := 70 |}.

Definition clear_keyword : Keyword :=
  {| kw_keyword := Some "Clear search terms"; kw_relevance_score := Some 0.5;
     kw_context := Some "title" |}.

Lemma contextual_refinement_reads_readability_only_witness :
  readability (breakdown_of 40 10) = readability (breakdown_of 40 90)
  /\ _contextual_refinement [clear_keyword] "draft" 0
                            (ScoreBreakdown_dict (breakdown_of 40 10))
     = _contextual_refinement [clear_keyword] "other" 5
                              (ScoreBreakdown_dict (breakdown_of 40 90)).
Proof.
  split; [reflexivity|].
  exact (contextual_refinement_reads_readability_only
           [clear_keyword] "draft" "other" 0 5
           (breakdown_of 40 10) (breakdown_of 40 90) eq_refl).
Defined.

End AgentMore.

(** ** One pass of the workflow never asks for another *)
Module LoopMore.
Import Models Agent Learning.

(** Every entry of the analysis history recorded the length of the
    current draft. *)
Definition coherent (state : AgentState) : Prop :=
  List.Forall
    (fun entry =>
       draft_length entry = Some (Z.of_nat (String.length (current_draft state))))
    (analysis_history state).

Lemma update_last_Forall {A : Type} (P : A -> Prop) (f : A -> A) (l : list A) :
  (forall x, P x -> P (f x)) -> List.Forall P l -> List.Forall P (update_last f l).
Proof.
  intros Hf Hl. unfold update_last.
  destruct (rev l) as [|x r] eqn:E; [apply List.Forall_nil|].
  assert (Hrev : List.Forall P (rev l)) by (apply List.Forall_rev; exact Hl).
  rewrite E in Hrev. apply List.Forall_cons_iff in Hrev. destruct Hrev as [Hx Hr].
  apply List.Forall_app. split.
  - apply List.Forall_rev. exact Hr.
  - apply List.Forall_cons; [apply Hf; exact Hx | apply List.Forall_nil].
Qed.

Lemma coherent_not_changed (state : AgentState) :
  coherent state -> _content_changed_significantly state = false.
Proof.
  intros Hco. destruct (_content_changed_significantly state) eqn:Hch; [|reflexivity].
  apply LoopDecision.changed_iff in Hch.
  destruct Hch as (older & entry & latest & Hhist & Hlt).
  unfold coherent in Hco. rewrite Hhist in Hco.
  apply List.Forall_app in Hco. destruct Hco as [_ Hco].
  apply List.Forall_cons_iff in Hco. destruct Hco as [Hentry _].
  unfold LoopDecision.recorded_length in Hlt. rewrite Hentry in Hlt. lia.
Qed.

Section Nodes.
Variable recommend_keywords :
  nat -> string -> string -> option UserProfile -> exn + Analysis.
Variable re : Re.engine.

(** The nodes that write the analysis history record the length of the
    draft they are given and none of the modelled nodes changes the
    draft, so a history that agrees with the draft stays in agreement
    through analysis, scoring, weakness detection and finalisation; and
    on such a state the loop decision is ["end"]: the draft cannot differ
    from the length recorded one analysis earlier. *)
Theorem coherent_history_ends_loop (now : Time) (llm_calls : nat) (state : AgentState) :
  coherent state ->
  _should_iterate state = "end"
  /\ coherent (fst (_analyze_draft_node recommend_keywords now state llm_calls))
  /\ coherent (_score_content_node re now state)
  /\ coherent (_identify_weaknesses_node state)
  /\ coherent (_finalize_response_node now state).
Proof.
  intros Hco. split; [|split; [|split; [|split]]].
  - unfold _should_iterate. rewrite (coherent_not_changed state Hco).
    rewrite andb_false_r. reflexivity.
  - unfold _analyze_draft_node.
    destruct (recommend_keywords _ _ _ _) as [e|analysis]; cbn [fst]; [exact Hco|].
    unfold coherent. cbn [analysis_history current_draft set_analysis_history].
    apply List.Forall_app. split; [exact Hco|].
    apply List.Forall_cons; [reflexivity | apply List.Forall_nil].
  - unfold _score_content_node.
    destruct (Scoring.calculate_comprehensive_score _ _ _ _); exact Hco.
  - unfold _identify_weaknesses_node, coherent.
    cbn [analysis_history current_draft set_analysis_history].
    apply update_last_Forall; [|exact Hco].
    intros entry Hentry. exact Hentry.
  - unfold _finalize_response_node.
    destruct (iteration_count state); exact Hco.
Qed.

End Nodes.

(** The state a draft update starts the workflow from *)
Definition initial_state (draft : string) : AgentState :=
  {| session_id := "s"; user_profile := None; current_draft := draft;
     cursor_position := 0; previous_suggestions := []; analysis_history := [];
     current_score := []; iteration_count := Some 0%Z; last_updated := 0%Q;
     final_response := None |}.

Definition no_keywords : nat -> string -> string -> option UserProfile -> exn + Analysis :=
  fun _ _ _ _ => inr empty_analysis.

Lemma coherent_history_ends_loop_witness :
  coherent (initial_state "A first draft.")
  /\ _should_iterate
       (_finalize_response_node 0%Q
          (fst (_analyze_draft_node no_keywords 0%Q (initial_state "A first draft.") 0)))
     = "end".
Proof.
  assert (H0 : coherent (initial_state "A first draft.")) by apply List.Forall_nil.
  split; [exact H0|].
  pose proof (coherent_history_ends_loop no_keywords RangeFacts.silent_engine 0%Q 0
                                         (initial_state "A first draft.") H0)
    as (_ & H1 & _).
  pose proof (coherent_history_ends_loop no_keywords RangeFacts.silent_engine 0%Q 0
                                         _ H1)
    as (_ & _ & _ & _ & H2).
  exact (proj1 (coherent_history_ends_loop no_keywords RangeFacts.silent_engine 0%Q 0
                                            _ H2)).
Defined.

(** The last node counts the passes: with a counter [c] in the state it
    stores [c + 1], the response's context line names [c] (the count
    before the increment), and from the second pass on ([1 <= c]) the
    loop decision that follows is ["end"] whatever the history says. *)
Theorem finalize_counts_passes (now : Time) (state : AgentState) (c : Z) :
  iteration_count state = Some c ->
  let state' := _finalize_response_node now state in
  iteration_count state' = Some (c + 1)%Z
  /\ (exists response,
        final_response state' = Some response
        /\ fr_suggestions_context response = "Analysis iteration " +:+ pretty c
        /\ fr_realtime_score response = current_score state)
  /\ analysis_history state' = analysis_history state
  /\ current_draft state' = current_draft state
  /\ ((1 <= c)%Z -> _should_iterate state' = "end").
Proof.
  intros Hc state'. unfold state', _finalize_response_node. rewrite Hc.
  cbn [iteration_count final_response analysis_history current_draft].
  split; [reflexivity|]. split; [|split; [reflexivity|split; [reflexivity|]]].
  - eexists. split; [reflexivity|]. split; reflexivity.
  - intros H1. unfold _should_iterate. cbn [iteration_count].
    destruct (Z.ltb_spec (c + 1) 2) as [Hlt|Hge]; [lia | reflexivity].
Qed.

Lemma finalize_counts_passes_witness :
  iteration_count (initial_state "A first draft.") = Some 0%Z
  /\ iteration_count (_finalize_response_node 0%Q (initial_state "A first draft."))
     = Some 1%Z.
Proof.
  split; [reflexivity|].
  exact (proj1 (finalize_counts_passes 0%Q (initial_state "A first draft.") 0 eq_refl)).
Defined.

End LoopMore.

(** ** What a session records *)
Module SessionsMore.
Import Models Agent Learning.
Local Open Scope Q_scope.

(** The responses added to the history by a call of [update_draft] with
    the given outcome: the response of a run that succeeded, nothing
    otherwise. *)
Definition responses_of (outcome : exn + option FinalResponse) : list (option FinalResponse) :=
  match outcome with
  | inr response => [response]
  | inl _ => []
  end.

Section Workflow.
Variable ainvoke : AgentState -> exn + AgentState.

Lemma update_draft_session
      (now : Time) (sessions : gmap string AgentSession) (id draft : string)
      (cursor : option Z) (session : AgentSession) :
  sessions !! id = Some session ->
  let run := update_draft ainvoke now sessions id draft cursor in
  snd run !! id
  = Some {| as_session_id := as_session_id session;
            as_user_profile := as_user_profile session;
            as_current_draft := draft;
            suggestion_history := suggestion_history session ++ responses_of (fst run);
            score_history := score_history session;
            created_at := created_at session;
            as_last_updated := now;
            is_active := is_active session |}
  /\ (forall other, other <> id -> snd run !! other = sessions !! other).
Proof.
  intros Hlook run. unfold run, update_draft. rewrite Hlook.
  destruct (ainvoke _) as [e|final_state]; cbn [fst snd responses_of].
  - split.
    + rewrite lookup_insert_eq, app_nil_r. reflexivity.
    + intros other Hother. rewrite lookup_insert_ne by congruence. reflexivity.
  - split.
    + rewrite lookup_insert_eq. reflexivity.
    + intros other Hother. rewrite !lookup_insert_ne by congruence. reflexivity.
Qed.

(** A draft update on a stored session always stores the new draft and
    the time, also when the workflow then fails; a response is appended
    to the suggestion history exactly when the workflow succeeds; the
    profile, the creation time and the score history stay as they were,
    and no other session is touched. *)
Theorem update_draft_records
        (now : Time) (sessions : gmap string AgentSession) (id draft : string)
        (cursor : option Z) (session : AgentSession) :
  sessions !! id = Some session ->
  let run := update_draft ainvoke now sessions id draft cursor in
  (exists session',
      snd run !! id = Some session'
      /\ as_current_draft session' = draft
      /\ as_last_updated session' = now
      /\ suggestion_history session' = suggestion_history session ++ responses_of (fst run)
      /\ as_user_profile session' = as_user_profile session
      /\ created_at session' = created_at session
      /\ score_history session' = score_history session)
  /\ (forall other, other <> id -> snd run !! other = sessions !! other).
Proof.
  intros Hlook run.
  destruct (update_draft_session now sessions id draft cursor session Hlook)
    as (Hsession & Hothers).
  fold run in Hsession, Hothers.
  split; [|exact Hothers].
  eexists. split; [exact Hsession|]. repeat split; reflexivity.
Qed.

(** A sequence of draft updates on one session: each is a time, a draft
    and a cursor position; the outcomes are collected in order. *)
Fixpoint update_drafts (sessions : gmap string AgentSession) (id : string)
         (updates : list (Time * string * option Z))
  : list (exn + option FinalResponse) * gmap string AgentSession :=
  match updates with
  | [] => ([], sessions)
  | (now, draft, cursor) :: rest =>
      let run := update_draft ainvoke now sessions id draft cursor in
      let runs := update_drafts (snd run) id rest in
      (fst run :: fst runs, snd runs)
  end.

(** The draft sent last in a sequence of updates, [before] when the
    sequence is empty *)
Definition last_draft (before : string) (updates : list (Time * string * option Z))
  : string :=
  fold_left (fun _ u => snd (fst u)) updates before.

Lemma update_drafts_session (updates : list (Time * string * option Z)) :
  forall (sessions : gmap string AgentSession) (id : string) (session : AgentSession),
    sessions !! id = Some session ->
    let runs := update_drafts sessions id updates in
    exists session',
      snd runs !! id = Some session'
      /\ as_current_draft session' = last_draft (as_current_draft session) updates
      /\ suggestion_history session'
         = suggestion_history session ++ concat (map responses_of (fst runs))
      /\ created_at session' = created_at session
      /\ score_history session' = score_history session.
Proof.
  induction updates as [|[[now draft] cursor] rest IH]; intros sessions id session Hlook.
  - cbn. exists session. rewrite app_nil_r. repeat split; [exact Hlook].
  - cbn [update_drafts fst snd].
    destruct (update_draft_session now sessions id draft cursor session Hlook)
      as (Hsession & _).
    destruct (IH _ id _ Hsession) as (session' & Hlook' & Hdraft & Hhist & Hcreated & Hscore).
    exists session'. split; [exact Hlook'|].
    cbn [as_current_draft suggestion_history created_at score_history] in *.
    split; [|split; [|split; assumption]].
    + rewrite Hdraft. reflexivity.
    + rewrite Hhist. cbn [map concat]. rewrite <- app_assoc. reflexivity.
Qed.

(** The summary of a session counts what happened to it: started at
    [now0], updated any number of times and ended at [now1], it reports
    the elapsed time, as many suggestions as updates whose workflow
    succeeded, the length of the last draft sent (0 when none was) and
    an average score of 0. *)
Theorem session_summary_counts
        (now0 now1 : Time) (fresh_id : string) (sessions : gmap string AgentSession)
        (profile : UserProfile) (updates : list (Time * string * option Z)) :
  let started := start_session now0 fresh_id sessions profile in
  let runs := update_drafts (snd started) (fst started) updates in
  fst (end_session now1 (snd runs) (fst started))
  = inr {| session_duration := now1 - now0;
           total_suggestions := List.length (concat (map responses_of (fst runs)));
           final_draft_length := String.length (last_draft "" updates);
           average_score := 0 |}.
Proof.
  intros started runs. unfold started in *. cbn [start_session fst snd] in *.
  set (session := {| as_session_id := fresh_id; as_user_profile := profile;
                     as_current_draft := ""; suggestion_history := [];
                     score_history := []; created_at := now0;
                     as_last_updated := now0; is_active := true |}) in *.
  destruct (update_drafts_session updates (<[fresh_id := session]> sessions)
                                  fresh_id session (lookup_insert_eq _ _ _))
    as (session' & Hlook & Hdraft & Hhist & Hcreated & Hscore).
  fold runs in Hlook, Hhist.
  unfold end_session. rewrite Hlook. cbn [fst].
  rewrite Hdraft, Hhist, Hcreated, Hscore. reflexivity.
Qed.

(** The count of active sessions reported by [get_status]: a draft
    update never changes it, ending a stored session lowers it by one,
    and starting a session raises it by one when the identifier is new. *)
Theorem active_sessions_counted
        (now : Time) (sessions : gmap string AgentSession) (id draft : string)
        (cursor : option Z) (profile : UserProfile) :
  active_session_count (snd (update_draft ainvoke now sessions id draft cursor))
  = active_session_count sessions
  /\ (sessions !! id = None ->
      active_session_count (snd (start_session now id sessions profile))
      = S (active_session_count sessions)
      /\ active_session_count (snd (end_session now sessions id))
         = active_session_count sessions)
  /\ (forall session, sessions !! id = Some session ->
      S (active_session_count (snd (end_session now sessions id)))
      = active_session_count sessions
      /\ active_session_count (snd (start_session now id sessions profile))
         = active_session_count sessions).
Proof.
  unfold active_session_count. split; [|split].
  - unfold update_draft. destruct (sessions !! id) as [session|] eqn:Hlook; [|reflexivity].
    destruct (ainvoke _); cbn [snd].
    + apply map_size_insert_Some. eauto.
    + rewrite !map_size_insert_Some; [reflexivity | eauto | rewrite lookup_insert_eq; eauto].
  - intros Hnone. split.
    + cbn [snd start_session]. apply map_size_insert_None. exact Hnone.
    + unfold end_session. rewrite Hnone. reflexivity.
  - intros session Hlook. split.
    + unfold end_session. rewrite Hlook. cbn [snd].
      rewrite <- (insert_delete_id sessions id session Hlook) at 2.
      rewrite map_size_insert_None by apply lookup_delete_eq. reflexivity.
    + cbn [snd start_session]. apply map_size_insert_Some. eauto.
Qed.

End Workflow.

(** The average of a history of valid scores is a valid score: between
    0 and 100, and 0 for the empty history. *)
Theorem average_score_in_range (score_history : list RealtimeScore) :
  List.Forall (fun score => RangeFacts.in_range (overall_score score)) score_history ->
  RangeFacts.in_range (_calculate_average_score score_history).
Proof.
  intros Hall. unfold _calculate_average_score.
  destruct score_history as [|score rest]; [split; lra|].
  set (history := score :: rest) in *.
  rewrite <- (List.length_map overall_score history).
  apply RangeFacts.mean_bounded.
  - discriminate.
  - apply List.Forall_map. exact Hall.
Qed.

Definition fair : RealtimeScore :=
  {| overall_score := 60; readability_score := 70; relevance_score := 50;
     engagement_score := 40; seo_score := 30 |}.

Definition good : RealtimeScore :=
  {| overall_score := 85; readability_score := 90; relevance_score := 80;
     engagement_score := 70; seo_score := 75 |}.

Lemma average_score_in_range_witness :
  List.Forall (fun score => RangeFacts.in_range (overall_score score)) [fair; good]
  /\ RangeFacts.in_range (_calculate_average_score [fair; good]).
Proof.
  assert (H : List.Forall (fun score => RangeFacts.in_range (overall_score score))
                          [fair; good]).
  { apply List.Forall_cons; [split; cbn; lra|].
    apply List.Forall_cons; [split; cbn; lra | apply List.Forall_nil]. }
  split; [exact H|].
  exact (average_score_in_range [fair; good] H).
Defined.

Lemma update_draft_records_witness :
  snd (start_session 0 "id-1" ∅ Sessions.writer) !! "id-1"
  = Some {| as_session_id := "id-1"; as_user_profile := Sessions.writer;
            as_current_draft := ""; suggestion_history := []; score_history := [];
            created_at := 0; as_last_updated := 0; is_active := true |}
  /\ forall other, other <> "id-1" ->
       snd (update_draft Sessions.echo_workflow 1
                         (snd (start_session 0 "id-1" ∅ Sessions.writer))
                         "id-1" "Short." None) !! other
       = snd (start_session 0 "id-1" ∅ Sessions.writer) !! other.
Proof.
  assert (H : snd (start_session 0 "id-1" ∅ Sessions.writer) !! "id-1"
              = Some {| as_session_id := "id-1"; as_user_profile := Sessions.writer;
                        as_current_draft := ""; suggestion_history := [];
                        score_history := []; created_at := 0; as_last_updated := 0;
                        is_active := true |}) by reflexivity.
  split; [exact H|].
  exact (proj2 (update_draft_records Sessions.echo_workflow 1 _ "id-1" "Short." None _ H)).
Defined.

End SessionsMore.

(** ** Historical patterns and the batch analysis *)
Module LearningFacts.
Import Models Agent Learning.
Local Open Scope Q_scope.


(** The pattern lists the keyword among its successful keywords. *)
Definition listed (keyword : Keyword) (historical : Pattern) : bool :=
  match kw_keyword keyword with
  | Some k => Scoring.mem k (pt_successful_keywords historical)
  | None => false
  end.












(** *** The pattern store *)

(** The pattern built for a post and its analysis *)
Definition pattern_of (now : Time) (blog_post : BlogPost) (analysis : BlogAnalysis)
  : Pattern :=
  {| pt_timestamp := now;
     pt_content_length := String.length (bp_content blog_post);
     pt_successful_keywords :=
       map ks_keyword
           (List.filter (fun kw => PyNum.gtb (ks_relevance_score kw) 0.7)
                        (ba_keyword_suggestions analysis));
     pt_readability_score := ba_readability_score analysis;
     pt_topics := map kt_topic (ba_key_topics analysis);
     pt_sentiment :=
       match ba_sentiment analysis with Some s => s | None => "neutral" end |}.

(** The patterns a store holds under the key ["general"] *)
Definition general (historical_patterns : gmap string (list Pattern)) : list Pattern :=
  match historical_patterns !! "general" with Some l => l | None => [] end.

Lemma store_general (now : Time) (hp : gmap string (list Pattern))
      (blog_post : BlogPost) (analysis : BlogAnalysis) :
  _store_analysis_pattern now hp blog_post analysis
  = <["general" := last_n 100 (general hp ++ [pattern_of now blog_post analysis])]> hp.
Proof.
  unfold _store_analysis_pattern, general. fold (pattern_of now blog_post analysis).
  destruct (hp !! "general") as [l|] eqn:Hl.
  - rewrite Hl. reflexivity.
  - rewrite lookup_insert_eq. apply insert_insert_eq.
Qed.

Lemma last_n_length {A : Type} (n : nat) (l : list A) :
  List.length (last_n n l) = Nat.min n (List.length l).
Proof. unfold last_n. rewrite List.length_skipn. lia. Qed.

Lemma last_n_app {A : Type} (n : nat) (l l' : list A) :
  last_n n (last_n n l ++ l') = last_n n (l ++ l').
Proof.
  unfold last_n.
  rewrite !List.skipn_app, List.skipn_skipn, !List.length_app, !List.length_skipn.
  f_equal; f_equal; lia.
Qed.

(** Storing the patterns of a batch, one after the other. *)
Definition store_all (hp : gmap string (list Pattern))
           (batch : list (Time * BlogPost * BlogAnalysis)) : gmap string (list Pattern) :=
  fold_left (fun hp item =>
               _store_analysis_pattern (fst (fst item)) hp (snd (fst item)) (snd item))
            batch hp.

Lemma store_all_general (batch : list (Time * BlogPost * BlogAnalysis)) :
  forall hp,
    batch <> [] ->
    store_all hp batch
    = <["general" :=
          last_n 100
            (general hp
             ++ map (fun item => pattern_of (fst (fst item)) (snd (fst item)) (snd item))
                    batch)]> hp.
Proof.
  induction batch as [|item rest IH]; intros hp Hne; [congruence|].
  unfold store_all. cbn [fold_left]. fold (store_all (_store_analysis_pattern
    (fst (fst item)) hp (snd (fst item)) (snd item)) rest).
  rewrite store_general.
  destruct rest as [|item' rest'].
  - reflexivity.
  - rewrite IH by discriminate.
    unfold general at 1. rewrite lookup_insert_eq, insert_insert_eq.
    rewrite last_n_app, <- List.app_assoc. reflexivity.
Qed.

(** The store keeps the last 100 patterns, oldest first, all under the
    key ["general"]: after a batch of posts stored into an empty store
    it holds exactly the patterns of the last 100 of them, the count
    reported by [get_status] is the size of the batch capped at 100,
    and no other key exists. *)
Theorem store_keeps_last_100 (batch : list (Time * BlogPost * BlogAnalysis)) :
  let stored := store_all ∅ batch in
  general stored
  = last_n 100 (map (fun item => pattern_of (fst (fst item)) (snd (fst item)) (snd item))
                    batch)
  /\ total_patterns_stored stored = Nat.min 100 (List.length batch)
  /\ forall key, key <> "general" -> stored !! key = None.
Proof.
  intros stored. unfold stored.
  destruct batch as [|item rest].
  - cbn. split; [reflexivity|]. split; [reflexivity|].
    intros key _. apply lookup_empty.
  - rewrite store_all_general by discriminate.
    change (general ∅) with (@nil Pattern). cbn [app].
    split; [|split].
    + unfold general. rewrite lookup_insert_eq. reflexivity.
    + unfold total_patterns_stored.
      rewrite insert_empty, map_fold_singleton.
      rewrite last_n_length, List.length_map. reflexivity.
    + intros key Hkey. rewrite lookup_insert_ne by congruence. apply lookup_empty.
Qed.

(** Patterns are stored under ["general"] but looked up under the
    user's identifier: for every profile whose identifier is not
    ["general"] (and for a missing profile, looked up as ["default"])
    the historical context is empty whatever was stored, and historical
    learning returns the keywords as they were. *)
Theorem history_never_found
        (batch : list (Time * BlogPost * BlogAnalysis)) (profile : UserProfile)
        (keywords : list Keyword) :
  user_id profile <> "general" ->
  let stored := store_all ∅ batch in
  _get_historical_context stored (Some profile) = []
  /\ _get_historical_context stored None = []
  /\ _apply_historical_learning keywords (_get_historical_context stored (Some profile))
     = keywords.
Proof.
  intros Hid stored.
  assert (Hnone : forall key, key <> "general" -> stored !! key = None).
  { intros key Hkey. unfold stored. destruct batch as [|item rest].
    - apply lookup_empty.
    - rewrite store_all_general by discriminate.
      rewrite lookup_insert_ne by congruence. apply lookup_empty. }
  unfold _get_historical_context.
  rewrite (Hnone (user_id profile) Hid), (Hnone "default") by discriminate.
  repeat split; reflexivity.
Qed.


Definition blogger : UserProfile :=
  {| user_id := "u1"; preferred_topics := []; reading_level := "intermediate";
     writing_style := "formal"; target_audience := None; expertise_areas := [] |}.

Definition a_post : BlogPost :=
  {| bp_title := None; bp_content := "Ten tips for clear writing" |}.

Definition an_analysis : BlogAnalysis :=
  {| ba_sentiment := Some "positive"; ba_key_topics := [];
     ba_keyword_suggestions :=
       [ {| ks_keyword := "writing"; ks_relevance_score := 0.9; ks_context := "title";
            ks_semantic_similarity := 0.8 |} ];
     ba_readability_score := 72; ba_word_count := 5 |}.

Definition writing_keyword : Keyword :=
  {| kw_keyword := Some "writing"; kw_relevance_score := Some 0.5;
     kw_context := Some "title" |}.

Lemma history_never_found_witness :
  user_id blogger <> "general"
  /\ general (store_all ∅ [(0, a_post, an_analysis)])
     = [pattern_of 0 a_post an_analysis]
  /\ _apply_historical_learning
       [writing_keyword]
       (_get_historical_context (store_all ∅ [(0, a_post, an_analysis)]) (Some blogger))
     = [writing_keyword].
Proof.
  assert (H : user_id blogger <> "general") by discriminate.
  split; [exact H|]. split; [reflexivity|].
  exact (proj2 (proj2 (history_never_found [(0, a_post, an_analysis)] blogger
                                           [writing_keyword] H))).
Defined.

(** *** The batch analysis *)
Section Batch.
Variable analyze_blog_post : nat -> BlogPost -> exn + BlogAnalysis.

Lemma analyze_loop_outcome (now : nat -> Time) (blog_posts : list BlogPost) :
  forall (results : list BlogAnalysis) (w : World),
    let run := analyze_loop analyze_blog_post now blog_posts results w in
    exists done : list (Time * BlogPost * BlogAnalysis),
      historical_patterns (snd run) = store_all (historical_patterns w) done
      /\ map (fun item => snd (fst item)) done = firstn (List.length done) blog_posts
      /\ List.Forall (fun item => field_ok (ba_readability_score (snd item)) = true) done
      /\ match fst run with
         | inr all =>
             all = results ++ map snd done
             /\ List.length done = List.length blog_posts
             /\ llm_calls (snd run) = (llm_calls w + List.length blog_posts)%nat
         | inl _ =>
             (List.length done < List.length blog_posts)%nat
             /\ llm_calls (snd run) = (llm_calls w + List.length done + 1)%nat
         end.
Proof.
  induction blog_posts as [|blog_post rest IH]; intros results w run.
  - exists []. cbn. rewrite List.app_nil_r. repeat split; try lia. apply List.Forall_nil.
  - unfold run. cbn [analyze_loop historical_patterns llm_calls].
    destruct (analyze_blog_post (llm_calls w) blog_post) as [e|analysis] eqn:Hcall.
    + exists []. cbn. repeat split; try lia. apply List.Forall_nil.
    + unfold BlogAnalysisResult_new.
      destruct (field_ok (ba_readability_score analysis)) eqn:Hvalid.
      * match goal with
        | |- context [analyze_loop _ _ rest ?r ?w'] =>
            destruct (IH r w') as (done & Hstore & Hposts & Hok & Hend)
        end.
        cbn [historical_patterns llm_calls] in Hstore, Hend.
        exists ((now (llm_calls w), blog_post, analysis) :: done).
        split; [exact Hstore|].
        split; [cbn [map List.length firstn fst snd]; rewrite Hposts; reflexivity|].
        split; [apply List.Forall_cons; [exact Hvalid | exact Hok]|].
        destruct (fst (analyze_loop _ _ rest _ _)) as [e|all].
        -- cbn [List.length]. destruct Hend as [H1 H2]. split; lia.
        -- destruct Hend as (H1 & H2 & H3). cbn [List.length map snd].
           split; [rewrite H1, <- List.app_assoc; reflexivity|]. split; lia.
      * exists []. cbn. repeat split; try lia. apply List.Forall_nil.
Qed.

(** The batch analysis asks the language model once per post, in order,
    and stores the pattern of a post as soon as its analysis is
    accepted.  When every post is accepted it returns one result per
    post, in the order of the posts; when a post fails, the exception
    leaves the batch with no result, after one call more than there were
    accepted posts, and the patterns of the posts accepted before it
    remain stored. *)
Theorem batch_analysis_outcome (now : nat -> Time) (blog_posts : list BlogPost) (w : World) :
  let run := analyze_blog_posts analyze_blog_post now blog_posts w in
  exists done : list (Time * BlogPost * BlogAnalysis),
    historical_patterns (snd run) = store_all (historical_patterns w) done
    /\ map (fun item => snd (fst item)) done = firstn (List.length done) blog_posts
    /\ List.Forall (fun item => field_ok (ba_readability_score (snd item)) = true) done
    /\ match fst run with
       | inr results =>
           results = map snd done
           /\ List.length results = List.length blog_posts
           /\ llm_calls (snd run) = (llm_calls w + List.length blog_posts)%nat
       | inl _ =>
           (List.length done < List.length blog_posts)%nat
           /\ llm_calls (snd run) = (llm_calls w + List.length done + 1)%nat
       end.
Proof.
  intros run.
  destruct (analyze_loop_outcome now blog_posts [] w) as (done & H1 & H2 & H3 & H4).
  fold (analyze_blog_posts analyze_blog_post now blog_posts w) in H1, H4.
  fold run in H1, H4.
  exists done. split; [exact H1|]. split; [exact H2|]. split; [exact H3|].
  destruct (fst run) as [e|results]; [exact H4|].
  destruct H4 as (Hall & Hlen & Hcalls). cbn [app] in Hall.
  split; [exact Hall|]. split; [|exact Hcalls].
  rewrite Hall, List.length_map. exact Hlen.
Qed.

End Batch.

End LearningFacts.

(** ** What a completed sanitisation guarantees *)
Module SanitizeMore.
Import LLM SanitizeFacts.
Local Open Scope Q_scope.

(** The value under the key [k], when the object is a dictionary that
    has the key, satisfies [P]. *)
Definition at_key (k : string) (P : json -> Prop) (obj : json) : Prop :=
  forall v, getitem obj k = Some v -> P v.

(** The items of a list satisfy [P]. *)
Definition each (P : json -> Prop) (v : json) : Prop :=
  match v with
  | JList l => List.Forall P l
  | _ => True
  end.

(** A list or a string of at most [n] items *)
Definition at_most (n : nat) (v : json) : Prop :=
  match v with
  | JList l => (List.length l <= n)%nat
  | JStr s => (String.length s <= n)%nat
  | _ => False
  end.

Definition is_unit (v : json) : Prop :=
  exists q, v = JFloat (FFin q) /\ 0 <= q <= 1.

Definition is_percent (v : json) : Prop :=
  exists z, v = JInt z /\ (0 <= z <= 100)%Z.

Definition is_int_from (lo : Z) (v : json) : Prop :=
  exists z, v = JInt z /\ (lo <= z)%Z.

(** Whenever the block runs to its end, the object it leaves satisfies
    [P]. *)
Definition ensures (body : json -> upd json) (P : json -> Prop) : Prop :=
  forall v v', body v = Done v' -> P v'.

Lemma ensures_assign (conv : json -> option json) (P : json -> Prop) :
  (forall v v', conv v = Some v' -> P v') -> ensures (assign conv) P.
Proof.
  intros Hconv v v'. unfold assign.
  destruct (conv v) as [w|] eqn:E; [|discriminate].
  intros H. injection H as <-. exact (Hconv v w E).
Qed.

Lemma update_done (k : string) (body : json -> upd json) (x x' : json) :
  update k body x = Done x' ->
  (x' = x /\ getitem x k = None)
  \/ (exists d sub sub',
         x = JDict d /\ lookup d k = Some sub /\ body sub = Done sub'
         /\ x' = JDict (store d k sub')).
Proof.
  unfold update.
  destruct (py_in k x) as [[|]|] eqn:Hin; [| |discriminate].
  - destruct (getitem x k) as [sub|] eqn:Hget; [|discriminate].
    destruct x; try discriminate. cbn in Hget.
    destruct (body sub) as [sub'|sub'] eqn:Hb; [|discriminate].
    cbn. intros H. injection H as <-. right. exists d, sub, sub'. auto.
  - intros H. injection H as <-. left. split; [reflexivity|].
    destruct x; try reflexivity. cbn in *.
    destruct (lookup d k); [discriminate | reflexivity].
Qed.

Lemma ensures_update (k : string) (body : json -> upd json) (P : json -> Prop) :
  ensures body P -> ensures (update k body) (at_key k P).
Proof.
  intros Hbody x x' Hx v Hv.
  destruct (update_done k body x x' Hx)
    as [[-> Hnone]|(d & sub & sub' & -> & Hsub & Hb & ->)].
  - congruence.
  - cbn in Hv. rewrite lookup_store_same in Hv. injection Hv as <-.
    exact (Hbody sub sub' Hb).
Qed.

Lemma update_keeps (k k' : string) (body : json -> upd json) (P : json -> Prop)
      (x x' : json) :
  k <> k' -> update k' body x = Done x' -> at_key k P x -> at_key k P x'.
Proof.
  intros Hne Hx Hat v Hv.
  destruct (update_done k' body x x' Hx)
    as [[-> Hnone]|(d & sub & sub' & -> & Hsub & Hb & ->)].
  - exact (Hat v Hv).
  - cbn in Hv. rewrite lookup_store_other in Hv by exact Hne.
    exact (Hat v Hv).
Qed.

Lemma updates_keep (k : string) (P : json -> Prop)
      (steps : list (string * (json -> upd json))) :
  ~ In k (map fst steps) ->
  forall x x', updates steps x = Done x' -> at_key k P x -> at_key k P x'.
Proof.
  induction steps as [|[k' body'] steps IH]; intros Hnotin x x' Hx Hat.
  - cbn in Hx. injection Hx as <-. exact Hat.
  - cbn [updates] in Hx. cbn [map fst In] in Hnotin.
    destruct (update k' body' x) as [a|a] eqn:Ha; [|discriminate].
    cbn [upd_bind] in Hx.
    apply (IH (fun H => Hnotin (or_intror H)) a x' Hx).
    apply (update_keeps k k' body' P x a); [|exact Ha | exact Hat].
    intros ->. apply Hnotin. left. reflexivity.
Qed.

Lemma ensures_updates (steps : list (string * (json -> upd json)))
      (k : string) (body : json -> upd json) (P : json -> Prop) :
  List.NoDup (map fst steps) ->
  In (k, body) steps ->
  ensures body P ->
  ensures (updates steps) (at_key k P).
Proof.
  intros Hnodup Hin Hbody.
  induction steps as [|[k' body'] steps IH]; [contradiction|].
  apply List.NoDup_cons_iff in Hnodup. destruct Hnodup as [Hnotin Hnodup].
  intros x x' Hx. cbn [updates] in Hx.
  destruct (update k' body' x) as [a|a] eqn:Ha; [|discriminate].
  cbn [upd_bind] in Hx.
  destruct Hin as [Heq|Hin].
  - injection Heq as -> ->.
    apply (updates_keep k P steps Hnotin a x' Hx).
    exact (ensures_update k body P Hbody x a Ha).
  - exact (IH Hnodup Hin a x' Hx).
Qed.

Lemma updates_done (steps : list (string * (json -> upd json)))
      (k : string) (body : json -> upd json) (P : json -> Prop) (x x' : json) :
  updates steps x = Done x' ->
  List.NoDup (map fst steps) ->
  In (k, body) steps ->
  ensures body P ->
  at_key k P x'.
Proof.
  intros Hx Hnodup Hin Hbody.
  exact (ensures_updates steps k body P Hnodup Hin Hbody x x' Hx).
Qed.

Lemma for_list_done (body : json -> upd json) (P : json -> Prop) (l l' : list json) :
  ensures body P -> for_list body l = Done l' ->
  List.Forall P l' /\ List.length l' = List.length l.
Proof.
  intros Hbody. revert l'. induction l as [|x l IH]; intros l' Hl; cbn in Hl.
  - injection Hl as <-. split; [apply List.Forall_nil | reflexivity].
  - destruct (body x) as [x'|x'] eqn:Hx; [|discriminate].
    destruct (for_list body l) as [r|r]; [|discriminate].
    cbn in Hl. injection Hl as <-.
    destruct (IH r eq_refl) as [Hall Hlen]. split.
    + apply List.Forall_cons; [exact (Hbody x x' Hx) | exact Hall].
    + cbn. rewrite Hlen. reflexivity.
Qed.

Lemma for_each_done (body : json -> upd json) (P : json -> Prop) (v v' : json) :
  ensures body P -> for_each body v = Done v' ->
  each P v'
  /\ match v, v' with
     | JList l, JList l' => List.length l' = List.length l
     | JList _, _ => False
     | _, _ => v' = v
     end.
Proof.
  intros Hbody. destruct v; cbn; try discriminate.
  - destruct (for_list body (chars s)); [|discriminate].
    intros H. injection H as <-. split; [exact I | reflexivity].
  - destruct (for_list body l) as [r|r] eqn:Hr; [|discriminate].
    cbn. intros H. injection H as <-.
    destruct (for_list_done body P l r Hbody Hr) as [Hall Hlen].
    split; assumption.
  - destruct (for_list body _); [|discriminate].
    intros H. injection H as <-. split; [exact I | reflexivity].
Qed.

Lemma ensures_for_each (body : json -> upd json) (P : json -> Prop) :
  ensures body P -> ensures (for_each body) (each P).
Proof.
  intros Hbody v v' Hv. exact (proj1 (for_each_done body P v v' Hbody Hv)).
Qed.

Lemma ensures_sliced (n : nat) (body : json -> upd json) (P : json -> Prop) :
  ensures body P -> ensures (sliced n body) (fun v => at_most n v /\ each P v).
Proof.
  intros Hbody v v'. unfold sliced.
  destruct (slice n v) as [w|] eqn:Hw; [|discriminate].
  intros Hv'. destruct (for_each_done body P w v' Hbody Hv') as [Heach Hshape].
  split; [|exact Heach].
  destruct v; cbn in Hw; try discriminate; injection Hw as <-.
  - subst v'. cbn. apply substring_prefix_length.
  - destruct v'; try contradiction. cbn. rewrite Hshape. apply List.firstn_le_length.
Qed.

Lemma ensures_and (body : json -> upd json) (P Q : json -> Prop) :
  ensures body P -> ensures body Q -> ensures body (fun v => P v /\ Q v).
Proof. intros HP HQ v v' Hv. split; [exact (HP v v' Hv) | exact (HQ v v' Hv)]. Qed.

Lemma clamp01_unit (f : pyfloat) : exists q, clamp01 f = FFin q /\ 0 <= q <= 1.
Proof.
  unfold clamp01, fmin, fmax.
  destruct f as [|[|]|q]; cbn.
  - exists 1. split; [reflexivity | lra].
  - exists 0. split; [reflexivity | lra].
  - exists 1. split; [reflexivity | lra].
  - destruct (PyNum.ltb q 1) eqn:H1; cbn.
    + destruct (PyNum.ltb 0 q) eqn:H0.
      * apply PyNumFacts.ltb_true in H0, H1. exists q. split; [reflexivity | lra].
      * exists 0. split; [reflexivity | lra].
    + exists 1. split; [reflexivity | lra].
Qed.

(** *** What the sanitisation never touches *)

(** The keys of a dictionary, in order *)
Definition keys (v : json) : option (list string) :=
  match v with
  | JDict d => Some (map fst d)
  | _ => None
  end.

(** [x'] has the shape of [x]: the same keys in the same order when [x]
    is a dictionary, and [x] itself otherwise; the keys outside [touched]
    hold what they held. *)
Definition same_shape (touched : list string) (x x' : json) : Prop :=
  keys x' = keys x
  /\ (keys x = None -> x' = x)
  /\ forall k, ~ In k touched -> getitem x' k = getitem x k.

Lemma store_keys (d : list (string * json)) (k : string) (v v' : json) :
  lookup d k = Some v -> map fst (store d k v') = map fst d.
Proof.
  induction d as [|[k0 v0] d IH]; cbn; [discriminate|].
  destruct (String.eqb k k0) eqn:E; cbn.
  - reflexivity.
  - intros H. rewrite (IH H). reflexivity.
Qed.

Lemma update_same_shape (k : string) (body : json -> upd json) (x : json) :
  same_shape [k] x (value_of (update k body x)).
Proof.
  assert (Hrefl : same_shape [k] x x) by (repeat split; auto).
  unfold update.
  destruct (py_in k x) as [[|]|]; try exact Hrefl.
  destruct (getitem x k) as [sub|] eqn:Hget; [|exact Hrefl].
  destruct x; try discriminate. cbn in Hget.
  assert (Hval : value_of (upd_map (setitem (JDict d) k) (body sub))
                 = JDict (store d k (value_of (body sub)))).
  { destruct (body sub); reflexivity. }
  rewrite Hval. split; [|split].
  - cbn. f_equal. apply (store_keys d k sub). exact Hget.
  - discriminate.
  - intros k' Hk'. cbn. apply lookup_store_other.
    intros ->. apply Hk'. left. reflexivity.
Qed.

Lemma same_shape_trans (t1 t2 : list string) (x y z : json) :
  same_shape t1 x y -> same_shape t2 y z -> same_shape (t1 ++ t2) x z.
Proof.
  intros (Hk1 & Hn1 & Hf1) (Hk2 & Hn2 & Hf2). split; [|split].
  - congruence.
  - intros Hx. rewrite <- (Hn1 Hx). apply Hn2. congruence.
  - intros k Hk. rewrite Hf2, Hf1; [reflexivity| |];
      intros Hin; apply Hk; apply List.in_or_app; auto.
Qed.

Lemma updates_same_shape (steps : list (string * (json -> upd json))) :
  forall x, same_shape (map fst steps) x (value_of (updates steps x)).
Proof.
  induction steps as [|[k body] steps IH]; intros x.
  - repeat split; auto.
  - cbn [updates map fst].
    pose proof (update_same_shape k body x) as Hhead.
    destruct (update k body x) as [a|a]; cbn [upd_bind value_of] in *.
    + exact (same_shape_trans [k] (map fst steps) x a _ Hhead (IH a)).
    + destruct Hhead as (H1 & H2 & H3). split; [|split]; auto.
      intros k' Hk'. apply H3. intros [->|[]]. apply Hk'. left. reflexivity.
Qed.

(** The top-level keys each schema sanitises *)
Definition schema_keys (schema_key : string) : list string :=
  if String.eqb schema_key "blog_analysis"
  then ["sentiment"; "topics"; "keywords"; "readability"]
  else if String.eqb schema_key "keyword_recommendations"
  then ["keywords"; "weak_sections"; "scores"]
  else if String.eqb schema_key "content_scoring"
  then ["overall_score"; "breakdown"; "recommendations"]
  else [].

(** The ranges of a keyword-recommendation response: [keywords] holds
    at most 10 items, each with [relevance] and [similarity] in [0, 1]
    and a non-negative [position]; every weak section has its
    [confidence] in [0, 1] and non-negative [start] and [end]; and each
    of the five [scores] is an integer from 0 to 100.  Every condition
    is on a key that is present. *)
Definition recommendations_in_range (sanitized : json) : Prop :=
  at_key "keywords"
         (fun v =>
            at_most 10 v
            /\ each (fun kw => at_key "relevance" is_unit kw
                               /\ at_key "similarity" is_unit kw
                               /\ at_key "position" (is_int_from 0) kw) v)
         sanitized
  /\ at_key "weak_sections"
            (each (fun ws => at_key "confidence" is_unit ws
                             /\ at_key "start" (is_int_from 0) ws
                             /\ at_key "end" (is_int_from 0) ws))
            sanitized
  /\ at_key "scores"
            (fun scores =>
               List.Forall (fun name => at_key name is_percent scores)
                           ["overall"; "readability"; "relevance"; "engagement"; "seo"])
            sanitized.

(** The ranges of a blog analysis: the sentiment's [confidence] and its
    three [scores] are in [0, 1]; [topics] holds at most 5 items with
    [relevance] in [0, 1] and [frequency] at least 1; [keywords] holds at
    most 10 items with [relevance] and [similarity] in [0, 1]; and
    [readability] is an integer from 0 to 100. *)
Definition analysis_in_range (sanitized : json) : Prop :=
  at_key "sentiment"
         (fun s =>
            at_key "confidence" is_unit s
            /\ at_key "scores"
                      (fun scores =>
                         List.Forall (fun name => at_key name is_unit scores)
                                     ["positive"; "negative"; "neutral"]) s)
         sanitized
  /\ at_key "topics"
            (fun v =>
               at_most 5 v
               /\ each (fun topic => at_key "relevance" is_unit topic
                                     /\ at_key "frequency" (is_int_from 1) topic) v)
            sanitized
  /\ at_key "keywords"
            (fun v =>
               at_most 10 v
               /\ each (fun kw => at_key "relevance" is_unit kw
                                  /\ at_key "similarity" is_unit kw) v)
            sanitized
  /\ at_key "readability" is_percent sanitized.

(** The ranges of a content scoring: [overall_score] and the six entries
    of [breakdown] are integers from 0 to 100 and [recommendations]
    holds at most 5 items. *)
Definition scoring_in_range (sanitized : json) : Prop :=
  at_key "overall_score" is_percent sanitized
  /\ at_key "breakdown"
            (fun breakdown =>
               List.Forall (fun name => at_key name is_percent breakdown)
                           ["keyword_relevance"; "readability"; "user_alignment";
                            "structure"; "seo"; "engagement"])
            sanitized
  /\ at_key "recommendations" (at_most 5) sanitized.

Section Conversions.
Variable parse_float : string -> option pyfloat.
Variable parse_int : string -> option Z.

(** Sanitising never adds, removes or reorders a top-level key, returns
    a response that is not a dictionary as it is, and leaves every key
    outside the schema with the value it had: also when an exception
    cuts the sanitisation short. *)
Theorem sanitize_keeps_shape (response : json) (schema_key : string) :
  let sanitized :=
    _validate_and_sanitize_response parse_float parse_int response schema_key in
  keys sanitized = keys response
  /\ (keys response = None -> sanitized = response)
  /\ forall k, ~ In k (schema_keys schema_key) ->
                getitem sanitized k = getitem response k.
Proof.
  unfold _validate_and_sanitize_response, schema_keys.
  unfold sanitize_blog_analysis, sanitize_keyword_recommendations,
    sanitize_content_scoring.
  destruct (String.eqb schema_key "blog_analysis");
    [exact (updates_same_shape _ response)|].
  destruct (String.eqb schema_key "keyword_recommendations");
    [exact (updates_same_shape _ response)|].
  destruct (String.eqb schema_key "content_scoring");
    [exact (updates_same_shape _ response)|].
  repeat split; auto.
Qed.

Lemma unit_interval_unit (v v' : json) :
  unit_interval parse_float v = Some v' -> is_unit v'.
Proof.
  unfold unit_interval. destruct (py_float parse_float v) as [f|]; [|discriminate].
  cbn. intros H. injection H as <-.
  destruct (clamp01_unit f) as (q & -> & Hq). exists q. split; [reflexivity | exact Hq].
Qed.

Lemma percent_percent (v v' : json) :
  percent parse_float v = Some v' -> is_percent v'.
Proof.
  unfold percent. destruct (py_float parse_float v) as [f|]; [|discriminate].
  destruct (int_of_float f) as [z|]; [|discriminate].
  cbn. intros H. injection H as <-. eexists. split; [reflexivity | lia].
Qed.

Lemma int_at_least_from (lo : Z) (v v' : json) :
  int_at_least parse_int lo v = Some v' -> is_int_from lo v'.
Proof.
  unfold int_at_least. destruct (py_int parse_int v) as [z|]; [|discriminate].
  cbn. intros H. injection H as <-. eexists. split; [reflexivity | lia].
Qed.

Lemma slice_at_most (n : nat) (v v' : json) : slice n v = Some v' -> at_most n v'.
Proof.
  destruct v; cbn; try discriminate; intros H; injection H as <-; cbn.
  - apply substring_prefix_length.
  - apply List.firstn_le_length.
Qed.

Ltac nodup_keys :=
  cbn [map fst];
  repeat (apply List.NoDup_cons; [cbn; intuition discriminate|]);
  apply List.NoDup_nil.

Ltac in_steps := cbn [In]; auto 10.

Ltac checked conv_lemma :=
  eapply ensures_updates;
  [nodup_keys | in_steps | apply ensures_assign; intros ? ?; apply conv_lemma].

Ltac checked_in H conv_lemma :=
  eapply (updates_done _ _ _ _ _ _ H);
  [nodup_keys | in_steps | apply ensures_assign; intros ? ?; apply conv_lemma].

Ltac all_checked conv_lemma :=
  let v := fresh "v" in
  let v' := fresh "v" in
  let Hv := fresh "Hv" in
  intros v v' Hv;
  repeat (apply List.Forall_cons; [checked_in Hv conv_lemma|]);
  apply List.Forall_nil.

Ltac under H :=
  eapply (updates_done _ _ _ _ _ _ H); [nodup_keys | in_steps |].

Lemma sanitized_recommendations (response sanitized : json) :
  sanitize_keyword_recommendations parse_float parse_int response = Done sanitized ->
  recommendations_in_range sanitized.
Proof.
  intros Hdone. unfold sanitize_keyword_recommendations in Hdone.
  unfold recommendations_in_range.
  split; [|split].
  - under Hdone.
    apply ensures_sliced. repeat apply ensures_and.
    + checked unit_interval_unit.
    + checked unit_interval_unit.
    + checked int_at_least_from.
  - under Hdone.
    apply ensures_for_each. repeat apply ensures_and.
    + checked unit_interval_unit.
    + checked int_at_least_from.
    + checked int_at_least_from.
  - under Hdone.
    all_checked percent_percent.
Qed.

Lemma sanitized_analysis (response sanitized : json) :
  sanitize_blog_analysis parse_float parse_int response = Done sanitized ->
  analysis_in_range sanitized.
Proof.
  intros Hdone. unfold sanitize_blog_analysis in Hdone.
  unfold analysis_in_range.
  split; [|split; [|split]].
  - under Hdone.
    apply ensures_and.
    + checked unit_interval_unit.
    + eapply ensures_updates; [nodup_keys | in_steps |].
      all_checked unit_interval_unit.
  - under Hdone.
    apply ensures_sliced. repeat apply ensures_and.
    + checked unit_interval_unit.
    + checked int_at_least_from.
  - under Hdone.
    apply ensures_sliced. repeat apply ensures_and.
    + checked unit_interval_unit.
    + checked unit_interval_unit.
  - checked_in Hdone percent_percent.
Qed.

Lemma sanitized_scoring (response sanitized : json) :
  sanitize_content_scoring parse_float response = Done sanitized ->
  scoring_in_range sanitized.
Proof.
  intros Hdone. unfold sanitize_content_scoring in Hdone.
  unfold scoring_in_range.
  split; [|split].
  - checked_in Hdone percent_percent.
  - under Hdone.
    all_checked percent_percent.
  - under Hdone.
    apply ensures_assign. intros v v'. apply slice_at_most.
Qed.

(** Whenever the sanitisation of a response runs to its end, the
    response it leaves has every number of its schema in range: the
    ranges of [recommendations_in_range] for a keyword recommendation,
    of [analysis_in_range] for a blog analysis and of [scoring_in_range]
    for a content scoring. *)
Theorem sanitized_values_in_range (response sanitized : json) :
  (sanitize_keyword_recommendations parse_float parse_int response = Done sanitized ->
   recommendations_in_range sanitized)
  /\ (sanitize_blog_analysis parse_float parse_int response = Done sanitized ->
      analysis_in_range sanitized)
  /\ (sanitize_content_scoring parse_float response = Done sanitized ->
      scoring_in_range sanitized).
Proof.
  split; [|split].
  - apply sanitized_recommendations.
  - apply sanitized_analysis.
  - apply sanitized_scoring.
Qed.

End Conversions.

(** A response whose numbers are out of range *)
Definition raw_recommendations : json :=
  JDict [ ("keywords",
           JList [ JDict [ ("keyword", JStr "seo"); ("relevance", JFloat (FFin 1.4));
                           ("similarity", JInt (-1)); ("position", JInt (-3)) ] ]);
          ("weak_sections", JList [ JDict [ ("confidence", JFloat FNaN);
                                            ("start", JInt 4); ("end", JFloat (FFin 9.5)) ] ]);
          ("scores", JDict [ ("overall", JInt 140); ("seo", JFloat (FFin (-3))) ]);
          ("note", JStr "kept") ].

Definition raw_analysis : json :=
  JDict [ ("sentiment", JDict [ ("confidence", JInt 3);
                                ("scores", JDict [ ("positive", JFloat (FInf false)) ]) ]);
          ("topics", JList [ JDict [ ("relevance", JBool true); ("frequency", JInt 0) ] ]);
          ("readability", JFloat (FFin 250.7)) ].

Definition raw_scoring : json :=
  JDict [ ("overall_score", JInt (-5));
          ("breakdown", JDict [ ("seo", JInt 101); ("structure", JFloat (FFin 55.9)) ]);
          ("recommendations", JList [JStr "a"; JStr "b"; JStr "c"; JStr "d"; JStr "e";
                                     JStr "f"]) ].

(** The sanitisation runs to its end on each of them. *)
Example sanitize_recommendations_completes :
  sanitize_keyword_recommendations no_number no_number raw_recommendations
  = Done (JDict [ ("keywords",
                   JList [ JDict [ ("keyword", JStr "seo"); ("relevance", JFloat (FFin 1));
                                   ("similarity", JFloat (FFin 0));
                                   ("position", JInt 0) ] ]);
                  ("weak_sections",
                   JList [ JDict [ ("confidence", JFloat (FFin 1));
                                   ("start", JInt 4); ("end", JInt 9) ] ]);
                  ("scores", JDict [ ("overall", JInt 100); ("seo", JInt 0) ]);
                  ("note", JStr "kept") ]).
Proof. reflexivity. Qed.

Example sanitize_analysis_completes :
  sanitize_blog_analysis no_number no_number raw_analysis
  = Done (JDict [ ("sentiment",
                   JDict [ ("confidence", JFloat (FFin 1));
                           ("scores", JDict [ ("positive", JFloat (FFin 1)) ]) ]);
                  ("topics", JList [ JDict [ ("relevance", JFloat (FFin 1));
                                             ("frequency", JInt 1) ] ]);
                  ("readability", JInt 100) ]).
Proof. reflexivity. Qed.

Example sanitize_scoring_completes :
  sanitize_content_scoring no_number raw_scoring
  = Done (JDict [ ("overall_score", JInt 0);
                  ("breakdown", JDict [ ("seo", JInt 100); ("structure", JInt 55) ]);
                  ("recommendations", JList [JStr "a"; JStr "b"; JStr "c"; JStr "d";
                                             JStr "e"]) ]).
Proof. reflexivity. Qed.

End SanitizeMore.

(** ** Repairing truncated output and keeping prompts within budget *)
Module RepairFacts.
Import Repair PyStrFacts.
#[local] Arguments String.append _ _ : simpl nomatch.
#[local] Arguments String.prefix _ _ : simpl never.
Local Open Scope Q_scope.

(** The one-character string *)
Definition char (c : ascii) : string := String c EmptyString.

Lemma count_char_cons (c c' : ascii) (s : string) :
  PyStr.count (String c' s) (char c)
  = ((if Ascii.eqb c c' then 1 else 0) + PyStr.count s (char c))%nat.
Proof.
  unfold PyStr.count, char. cbn [PyStr.count_go String.length Nat.sub].
  rewrite prefix_cons, prefix_nil.
  destruct (ascii_dec c c') as [->|Hne].
  - rewrite Ascii.eqb_refl. reflexivity.
  - destruct (Ascii.eqb_spec c c'); [congruence | reflexivity].
Qed.

Lemma count_char_nil (c : ascii) : PyStr.count "" (char c) = 0%nat.
Proof. reflexivity. Qed.

Lemma count_char_app (c : ascii) (a b : string) :
  PyStr.count (a +:+ b) (char c)
  = (PyStr.count a (char c) + PyStr.count b (char c))%nat.
Proof.
  induction a as [|x a IH]; [reflexivity|].
  cbn [String.append]. rewrite !count_char_cons, IH. lia.
Qed.

Lemma count_repeat_same (c : ascii) (n : nat) :
  PyStr.count (repeat_string (char c) n) (char c) = n.
Proof.
  induction n as [|n IH]; [reflexivity|].
  cbn [repeat_string]. unfold char at 1. cbn [String.append].
  rewrite count_char_cons, Ascii.eqb_refl, IH. reflexivity.
Qed.

Lemma count_repeat_other (c c' : ascii) (n : nat) :
  c <> c' -> PyStr.count (repeat_string (char c') n) (char c) = 0%nat.
Proof.
  intros Hne. induction n as [|n IH]; [reflexivity|].
  cbn [repeat_string]. unfold char at 1. cbn [String.append].
  rewrite count_char_cons, IH.
  destruct (Ascii.eqb_spec c c'); [congruence | reflexivity].
Qed.

Lemma count_rstrip (c : ascii) (s : string) :
  PyStr.is_space c = false ->
  PyStr.count (PyStr.rstrip s) (char c) = PyStr.count s (char c).
Proof.
  intros Hc. induction s as [|x s IH]; [reflexivity|].
  cbn [PyStr.rstrip]. rewrite count_char_cons.
  destruct (PyStr.is_space x && PyStr.is_empty (PyStr.rstrip s)) eqn:E.
  - apply andb_true_iff in E. destruct E as [Hx Hempty].
    destruct (PyStr.rstrip s); [|discriminate].
    rewrite <- IH, count_char_nil.
    destruct (Ascii.eqb_spec c x); [congruence | reflexivity].
  - rewrite count_char_cons, IH. reflexivity.
Qed.

Lemma count_rstrip_commas (c : ascii) (s : string) :
  c <> ","%char ->
  PyStr.count (rstrip_commas s) (char c) = PyStr.count s (char c).
Proof.
  intros Hc. induction s as [|x s IH]; [reflexivity|].
  cbn [rstrip_commas]. rewrite count_char_cons.
  destruct (Ascii.eqb x "," && PyStr.is_empty (rstrip_commas s)) eqn:E.
  - apply andb_true_iff in E. destruct E as [Hx Hempty].
    apply Ascii.eqb_eq in Hx. subst x.
    destruct (rstrip_commas s); [|discriminate].
    rewrite <- IH, count_char_nil.
    destruct (Ascii.eqb_spec c ","); [congruence | reflexivity].
  - rewrite count_char_cons, IH. reflexivity.
Qed.

(** Every character of the string satisfies [p]. *)
Fixpoint only (p : ascii -> bool) (s : string) : bool :=
  match s with
  | EmptyString => true
  | String c s' => p c && only p s'
  end.

Lemma only_weaken (p q : ascii -> bool) (s : string) :
  (forall c, p c = true -> q c = true) -> only p s = true -> only q s = true.
Proof.
  intros Hpq. induction s as [|c s IH]; cbn; [reflexivity|].
  intros H. apply andb_true_iff in H. destruct H as [Hc Hs].
  rewrite (Hpq c Hc), (IH Hs). reflexivity.
Qed.

Lemma only_app (p : ascii -> bool) (a b : string) :
  only p a = true -> only p b = true -> only p (a +:+ b) = true.
Proof.
  induction a as [|c a IH]; cbn [String.append only]; [auto|].
  intros H Hb. apply andb_true_iff in H. destruct H as [Hc Ha].
  rewrite Hc, (IH Ha Hb). reflexivity.
Qed.

Lemma rstrip_dropped (s : string) :
  exists dropped, PyStr.rstrip s +:+ dropped = s /\ only PyStr.is_space dropped = true.
Proof.
  induction s as [|x s (dropped & Hs & Hd)].
  - exists "". split; reflexivity.
  - cbn [PyStr.rstrip].
    destruct (PyStr.is_space x && PyStr.is_empty (PyStr.rstrip s)) eqn:E.
    + apply andb_true_iff in E. destruct E as [Hx Hempty].
      destruct (PyStr.rstrip s); [|discriminate]. cbn in Hs. subst dropped.
      exists (String x s). split; [reflexivity|]. cbn. rewrite Hx, Hd. reflexivity.
    + exists dropped. split; [|exact Hd]. cbn. rewrite Hs. reflexivity.
Qed.

Lemma rstrip_commas_dropped (s : string) :
  exists dropped,
    rstrip_commas s +:+ dropped = s
    /\ only (fun c => Ascii.eqb c ",") dropped = true.
Proof.
  induction s as [|x s (dropped & Hs & Hd)].
  - exists "". split; reflexivity.
  - cbn [rstrip_commas].
    destruct (Ascii.eqb x "," && PyStr.is_empty (rstrip_commas s)) eqn:E.
    + apply andb_true_iff in E. destruct E as [Hx Hempty].
      destruct (rstrip_commas s); [|discriminate]. cbn in Hs. subst dropped.
      exists (String x s). split; [reflexivity|]. cbn. rewrite Hx, Hd. reflexivity.
    + exists dropped. split; [|exact Hd]. cbn. rewrite Hs. reflexivity.
Qed.

(** White space or a comma *)
Definition strippable (c : ascii) : bool := PyStr.is_space c || Ascii.eqb c ",".

Ltac normal_closers :=
  change (repeat_string "}") with (repeat_string (char "}"));
  change (repeat_string "]") with (repeat_string (char "]")).

Section WithJson.
Variable json_loads_ok : string -> bool.

(** A blank text and a text that parses are returned as they are.  Any
    other text is repaired by appending and stripping only: the result,
    followed by the white space and commas that were stripped, is the
    text followed by the missing closing braces and then the missing
    closing brackets; it has the opening braces and brackets of the
    text and at least as many closing ones of each kind. *)
Theorem fix_truncated_json_balances (text : string) :
  let fixed := _fix_truncated_json json_loads_ok text in
  (PyStr.is_empty (PyStr.strip text) = true \/ json_loads_ok text = true ->
   fixed = text)
  /\ (PyStr.is_empty (PyStr.strip text) = false -> json_loads_ok text = false ->
      (exists dropped,
          fixed +:+ dropped
          = text
            +:+ repeat_string "}" (PyStr.count text "{" - PyStr.count text "}")
            +:+ repeat_string "]" (PyStr.count text "[" - PyStr.count text "]")
          /\ only strippable dropped = true)
      /\ PyStr.count fixed "{" = PyStr.count text "{"
      /\ PyStr.count fixed "[" = PyStr.count text "["
      /\ PyStr.count fixed "}" = Nat.max (PyStr.count text "{") (PyStr.count text "}")
      /\ PyStr.count fixed "]" = Nat.max (PyStr.count text "[") (PyStr.count text "]")).
Proof.
  intros fixed. unfold fixed, _fix_truncated_json. split.
  - intros [Hblank|Hok].
    + rewrite Hblank. reflexivity.
    + rewrite Hok. destruct (PyStr.is_empty _); reflexivity.
  - intros Hblank Hok. rewrite Hblank, Hok.
    set (ob := PyStr.count text "{"). set (cb := PyStr.count text "}").
    set (ok := PyStr.count text "["). set (ck := PyStr.count text "]").
    set (with_braces := if (cb <? ob)%nat then text +:+ repeat_string "}" (ob - cb)
                        else text).
    set (with_brackets := if (ck <? ok)%nat
                          then with_braces +:+ repeat_string "]" (ok - ck)
                          else with_braces).
    assert (Hbraces : with_braces = text +:+ repeat_string "}" (ob - cb)).
    { unfold with_braces. destruct (Nat.ltb_spec cb ob) as [H|H]; [reflexivity|].
      replace (ob - cb)%nat with 0%nat by lia. cbn. rewrite app_nil_r. reflexivity. }
    assert (Hbrackets : with_brackets
                        = text +:+ repeat_string "}" (ob - cb)
                               +:+ repeat_string "]" (ok - ck)).
    { unfold with_brackets. rewrite Hbraces.
      destruct (Nat.ltb_spec ck ok) as [H|H]; [rewrite app_assoc; reflexivity|].
      replace (ok - ck)%nat with 0%nat by lia. cbn. rewrite app_nil_r. reflexivity. }
    clearbody with_brackets. clear with_braces Hbraces. subst with_brackets.
    set (full := text +:+ repeat_string "}" (ob - cb) +:+ repeat_string "]" (ok - ck)).
    assert (Hcount : forall c : ascii,
               PyStr.is_space c = false -> c <> ","%char ->
               PyStr.count (rstrip_commas (PyStr.rstrip full)) (char c)
               = (PyStr.count text (char c)
                  + PyStr.count (repeat_string "}" (ob - cb)) (char c)
                  + PyStr.count (repeat_string "]" (ok - ck)) (char c))%nat).
    { intros c Hspace Hcomma.
      rewrite count_rstrip_commas, count_rstrip by assumption.
      unfold full. rewrite !count_char_app. apply Nat.add_assoc. }
    split; [|repeat split].
    + destruct (rstrip_dropped full) as (d1 & H1 & Hd1).
      destruct (rstrip_commas_dropped (PyStr.rstrip full)) as (d2 & H2 & Hd2).
      exists (d2 +:+ d1). split.
      * rewrite <- app_assoc, H2, H1. reflexivity.
      * apply only_app.
        -- apply (only_weaken _ _ _ (fun c H => orb_true_intro _ _ (or_intror H)) Hd2).
        -- apply (only_weaken _ _ _ (fun c H => orb_true_intro _ _ (or_introl H)) Hd1).
    + change "{" with (char "{") at 1. rewrite Hcount by (reflexivity || discriminate).
      normal_closers. rewrite !count_repeat_other by discriminate.
      unfold char, ob, cb, ok, ck. lia.
    + change "[" with (char "[") at 1. rewrite Hcount by (reflexivity || discriminate).
      normal_closers. rewrite !count_repeat_other by discriminate.
      unfold char, ob, cb, ok, ck. lia.
    + change "}" with (char "}") at 1. rewrite Hcount by (reflexivity || discriminate).
      normal_closers. rewrite count_repeat_same, count_repeat_other by discriminate.
      unfold char, ob, cb, ok, ck. lia.
    + change "]" with (char "]") at 1. rewrite Hcount by (reflexivity || discriminate).
      normal_closers. rewrite count_repeat_same, count_repeat_other by discriminate.
      unfold char, ob, cb, ok, ck. lia.
Qed.

End WithJson.


(** *** The length budget *)

Lemma int_of_bounds (x : Q) :
  0 <= x -> (0 <= int_of x)%Z /\ inject_Z (int_of x) <= x.
Proof.
  intros Hx.
  assert (Hfloor : int_of x = Qfloor x).
  { destruct x as [n d]. unfold int_of. cbn [Qnum Qden Qfloor].
    apply Z.quot_div_nonneg; [|lia].
    unfold Qle in Hx. cbn in Hx. lia. }
  rewrite Hfloor. split; [|apply Qfloor_le].
  change 0%Z with (Qfloor 0). apply Qfloor_resp_le. exact Hx.
Qed.

Lemma rfind_char_from_bounds (c : ascii) (s : string) :
  forall i found,
    rfind_char_from c s i found = found
    \/ (Z.of_nat i <= rfind_char_from c s i found < Z.of_nat (i + String.length s))%Z.
Proof.
  induction s as [|x s IH]; intros i found; cbn [rfind_char_from String.length].
  - left. reflexivity.
  - destruct (IH (S i) (if Ascii.eqb x c then Z.of_nat i else found)) as [->|H].
    + destruct (Ascii.eqb x c); [right; lia | left; reflexivity].
    + right. lia.
Qed.

Lemma rfind_char_bounds (s : string) (c : ascii) :
  rfind_char s c = (-1)%Z
  \/ (0 <= rfind_char s c < Z.of_nat (String.length s))%Z.
Proof.
  unfold rfind_char. destruct (rfind_char_from_bounds c s 0 (-1)) as [H|H];
    [left; exact H | right; exact H].
Qed.

Lemma slice_from_0 (s : string) (k : Z) :
  (0 <= k <= Z.of_nat (String.length s))%Z ->
  PyStr.slice s 0 k = String.substring 0 (Z.to_nat k) s.
Proof.
  intros Hk. unfold PyStr.slice.
  destruct (Z.ltb_spec k 0); [lia|].
  replace (Z.min k (Z.of_nat (String.length s)) - 0)%Z with k by lia.
  reflexivity.
Qed.

Lemma substring_0_prefix (n : nat) (s : string) :
  String.prefix (String.substring 0 n s) s = true.
Proof.
  apply occurs_at_0. apply (AgentMore.substring_occurs s 0 n).
Qed.

Lemma prefix_trans (a b c : string) :
  String.prefix a b = true -> String.prefix b c = true -> String.prefix a c = true.
Proof.
  rewrite !prefix_iff. intros [p ->] [q ->]. exists (p +:+ q). apply app_assoc.
Qed.

Section WithTokenizer.
Variable count_tokens : string -> Q.

(** With a non-negative budget the optimiser always returns a text.  A
    text within the budget (and the empty text) is returned as it is.  A
    text over the budget is always cut: the result is a proper prefix of
    the text followed by ["..."], and the prefix is short enough that,
    at the text's own rate of tokens per character, it takes at most 90%
    of the budget. *)
Theorem optimize_content_length_cuts (content : string) (max_tokens : Z) :
  (0 <= max_tokens)%Z ->
  exists result,
    _optimize_content_length count_tokens content max_tokens = Some result
    /\ (content = "" \/ count_tokens content <= inject_Z max_tokens -> result = content)
    /\ (content <> "" -> inject_Z max_tokens < count_tokens content ->
        exists kept,
          result = kept +:+ "..."
          /\ String.prefix kept content = true
          /\ (String.length kept < String.length content)%nat
          /\ PyNum.of_nat (String.length kept) * count_tokens content
             <= 0.9 * inject_Z max_tokens * PyNum.of_nat (String.length content)).
Proof.
  intros Hmax. unfold _optimize_content_length.
  destruct content as [|c rest]; [eexists; split; [reflexivity|]; split; [reflexivity | congruence]|].
  set (content := String c rest). cbn [PyStr.is_empty].
  set (tokens := count_tokens content).
  assert (Hlen : (0 < String.length content)%nat) by (cbn; lia).
  destruct (Qle_bool tokens (inject_Z max_tokens)) eqn:Hbudget.
  { apply Qle_bool_iff in Hbudget. eexists. split; [reflexivity|].
    split; [reflexivity|]. intros _ Hover. lra. }
  assert (Hover : inject_Z max_tokens < tokens).
  { apply Qnot_le_lt. intros H. apply Qle_bool_iff in H. congruence. }
  assert (Hmax0 : 0 <= inject_Z max_tokens).
  { change 0 with (inject_Z 0). rewrite <- Zle_Qle. exact Hmax. }
  assert (Htok : 0 < tokens) by lra.
  destruct (Qeq_bool tokens 0) eqn:Hzero.
  { apply Qeq_bool_iff in Hzero. lra. }
  set (len := PyNum.of_nat (String.length content)).
  assert (Hlen0 : 0 < len).
  { unfold len, PyNum.of_nat. change 0 with (inject_Z 0). rewrite <- Zlt_Qlt. lia. }
  set (x := inject_Z max_tokens * (len / tokens) * 0.9).
  assert (Hx : x * tokens == 0.9 * inject_Z max_tokens * len).
  { unfold x. field. lra. }
  assert (Hx0 : 0 <= x).
  { unfold x. apply Qmult_le_0_compat; [|lra].
    apply Qmult_le_0_compat; [exact Hmax0|].
    apply Qle_shift_div_l; [exact Htok | lra]. }
  assert (Hxlen : x < len).
  { apply (Qmult_lt_r _ _ tokens Htok). rewrite Hx. nra. }
  destruct (int_of_bounds x Hx0) as [Ht0 Htx].
  set (target := int_of x) in *.
  assert (Htarget : (target < Z.of_nat (String.length content))%Z).
  { rewrite Zlt_Qlt. fold (PyNum.of_nat (String.length content)). fold len. lra. }
  destruct (Z.ltb_spec target (Z.of_nat (String.length content))) as [_|H]; [|lia].
  rewrite (slice_from_0 content target) by lia.
  set (truncated := String.substring 0 (Z.to_nat target) content).
  assert (Htrunc : String.length truncated = Z.to_nat target).
  { unfold truncated. rewrite AgentMore.substring_length. lia. }
  assert (Hbound : forall kept,
             (String.length kept <= Z.to_nat target)%nat ->
             PyNum.of_nat (String.length kept) * tokens
             <= 0.9 * inject_Z max_tokens * len).
  { intros kept Hk. rewrite <- Hx.
    apply Qmult_le_compat_r; [|lra].
    apply (Qle_trans _ (inject_Z target)); [|exact Htx].
    unfold PyNum.of_nat. rewrite <- Zle_Qle. lia. }
  destruct (PyNum.gtb (inject_Z (rfind_char truncated " ")) (inject_Z target * 0.8))
    eqn:Hspace.
  - apply PyNumFacts.gtb_true in Hspace.
    assert (Ht0q : 0 <= inject_Z target).
    { change 0 with (inject_Z 0). rewrite <- Zle_Qle. exact Ht0. }
    assert (Hpos : (0 <= rfind_char truncated " ")%Z).
    { destruct (rfind_char_bounds truncated " ") as [Hnone|Hsome]; [|lia].
      rewrite Hnone in Hspace. change (inject_Z (-1)) with (-1 # 1) in Hspace. lra. }
    destruct (rfind_char_bounds truncated " ") as [Hnone|Hsome]; [lia|].
    rewrite (slice_from_0 truncated _) by lia.
    eexists. split; [reflexivity|]. split; [intros [H|H]; [discriminate | lra]|].
    intros _ _. eexists. split; [reflexivity|].
    assert (Hkept : (String.length (String.substring
                                      0 (Z.to_nat (rfind_char truncated " ")) truncated)
                     <= Z.to_nat target)%nat).
    { rewrite AgentMore.substring_length. lia. }
    split; [|split; [lia | apply Hbound; exact Hkept]].
    apply (prefix_trans _ truncated); apply substring_0_prefix.
  - eexists. split; [reflexivity|]. split; [intros [H|H]; [discriminate | lra]|].
    intros _ _. exists truncated. split; [reflexivity|].
    split; [apply substring_0_prefix|]. split; [lia|].
    apply Hbound. lia.
Qed.

(** The count is 0 and the budget negative: the division by the count
    raises. *)
Theorem optimize_content_length_divides_by_count (content : string) (max_tokens : Z) :
  content <> "" ->
  count_tokens content == 0 ->
  (max_tokens < 0)%Z ->
  _optimize_content_length count_tokens content max_tokens = None.
Proof.
  intros Hne Hzero Hmax. unfold _optimize_content_length.
  destruct content as [|c rest]; [congruence|]. cbn [PyStr.is_empty].
  assert (Hneg : inject_Z max_tokens < 0).
  { change 0 with (inject_Z 0). rewrite <- Zlt_Qlt. exact Hmax. }
  destruct (Qle_bool _ (inject_Z max_tokens)) eqn:Hbudget.
  - apply Qle_bool_iff in Hbudget. lra.
  - destruct (Qeq_bool _ 0) eqn:Hz; [reflexivity|].
    apply Qeq_bool_neq in Hz. contradiction.
Qed.

End WithTokenizer.

Lemma optimize_content_length_cuts_witness :
  (0 <= 8)%Z
  /\ _optimize_content_length count_tokens_fallback AgentMore.long_draft 8
     = Some "word word word word word..."
  /\ exists result,
       _optimize_content_length count_tokens_fallback AgentMore.long_draft 8 = Some result.
Proof.
  assert (H : (0 <= 8)%Z) by lia.
  split; [exact H|]. split; [vm_compute; reflexivity|].
  destruct (optimize_content_length_cuts count_tokens_fallback AgentMore.long_draft 8 H)
    as (result & Hresult & _).
  exists result. exact Hresult.
Defined.

Lemma optimize_content_length_divides_by_count_witness :
  ("   " <> "" /\ count_tokens_fallback "   " == 0 /\ (-1 < 0)%Z)
  /\ _optimize_content_length count_tokens_fallback "   " (-1) = None.
Proof.
  assert (H1 : "   " <> "") by discriminate.
  assert (H2 : count_tokens_fallback "   " == 0) by reflexivity.
  assert (H3 : (-1 < 0)%Z) by lia.
  split; [repeat split; assumption|].
  exact (optimize_content_length_divides_by_count count_tokens_fallback "   " (-1)
                                                  H1 H2 H3).
Defined.

End RepairFacts.

(** ** Recommendations and syllables *)
Module ScoringMore.
Import Models Scoring.
Local Open Scope Q_scope.

Lemma firstn_nil_inv {A : Type} (n : nat) (l : list A) :
  firstn (S n) l = [] -> l = [].
Proof. destruct l; [reflexivity | discriminate]. Qed.

Lemma app_not_nil_l {A : Type} (l l' : list A) : l <> [] -> l ++ l' <> [].
Proof. destruct l; [congruence | discriminate]. Qed.

Lemma app_not_nil_r {A : Type} (l l' : list A) : l' <> [] -> l ++ l' <> [].
Proof. destruct l; [auto | discriminate]. Qed.

(** One of the five blocks of recommendations was appended. *)
Ltac some_block :=
  match goal with
  | Hlow : ?k = true \/ ?r = true \/ ?c = true \/ ?s = true \/ ?e = true |- _ =>
      destruct e; [apply app_not_nil_r; discriminate|];
      destruct s; [apply app_not_nil_r; apply app_not_nil_r; discriminate|];
      destruct c; [apply app_not_nil_r; discriminate|];
      destruct r; [apply app_not_nil_r; discriminate|];
      destruct k; [apply app_not_nil_r; apply app_not_nil_l; discriminate|];
      destruct Hlow as [H|[H|[H|[H|H]]]]; discriminate
  end.

Section WithRe.
Variable re : Re.engine.

(** At most 8 recommendations are returned; none when no sub-score is
    below 60 (the profile alignment only counts when a profile is
    given); and at least one as soon as the keyword, readability,
    structure, SEO or engagement sub-score is below 60. *)
Theorem recommendations_follow_scores
        (breakdown : ScoreBreakdown) (content : string)
        (user_profile : option UserProfile) :
  let recommendations := _generate_recommendations re breakdown content user_profile in
  (List.length recommendations <= 8)%nat
  /\ (60 <= keyword_relevance breakdown ->
      60 <= readability breakdown ->
      60 <= content_structure breakdown ->
      60 <= seo_optimization breakdown ->
      60 <= engagement_potential breakdown ->
      user_profile = None \/ 60 <= user_profile_alignment breakdown ->
      recommendations = [])
  /\ (keyword_relevance breakdown < 60
      \/ readability breakdown < 60
      \/ content_structure breakdown < 60
      \/ seo_optimization breakdown < 60
      \/ engagement_potential breakdown < 60 ->
      recommendations <> []).
Proof.
  intros recommendations. unfold recommendations, _generate_recommendations.
  split; [apply List.firstn_le_length|]. split.
  - intros Hk Hr Hc Hs He Hp.
    apply PyNumFacts.ltb_false in Hk, Hr, Hc, Hs, He.
    rewrite Hk, Hr, Hc, Hs, He.
    destruct user_profile as [p|]; [|reflexivity].
    destruct Hp as [Hp|Hp]; [discriminate|].
    apply PyNumFacts.ltb_false in Hp. rewrite Hp. reflexivity.
  - intros Hlow Hnil. apply firstn_nil_inv in Hnil.
    repeat rewrite <- PyNumFacts.ltb_true in Hlow.
    set (k := PyNum.ltb (keyword_relevance breakdown) 60) in *.
    set (r := PyNum.ltb (readability breakdown) 60) in *.
    set (c := PyNum.ltb (content_structure breakdown) 60) in *.
    set (s := PyNum.ltb (seo_optimization breakdown) 60) in *.
    set (e := PyNum.ltb (engagement_potential breakdown) 60) in *.
    destruct user_profile as [p|];
      [destruct (PyNum.ltb (user_profile_alignment breakdown) 60);
       [apply List.app_eq_nil in Hnil; destruct Hnil as [Hnil _]|]|];
      revert Hnil; some_block.
Qed.

End WithRe.

(** Every word counts for at least one syllable and for no more
    syllables than it has characters. *)
Theorem syllables_bounded (word : string) :
  (1 <= _count_syllables word <= Z.max 1 (Z.of_nat (String.length word)))%Z.
Proof.
  unfold _count_syllables.
  set (loop := fix loop (s : string) (syllable_count : Z) (prev : bool) : Z :=
         match s with
         | EmptyString => syllable_count
         | String char s' =>
             loop s'
                  (if PyStr.contains (String char EmptyString) "aeiouy" && negb prev
                   then (syllable_count + 1)%Z else syllable_count)
                  (PyStr.contains (String char EmptyString) "aeiouy")
         end).
  assert (Hloop : forall s n prev,
             (n <= loop s n prev <= n + Z.of_nat (String.length s))%Z).
  { induction s as [|x s IH]; intros n prev; cbn [loop String.length]; [lia|].
    match goal with
    | |- context [loop s ?n' ?p'] => specialize (IH n' p')
    end.
    destruct (PyStr.contains _ _ && negb prev); lia. }
  assert (Hlower : String.length (PyStr.lower word) = String.length word).
  { clear. induction word as [|x w IH]; cbn; [reflexivity | rewrite IH; reflexivity]. }
  specialize (Hloop (PyStr.lower word) 0%Z false). rewrite Hlower in Hloop.
  destruct (PyStr.endswith_char _ _ && _); lia.
Qed.

End ScoringMore.

(** ** The batch endpoint under retry *)
Module EndpointFacts.
Import Models Learning Main LearningFacts.
Local Open Scope Q_scope.

Section AnalyzeBlogs.
Variable verify_token : string -> exn + unit.
Variable analyze_blog_post : nat -> BlogPost -> exn + BlogAnalysis.
Variable now : nat -> Time.
Variable random : nat -> Q.

(** The posts an attempt accepts before it ends, with their analyses
    and the times their patterns are stamped with; [calls] is the number
    of calls the language model has received when the attempt starts. *)
Fixpoint accepted (blog_posts : list BlogPost) (calls : nat)
  : list (Time * BlogPost * BlogAnalysis) :=
  match blog_posts with
  | [] => []
  | blog_post :: rest =>
      match analyze_blog_post calls blog_post with
      | inr analysis =>
          if field_ok (ba_readability_score analysis)
          then (now calls, blog_post, analysis) :: accepted rest (S calls)
          else []
      | inl _ => []
      end
  end.

Lemma analyze_loop_accepted (blog_posts : list BlogPost) :
  forall (results : list BlogAnalysis) (w : World),
    let run := analyze_loop analyze_blog_post now blog_posts results w in
    historical_patterns (snd run)
    = store_all (historical_patterns w) (accepted blog_posts (llm_calls w))
    /\ (forall all, fst run = inr all ->
          List.length all = (List.length results + List.length blog_posts)%nat).
Proof.
  induction blog_posts as [|blog_post rest IH]; intros results w run.
  - cbn. split; [reflexivity|]. intros all H. injection H as <-. lia.
  - unfold run. cbn [analyze_loop accepted historical_patterns llm_calls].
    destruct (analyze_blog_post (llm_calls w) blog_post) as [e|analysis].
    + cbn. split; [reflexivity | discriminate].
    + unfold BlogAnalysisResult_new.
      destruct (field_ok (ba_readability_score analysis)).
      * match goal with
        | |- context [analyze_loop _ _ rest ?r ?w'] => destruct (IH r w') as [H1 H2]
        end.
        cbn [historical_patterns llm_calls] in H1.
        split; [exact H1|].
        intros all Hall. rewrite (H2 all Hall), List.length_app. cbn. lia.
      * cbn. split; [reflexivity | discriminate].
Qed.

(** The items stored by the attempts numbered below [attempts] *)
Definition stored_by (blog_posts : list BlogPost) (w : World) (attempts : nat)
  : list (Time * BlogPost * BlogAnalysis) :=
  concat (map (fun attempt =>
                 accepted blog_posts
                          (llm_calls (world_before analyze_blog_post now blog_posts w attempt)))
              (seq 0 attempts)).

Lemma store_all_app (hp : gmap string (list Pattern))
      (a b : list (Time * BlogPost * BlogAnalysis)) :
  store_all hp (a ++ b) = store_all (store_all hp a) b.
Proof. unfold store_all. apply List.fold_left_app. Qed.

Lemma world_before_patterns (blog_posts : list BlogPost) (w : World) (attempts : nat) :
  historical_patterns (world_before analyze_blog_post now blog_posts w attempts)
  = store_all (historical_patterns w) (stored_by blog_posts w attempts).
Proof.
  induction attempts as [|n IH]; [reflexivity|].
  unfold stored_by. rewrite List.seq_S, List.map_app, List.concat_app.
  cbn [map concat Nat.add]. rewrite List.app_nil_r, store_all_app.
  fold (stored_by blog_posts w n). rewrite <- IH.
  cbn [world_before]. unfold analyze_blog_posts.
  apply (analyze_loop_accepted blog_posts []).
Qed.

(** A request whose token is rejected is answered with status 500
    before anything is analysed.  Otherwise the batch is attempted
    between one and four times, each attempt but the last failing and
    being followed by one sleep; the response carries the results of the
    last attempt, one per post, and reports the number of posts; and
    status 500 is answered exactly after four failed attempts, with the
    exception of the fourth. *)
Theorem analyze_blogs_attempts (token : string) (blog_posts : list BlogPost) (w : World) :
  let run := analyze_blogs verify_token analyze_blog_post now random token blog_posts w in
  let calls := Retry.calls (snd (fst run)) in
  (forall e, verify_token token = inl e ->
     run = (inl {| status_code := 500; detail := FromVerifyToken e |},
            {| Retry.calls := 0; Retry.sleeps := [] |}, w))
  /\ (forall ok, verify_token token = inr ok ->
        (1 <= calls <= 4)%nat
        /\ List.length (Retry.sleeps (snd (fst run))) = (calls - 1)%nat
        /\ (forall attempt, (attempt < calls - 1)%nat ->
              exists e, attempt_outcome analyze_blog_post now blog_posts w attempt
                        = Retry.Failure e)
        /\ match fst (fst run) with
           | inr response =>
               attempt_outcome analyze_blog_post now blog_posts w (calls - 1)
               = Retry.Success (results response)
               /\ List.length (results response) = List.length blog_posts
               /\ total_posts_analyzed response = List.length blog_posts
           | inl error =>
               status_code error = 500%Z
               /\ calls = 4%nat
               /\ exists e,
                    detail error = FromRetry (Some e)
                    /\ attempt_outcome analyze_blog_post now blog_posts w 3
                       = Retry.Failure e
           end).
Proof.
  intros run calls. unfold calls, run, analyze_blogs. split.
  - intros e He. rewrite He. reflexivity.
  - intros ok Hok. rewrite Hok.
    set (func := attempt_outcome analyze_blog_post now blog_posts w).
    pose proof (RetryFacts.attempts_ending
                  func random retry_options 4 0 None
                  {| Retry.calls := 0; Retry.sleeps := [] |} eq_refl eq_refl) as Hend.
    change (Retry.attempts func random retry_options 4 0 None
                           {| Retry.calls := 0; Retry.sleeps := [] |})
      with (Retry.retry_with_exponential_backoff func random retry_options) in Hend.
    assert (Hfails : forall k,
               (forall j, (0 <= j < k)%nat ->
                          RetryFacts.retryable_failure func retry_options j) ->
               forall attempt, (attempt < k)%nat -> exists e, func attempt = Retry.Failure e).
    { intros k Hk attempt Hlt. destruct (Hk attempt ltac:(lia)) as (e & He & _).
      exists e. exact He. }
    destruct Hend as [k v w' Hk Hfail Hs Hc Hl
                     |k e w' Hk Hfail Hs Hne Hc
                     |e w' Hpos Hfail Hs Hc Hl
                     |Hzero]; cbn [fst snd] in *; try discriminate.
    + rewrite Hc. cbn [Retry.sleeps List.length] in Hl.
      split; [lia|]. split; [lia|].
      replace (S k - 1)%nat with k by lia.
      split; [exact (Hfails k Hfail)|].
      split; [exact Hs|]. split; [|reflexivity].
      unfold func, attempt_outcome in Hs.
      destruct (fst (analyze_blog_posts _ _ _ _)) as [e|all] eqn:Hrun; [discriminate|].
      injection Hs as <-.
      exact (proj2 (analyze_loop_accepted blog_posts [] _) all Hrun).
    + rewrite Hc. cbn [Retry.sleeps List.length] in Hl.
      split; [lia|]. split; [lia|].
      split; [apply (Hfails 3%nat); intros j Hj; apply Hfail; lia|].
      split; [reflexivity|]. split; [reflexivity|].
      exists e. split; [reflexivity | exact Hs].
Qed.

(** Whatever the endpoint answers, the patterns it leaves in the store
    are those of every post accepted in any of its attempts, failed
    attempts included, stored in order on top of what was there: each
    retry starts again from the first post, so a post accepted before a
    failure is stored once more by the next attempt. *)
Theorem analyze_blogs_patterns (token : string) (blog_posts : list BlogPost) (w : World) :
  let run := analyze_blogs verify_token analyze_blog_post now random token blog_posts w in
  historical_patterns (snd run)
  = store_all (historical_patterns w)
              (stored_by blog_posts w (Retry.calls (snd (fst run)))).
Proof.
  intros run. unfold run, analyze_blogs.
  destruct (verify_token token) as [e|ok]; [reflexivity|].
  destruct (fst (Retry.retry_with_exponential_backoff _ _ _)); cbn [fst snd];
    apply world_before_patterns.
Qed.

End AnalyzeBlogs.

(** Two posts; the language model fails on its second call only. *)
Definition second_post : BlogPost :=
  {| bp_title := None; bp_content := "Five habits of steady writers" |}.

Definition fails_once (call : nat) (blog_post : BlogPost) : exn + BlogAnalysis :=
  match call with
  | 1%nat => inl (ExternalError "timeout")
  | _ => inr an_analysis
  end.

(** The first attempt stores the pattern of the first post and fails on
    the second; the retry stores both: three patterns for two posts. *)
Example retry_stores_first_post_twice :
  let run := analyze_blogs (fun _ => inr tt) fails_once (fun _ => 0) RetryMore.half
                           "token" [a_post; second_post]
                           {| historical_patterns := ∅; llm_calls := 0 |} in
  Retry.calls (snd (fst run)) = 2%nat
  /\ map pt_content_length (general (historical_patterns (snd run))) = [26; 26; 29]%nat
  /\ llm_calls (snd run) = 4%nat.
Proof. vm_compute. repeat split; reflexivity. Qed.

End EndpointFacts.
